(** * homebridge-ai-plugin: the command pipeline of [HomebridgeAIPlatform]

    A shallow embedding of [src/index.ts] (class [HomebridgeAIPlatform]) and
    of the [AIService] it drives, followed by the properties of the
    resolver and of the dispatcher.

    Conventions of the embedding.
    - A JavaScript string is a [string]: a sequence of code units, here the
      units U+0000 .. U+00FF.  On that alphabet [toLowerCase], [includes],
      [trim], strict equality and the regular expression of
      [determineValueForAction] are modelled exactly.
    - Library code that is not part of the repository is either modelled on
      that alphabet (the string methods) or taken as a parameter of the
      section [Platform] ([JSON.parse], the completion client, HAP's
      validation of a characteristic value and the value of a characteristic
      HAP creates).
    - Logging, the remote call and the calls into HAP are recorded as events
      of a trace, in program order. *)

From Stdlib Require Import Bool List NArith ZArith Ascii String DecimalString Lia.
Import ListNotations.
Open Scope string_scope.

(** ** JavaScript strings *)

Module JsString.

Definition unit_of (c : ascii) : N := N_of_ascii c.

(** Upper-case letters of the alphabet: A-Z, and U+00C0 .. U+00DE without
    the multiplication sign U+00D7. *)
Definition isUpper (c : ascii) : bool :=
  let n := unit_of c in
  ((65 <=? n) && (n <=? 90) ||
   (192 <=? n) && (n <=? 222) && negb (n =? 215))%N.

Definition toLowerCaseUnit (c : ascii) : ascii :=
  if isUpper c then ascii_of_N (unit_of c + 32) else c.

(** [String.prototype.toLowerCase]. *)
Fixpoint toLowerCase (s : string) : string :=
  match s with
  | EmptyString => EmptyString
  | String c s' => String (toLowerCaseUnit c) (toLowerCase s')
  end.

(** [s.startsWith(t)]. *)
Fixpoint startsWith (s t : string) : bool :=
  match t, s with
  | EmptyString, _ => true
  | String a t', String b s' => Ascii.eqb a b && startsWith s' t'
  | String _ _, EmptyString => false
  end.

(** [String.prototype.includes]: [t] occurs in [s] at some position. *)
Fixpoint includes (s t : string) : bool :=
  startsWith s t ||
  match s with
  | EmptyString => false
  | String _ s' => includes s' t
  end.

(** White space and line terminators, as [trim] strips them. *)
Definition isWhiteSpace (c : ascii) : bool :=
  let n := unit_of c in
  ((9 <=? n) && (n <=? 13) || (n =? 32) || (n =? 160))%N.

Fixpoint trimStart (s : string) : string :=
  match s with
  | EmptyString => EmptyString
  | String c s' => if isWhiteSpace c then trimStart s' else s
  end.

Fixpoint trimEnd (s : string) : string :=
  match s with
  | EmptyString => EmptyString
  | String c s' =>
      match trimEnd s' with
      | EmptyString => if isWhiteSpace c then EmptyString else String c EmptyString
      | r => String c r
      end
  end.

(** [String.prototype.trim]. *)
Definition trim (s : string) : string := trimEnd (trimStart s).

(** A string is truthy when it is not empty. *)
Definition truthy (s : string) : bool :=
  match s with EmptyString => false | String _ _ => true end.

(** *** The regular expression [/set.*temperature.*to (\d+)/]

    The matcher follows the backtracking semantics of the language: the
    start positions are tried from left to right, [.*] is greedy and gives
    characters back one at a time, [.] is any unit but a line terminator,
    [\d] is an ASCII digit. The result is capture group 1. *)

Definition isLineTerminator (c : ascii) : bool :=
  let n := unit_of c in ((n =? 10) || (n =? 13))%N.

Definition isDigit (c : ascii) : bool :=
  let n := unit_of c in ((48 <=? n) && (n <=? 57))%N.

(** The literal [l] at the head of [s]: what follows it. *)
Fixpoint literal (l s : string) : option string :=
  match l, s with
  | EmptyString, _ => Some s
  | String a l', String b s' => if Ascii.eqb a b then literal l' s' else None
  | String _ _, EmptyString => None
  end.

(** [.*] followed by the continuation [k]. *)
Fixpoint dotStar {A : Type} (k : string -> option A) (s : string) : option A :=
  match s with
  | EmptyString => k EmptyString
  | String c s' =>
      if isLineTerminator c then k s
      else match dotStar k s' with
           | Some r => Some r
           | None => k s
           end
  end.

(** The longest run of digits at the head of [s]. *)
Fixpoint digitRun (s : string) : string :=
  match s with
  | EmptyString => EmptyString
  | String c s' => if isDigit c then String c (digitRun s') else EmptyString
  end.

(** [(\d+)] at the end of the pattern. *)
Definition digitsPlus (s : string) : option string :=
  match digitRun s with
  | EmptyString => None
  | ds => Some ds
  end.

Definition matchHere (s : string) : option string :=
  match literal "set" s with
  | None => None
  | Some s1 =>
      dotStar (fun s2 =>
        match literal "temperature" s2 with
        | None => None
        | Some s3 =>
            dotStar (fun s4 =>
              match literal "to " s4 with
              | None => None
              | Some s5 => digitsPlus s5
              end) s3
        end) s1
  end.

(** [s.match(/set.*temperature.*to (\d+)/)]: [None] is [null], [Some g]
    is a match whose group 1 is [g]. *)
Fixpoint matchSetTemperature (s : string) : option string :=
  match matchHere s with
  | Some g => Some g
  | None =>
      match s with
      | EmptyString => None
      | String _ s' => matchSetTemperature s'
      end
  end.

(** *** Numbers and [parseInt]

    [Integer z] is the Number whose value is the integer [z]. A Number
    holds every integer below 2^53 in magnitude as it is; a larger one is
    rounded to the nearest Number, which has a significand of 53 bits (of
    two that are as near, to the one whose significand is even), and from
    2^1024 on the Number is [Infinity]. *)
Inductive Number : Type :=
| NaN
| Integer (z : Z)
| NegativeZero
| Infinity (negative : bool).

Definition digitValue (c : ascii) : Z := Z.of_N (unit_of c) - 48.

Fixpoint decimalFrom (acc : Z) (ds : string) : Z :=
  match ds with
  | EmptyString => acc
  | String c ds' => decimalFrom (10 * acc + digitValue c) ds'
  end.

(** The integer written by a string of decimal digits. *)
Definition decimal (ds : string) : Z := decimalFrom 0 ds.

(** The integer [0 < m] rounded to 53 significant bits, to the nearest
    and then to the even significand. *)
Definition roundToNearest (m : Z) : Z :=
  let e := Z.max 0 (Z.log2 m - 52) in
  let q := Z.shiftr m e in
  let r := (m - Z.shiftl q e)%Z in
  let up := ((2 ^ e <? 2 * r) || ((2 * r =? 2 ^ e) && Z.odd q))%Z in
  Z.shiftl (if up then q + 1 else q)%Z e.

(** The Number for the integer [m], [0 <= m], with its sign. [parseInt]
    reads every digit of the run (the language lets an engine read the
    digits after the twentieth significant one as zeros, which changes
    nothing below 10^20). *)
Definition numberOfInteger (negative : bool) (m : Z) : Number :=
  if (m =? 0)%Z then (if negative then NegativeZero else Integer 0)
  else
    let r := roundToNearest m in
    if (r <? 2 ^ 1024)%Z then Integer (if negative then (- r)%Z else r)
    else Infinity negative.

(** [parseInt(s, 10)]. *)
Definition parseInt (s : string) : Number :=
  let s1 := trimStart s in
  let '(negative, s2) :=
    match s1 with
    | String c r =>
        if Ascii.eqb c "-" then (true, r)
        else if Ascii.eqb c "+" then (false, r)
        else (false, s1)
    | EmptyString => (false, s1)
    end in
  match digitRun s2 with
  | EmptyString => NaN
  | ds => numberOfInteger negative (decimal ds)
  end.

End JsString.

(** ** JSON values *)

Module Json.

#[local] Set Warnings "-register-all".

Inductive value : Type :=
| JNull
| JBool (b : bool)
| JNumber (lexeme : string)
| JString (s : string)
| JArray (elements : list value)
| JObject (members : list (string * value)).

(** A JavaScript value as the dispatcher sees it: [undefined], or what
    [JSON.parse] produced. *)
Inductive any : Type :=
| Undefined
| Value (v : value).

Definition str (s : string) : any := Value (JString s).

(** The last member named [key], as [JSON.parse] keeps the last of
    several members of one name. *)
Fixpoint lookup (key : string) (members : list (string * value)) : option value :=
  match members with
  | [] => None
  | (k, v) :: rest =>
      match lookup key rest with
      | Some v' => Some v'
      | None => if String.eqb k key then Some v else None
      end
  end.

(** [v.key] for a parsed value other than [null]: only objects have
    properties named [action] or [device]. *)
Definition getProperty (v : value) (key : string) : any :=
  match v with
  | JObject members =>
      match lookup key members with
      | Some x => Value x
      | None => Undefined
      end
  | _ => Undefined
  end.

(** The conversion of a parsed value to a string ([ToString], as a
    template literal applies it) throws a [TypeError] on an object that
    has a property [toString] of its own: a parsed value is never a
    function, so neither that property nor [valueOf] gives a primitive.
    An array joins the conversions of its elements. Every other value has
    a string. *)
Fixpoint toStringThrows (v : value) : bool :=
  match v with
  | JObject members => existsb (fun m => String.eqb (fst m) "toString") members
  | JArray elements => existsb toStringThrows elements
  | _ => false
  end.

(** *** A reader of JSON text

    [parse] reads the JSON grammar (ECMA-404) on the alphabet of the
    embedding; a [\u] escape naming a unit above U+00FF has no image in
    the alphabet and is not read. The theorems of the section [Platform]
    are stated for an arbitrary [JSON.parse]; [parse] instantiates it where
    a statement is evaluated on a concrete text. *)

Definition quote : ascii := "034"%char.
Definition backslash : ascii := "092"%char.

Definition isSpace (c : ascii) : bool :=
  let n := N_of_ascii c in ((n =? 32) || (n =? 9) || (n =? 10) || (n =? 13))%N.

Fixpoint skip (s : string) : string :=
  match s with
  | EmptyString => EmptyString
  | String c s' => if isSpace c then skip s' else s
  end.

Definition hexValue (c : ascii) : option N :=
  let n := N_of_ascii c in
  if ((48 <=? n) && (n <=? 57))%N then Some (n - 48)%N
  else if ((65 <=? n) && (n <=? 70))%N then Some (n - 55)%N
  else if ((97 <=? n) && (n <=? 102))%N then Some (n - 87)%N
  else None.

Definition hex4 (a b c d : ascii) : option N :=
  match hexValue a, hexValue b, hexValue c, hexValue d with
  | Some x, Some y, Some z, Some w => Some (((x * 16 + y) * 16 + z) * 16 + w)%N
  | _, _, _, _ => None
  end.

Definition simpleEscape (c : ascii) : option ascii :=
  if Ascii.eqb c quote then Some quote
  else if Ascii.eqb c backslash then Some backslash
  else if Ascii.eqb c "/" then Some "/"%char
  else if Ascii.eqb c "b" then Some "008"%char
  else if Ascii.eqb c "f" then Some "012"%char
  else if Ascii.eqb c "n" then Some "010"%char
  else if Ascii.eqb c "r" then Some "013"%char
  else if Ascii.eqb c "t" then Some "009"%char
  else None.

Definition cons_to (c : ascii) (r : option (string * string)) : option (string * string) :=
  match r with
  | Some (cs, rest) => Some (String c cs, rest)
  | None => None
  end.

(** The characters of a string after its opening quote, and what follows
    the closing quote. *)
Fixpoint parseChars (s : string) : option (string * string) :=
  match s with
  | EmptyString => None
  | String c r =>
      if Ascii.eqb c quote then Some (EmptyString, r)
      else if Ascii.eqb c backslash then
        match r with
        | String e r' =>
            if Ascii.eqb e "u" then
              match r' with
              | String h1 (String h2 (String h3 (String h4 r''))) =>
                  match hex4 h1 h2 h3 h4 with
                  | Some n =>
                      if (n <? 256)%N then cons_to (ascii_of_N n) (parseChars r'')
                      else None
                  | None => None
                  end
              | _ => None
              end
            else
              match simpleEscape e with
              | Some x => cons_to x (parseChars r')
              | None => None
              end
        | EmptyString => None
        end
      else if (N_of_ascii c <? 32)%N then None
      else cons_to c (parseChars r)
  end.

Fixpoint dropDigits (s : string) : string :=
  match s with
  | EmptyString => EmptyString
  | String c s' => if JsString.isDigit c then dropDigits s' else s
  end.

(** [digit+]: the digits and the rest. *)
Definition digits1 (s : string) : option (string * string) :=
  match JsString.digitRun s with
  | EmptyString => None
  | ds => Some (ds, dropDigits s)
  end.

Definition parseInteger (s : string) : option (string * string) :=
  match s with
  | String "0" r => Some ("0", r)
  | _ => digits1 s
  end.

Definition parseFraction (s : string) : option (string * string) :=
  match s with
  | String "." r =>
      match digits1 r with
      | Some (ds, rest) => Some (String "." ds, rest)
      | None => None
      end
  | _ => Some (EmptyString, s)
  end.

Definition parseExponent (s : string) : option (string * string) :=
  match s with
  | String e r =>
      if Ascii.eqb e "e" || Ascii.eqb e "E" then
        let '(sign, r1) :=
          match r with
          | String "+" r' => ("+", r')
          | String "-" r' => ("-", r')
          | _ => (EmptyString, r)
          end in
        match digits1 r1 with
        | Some (ds, rest) => Some (String e (sign ++ ds), rest)
        | None => None
        end
      else Some (EmptyString, s)
  | EmptyString => Some (EmptyString, s)
  end.

Definition parseNumber (s : string) : option (string * string) :=
  let '(sign, s1) :=
    match s with
    | String "-" r => ("-", r)
    | _ => (EmptyString, s)
    end in
  match parseInteger s1 with
  | None => None
  | Some (i, s2) =>
      match parseFraction s2 with
      | None => None
      | Some (f, s3) =>
          match parseExponent s3 with
          | None => None
          | Some (e, s4) => Some (sign ++ i ++ f ++ e, s4)
          end
      end
  end.

Definition parseLiteral (s : string) : option (value * string) :=
  match JsString.literal "true" s with
  | Some r => Some (JBool true, r)
  | None =>
      match JsString.literal "false" s with
      | Some r => Some (JBool false, r)
      | None =>
          match JsString.literal "null" s with
          | Some r => Some (JNull, r)
          | None =>
              match parseNumber s with
              | Some (n, r) => Some (JNumber n, r)
              | None => None
              end
          end
      end
  end.

Fixpoint parseValue (fuel : nat) (s : string) : option (value * string) :=
  match fuel with
  | O => None
  | S fuel' =>
      match skip s with
      | EmptyString => None
      | String c r =>
          if Ascii.eqb c "{" then
            match skip r with
            | String "}" r' => Some (JObject [], r')
            | _ =>
                match parseMembers fuel' r with
                | Some (ms, r') => Some (JObject ms, r')
                | None => None
                end
            end
          else if Ascii.eqb c "[" then
            match skip r with
            | String "]" r' => Some (JArray [], r')
            | _ =>
                match parseElements fuel' r with
                | Some (vs, r') => Some (JArray vs, r')
                | None => None
                end
            end
          else if Ascii.eqb c quote then
            match parseChars r with
            | Some (cs, r') => Some (JString cs, r')
            | None => None
            end
          else parseLiteral (String c r)
      end
  end

with parseMembers (fuel : nat) (s : string) : option (list (string * value) * string) :=
  match fuel with
  | O => None
  | S fuel' =>
      match skip s with
      | String c r =>
          if Ascii.eqb c quote then
            match parseChars r with
            | None => None
            | Some (key, r1) =>
                match skip r1 with
                | String ":" r2 =>
                    match parseValue fuel' r2 with
                    | None => None
                    | Some (v, r3) =>
                        match skip r3 with
                        | String "," r4 =>
                            match parseMembers fuel' r4 with
                            | Some (ms, r5) => Some ((key, v) :: ms, r5)
                            | None => None
                            end
                        | String "}" r4 => Some ([(key, v)], r4)
                        | _ => None
                        end
                    end
                | _ => None
                end
            end
          else None
      | EmptyString => None
      end
  end

with parseElements (fuel : nat) (s : string) : option (list value * string) :=
  match fuel with
  | O => None
  | S fuel' =>
      match parseValue fuel' s with
      | None => None
      | Some (v, r1) =>
          match skip r1 with
          | String "," r2 =>
              match parseElements fuel' r2 with
              | Some (vs, r3) => Some (v :: vs, r3)
              | None => None
              end
          | String "]" r2 => Some ([v], r2)
          | _ => None
          end
      end
  end.

(** The whole text is one value between optional white space; [None] is a
    [SyntaxError]. *)
Definition parse (text : string) : option value :=
  match parseValue (S (String.length text)) text with
  | Some (v, rest) =>
      match skip rest with
      | EmptyString => Some v
      | String _ _ => None
      end
  | None => None
  end.

(** [{"k1":"v1", ...}] written out, for concrete response texts. *)
Definition quoted (s : string) : string :=
  String quote (s ++ String quote EmptyString).

End Json.

(** ** The HAP objects the platform works on *)

(** What a characteristic holds, and what [determineValueForAction]
    returns: [null], a boolean or a Number. *)
Inductive CharacteristicValue : Type :=
| Null
| Boolean (b : bool)
| Num (n : JsString.Number).

Module Characteristic.

Record t : Type := { UUID : string; value : CharacteristicValue }.

(** The UUIDs HAP gives the two characteristic types the platform uses. *)
Definition On_UUID : string := "00000025-0000-1000-8000-0026BB765291".
Definition TargetTemperature_UUID : string := "00000035-0000-1000-8000-0026BB765291".

End Characteristic.

Module Service.

(** The class a service object is an instance of. *)
Inductive class : Type :=
| Lightbulb
| Switch
| Thermostat
| Fan
| Outlet
| Other (UUID : string).

Record t : Type := {
  classOf : class;
  displayName : string;
  characteristics : list Characteristic.t
}.

Definition class_eqb (a b : class) : bool :=
  match a, b with
  | Lightbulb, Lightbulb | Switch, Switch | Thermostat, Thermostat
  | Fan, Fan | Outlet, Outlet => true
  | Other u, Other v => String.eqb u v
  | _, _ => false
  end.

(** [service instanceof cls]. *)
Definition instanceof (service : t) (cls : class) : bool :=
  class_eqb (classOf service) cls.

(** The UUID of a service type: the static [UUID] of the class, which its
    constructor gives every instance; a service of another class, or a
    plain [Service], carries the UUID it was made with. *)
Definition UUID_of (cls : class) : string :=
  match cls with
  | Lightbulb => "00000043-0000-1000-8000-0026BB765291"
  | Switch => "00000049-0000-1000-8000-0026BB765291"
  | Thermostat => "0000004A-0000-1000-8000-0026BB765291"
  | Fan => "00000040-0000-1000-8000-0026BB765291"
  | Outlet => "00000047-0000-1000-8000-0026BB765291"
  | Other u => u
  end.

(** [service.UUID]. *)
Definition UUID (service : t) : string := UUID_of (classOf service).

End Service.

Module PlatformAccessory.

Record t : Type := {
  displayName : string;
  services : list Service.t
}.

End PlatformAccessory.

(** ** Errors, events and the state of the platform *)

(** What the code throws: an [Error] with its message, a [TypeError] of the
    engine (calling a method on a value that has none), or what the
    completion client rejects with. *)
Inductive Exn : Type :=
| Error (message : string)
| TypeError
| Rejected (status : option N) (message : string).

Inductive Result (A : Type) : Type :=
| Ok (a : A)
| Throw (e : Exn).
Arguments Ok {A} a.
Arguments Throw {A} e.

(** The request [processCommand] sends to the completion service. *)
Record CompletionRequest : Type := {
  model : string;
  prompt : string;
  max_tokens : N;
  temperature : N;
  stop : list string
}.

(** What the completion client answers: it rejects, or it resolves to a
    response whose [data?.choices?.[0]?.text] is a string or is missing. *)
Inductive Completion : Type :=
| Rejects (e : Exn)
| Resolves (text : option string).

(** An argument of a log call or a hole of a template literal. *)
Inductive Part : Type :=
| Text (s : string)
| Any (v : Json.any)
| Val (v : CharacteristicValue)
| MessageOf (e : Exn).

Inductive Level : Type := Info | LogError.

Inductive Event : Type :=
| Log (level : Level) (parts : list Part)
| CreateCompletion (request : CompletionRequest)
| GetCharacteristic (service : string) (UUID : string)
| SetValue (UUID : string) (v : CharacteristicValue).

Record HttpResponse : Type := { status : N; body : string }.

(** The platform object: the accessories array (objects are addressed by
    their position in it), the inventory text the AI service embeds in its
    prompt ([JSON.stringify(this.devicesInfo, null, 2)]) and the trace. *)
Record Platform : Type := {
  accessories : list PlatformAccessory.t;
  devicesInfo : string;
  trace : list Event
}.

(** Computations on the platform that may throw. *)
Definition M (A : Type) : Type := Platform -> Result A * Platform.

Definition ret {A : Type} (a : A) : M A := fun p => (Ok a, p).

Definition throw {A : Type} (e : Exn) : M A := fun p => (Throw e, p).

Definition bind {A B : Type} (m : M A) (k : A -> M B) : M B :=
  fun p =>
    match m p with
    | (Ok a, p') => k a p'
    | (Throw e, p') => (Throw e, p')
    end.

Notation "x <- m ;; k" := (bind m (fun x => k))
  (at level 61, m at next level, right associativity).
Notation "m ;;; k" := (bind m (fun _ => k))
  (at level 61, right associativity).

(** [try { body } catch (error) { handler }]. *)
Definition tryCatch {A : Type} (body : M A) (handler : Exn -> M A) : M A :=
  fun p =>
    match body p with
    | (Ok a, p') => (Ok a, p')
    | (Throw e, p') => handler e p'
    end.

Definition lift {A : Type} (r : Result A) : M A := fun p => (r, p).

Definition emit (e : Event) : M unit :=
  fun p => (Ok tt, {| accessories := accessories p;
                      devicesInfo := devicesInfo p;
                      trace := (trace p ++ [e])%list |}).

Definition getAccessories : M (list PlatformAccessory.t) :=
  fun p => (Ok (accessories p), p).

Definition setAccessories (l : list PlatformAccessory.t) : M unit :=
  fun p => (Ok tt, {| accessories := l; devicesInfo := devicesInfo p; trace := trace p |}).

(** [array.find(callback)] with a callback that may throw: the position and
    the element of the first hit. The position stands for the identity of
    the object found. *)
Fixpoint findFrom {A : Type} (i : nat) (f : A -> Result bool) (l : list A)
  : Result (option (nat * A)) :=
  match l with
  | [] => Ok None
  | x :: l' =>
      match f x with
      | Throw e => Throw e
      | Ok true => Ok (Some (i, x))
      | Ok false => findFrom (S i) f l'
      end
  end.

Definition find {A : Type} (f : A -> Result bool) (l : list A) : Result (option (nat * A)) :=
  findFrom 0 f l.

(** [l[i] = f(l[i])]: the object at position [i] is changed in place. *)
Fixpoint updateAt {A : Type} (i : nat) (f : A -> A) (l : list A) : list A :=
  match l, i with
  | [], _ => []
  | x :: l', O => f x :: l'
  | x :: l', S i' => x :: updateAt i' f l'
  end.

(** [v.toLowerCase()] on a value of any type. *)
Definition toLowerCase (v : Json.any) : Result string :=
  match v with
  | Json.Value (Json.JString s) => Ok (JsString.toLowerCase s)
  | _ => Throw TypeError
  end.

(** [`${v}`]: the conversion of a hole of a template literal to a string.
    [undefined] has one. *)
Definition ToString (v : Json.any) : Result unit :=
  match v with
  | Json.Undefined => Ok tt
  | Json.Value x => if Json.toStringThrows x then Throw TypeError else Ok tt
  end.

(** ** The AI service of [aiService.ts], which reaches the API through axios *)

Module AxiosAIService.

(** The request [processCommand] posts. [temperature] is the literal of
    the source, [stop] is [null]. *)
Record Request : Type := {
  url : string;
  prompt : string;
  max_tokens : N;
  temperature : string;
  n : N;
  stop : option (list string);
  contentType : string;
  authorization : string
}.

(** What can be thrown inside the [try]: an axios error, with the status
    and the status text of its response when it has one; an [Error]
    object; anything else. *)
Inductive Thrown : Type :=
| AxiosError (response : option (N * string))
| ErrorObject (message : string)
| NotAnError.

Inductive Outcome (A : Type) : Type :=
| Returns (a : A)
| Throws (e : Thrown).
Arguments Returns {A} a.
Arguments Throws {A} e.

(** What [axios.post] does: it resolves to a response with this [data],
    or it throws. *)
Inductive Post : Type :=
| Responds (data : Json.any)
| Fails (e : Thrown).

(** [typeof v === 'object']: [null], arrays and objects. *)
Definition typeofObject (v : Json.any) : bool :=
  match v with
  | Json.Value Json.JNull | Json.Value (Json.JArray _) | Json.Value (Json.JObject _) => true
  | _ => false
  end.

Definition isNull (v : Json.any) : bool :=
  match v with
  | Json.Value Json.JNull => true
  | _ => false
  end.

(** ['choices' in v], for a value that is an object, an array or [null]
    excluded before. *)
Definition hasChoices (v : Json.any) : bool :=
  match v with
  | Json.Value (Json.JObject members) =>
      match Json.lookup "choices" members with
      | Some _ => true
      | None => false
      end
  | _ => false
  end.

(** [v.key] on any value but [undefined] and [null]. *)
Definition property (v : Json.any) (key : string) : Json.any :=
  match v with
  | Json.Value x => Json.getProperty x key
  | Json.Undefined => Json.Undefined
  end.

Definition isArray (v : Json.any) : bool :=
  match v with
  | Json.Value (Json.JArray _) => true
  | _ => false
  end.

(** [v[0]] of an array. *)
Definition first (v : Json.any) : Json.any :=
  match v with
  | Json.Value (Json.JArray (x :: _)) => Json.Value x
  | _ => Json.Undefined
  end.

(** [v.length > 0] of an array. *)
Definition nonEmpty (v : Json.any) : bool :=
  match v with
  | Json.Value (Json.JArray (_ :: _)) => true
  | _ => false
  end.

Definition typeofString (v : Json.any) : bool :=
  match v with
  | Json.Value (Json.JString _) => true
  | _ => false
  end.

(** The decimal digits of a status code. *)
Definition numberToString (status : N) : string :=
  NilEmpty.string_of_uint (N.to_uint status).

Section Service.

(** The message of the [TypeError] the engine throws when a property of
    [null] is read. *)
Variable typeErrorMessage : string.

(** [axios.post]. *)
Variable post : Request -> Post.

(** [isValidOpenAIResponse]: the conjunction, left to right; reading
    [.text] of a first choice that is [null] throws. *)
Definition isValidOpenAIResponse (data : Json.any) : Outcome bool :=
  if typeofObject data then
    if negb (isNull data) then
      if hasChoices data then
        if isArray (property data "choices") then
          if nonEmpty (property data "choices") then
            match first (property data "choices") with
            | Json.Value Json.JNull => Throws (ErrorObject typeErrorMessage)
            | choice => Returns (typeofString (property choice "text"))
            end
          else Returns false
        else Returns false
      else Returns false
    else Returns false
  else Returns false.

(** [data.choices[0].text.trim()], once the data is known to be valid. *)
Definition firstText (data : Json.any) : string :=
  match property (first (property data "choices")) "text" with
  | Json.Value (Json.JString text) => JsString.trim text
  | _ => EmptyString
  end.

Definition request (apiKey command : string) : Request :=
  {| url := "https://api.openai.com/v1/engines/davinci/completions";
     prompt := command;
     max_tokens := 60;
     temperature := "0.5";
     n := 1;
     stop := None;
     contentType := "application/json";
     authorization := "Bearer " ++ apiKey |}.

(** The body of the [try] of [processCommand]. *)
Definition attempt (apiKey command : string) : Outcome string :=
  match post (request apiKey command) with
  | Fails e => Throws e
  | Responds data =>
      match isValidOpenAIResponse data with
      | Throws e => Throws e
      | Returns true => Returns (firstText data)
      | Returns false => Throws (ErrorObject "Invalid response structure from OpenAI API.")
      end
  end.

(** The [catch] of [processCommand]. *)
Definition rethrow (error : Thrown) : Thrown :=
  match error with
  | AxiosError response =>
      let status := option_map fst response in
      let statusText := option_map snd response in
      ErrorObject ("OpenAI API request failed: "
                   ++ match status with
                      | Some code => numberToString code
                      | None => "Unknown Status"
                      end
                   ++ " "
                   ++ match statusText with
                      | Some text => text
                      | None => EmptyString
                      end)
  | ErrorObject message => ErrorObject ("An unexpected error occurred: " ++ message)
  | NotAnError => ErrorObject "An unknown error occurred."
  end.

Definition processCommand (apiKey command : string) : Outcome string :=
  match attempt apiKey command with
  | Returns text => Returns text
  | Throws error => Throws (rethrow error)
  end.

Definition handleResponse (response : Json.any) : Outcome string :=
  match isValidOpenAIResponse response with
  | Throws e => Throws e
  | Returns true => Returns (firstText response)
  | Returns false => Throws (ErrorObject "Invalid response structure received.")
  end.

Definition handleCommand (apiKey command : string) : Outcome string :=
  match processCommand apiKey command with
  | Returns processedCommand => Returns processedCommand
  | Throws e => Throws e
  end.

End Service.

End AxiosAIService.

(** ** [controlDevice] of the platform of [platform.ts] *)

Module LegacyPlatform.

(** The methods of the logger. *)
Inductive Method : Type := debug | info | warn | error.

Inductive Event : Type :=
| Log (method : Method) (message : string)
| UpdateCharacteristic (service : string) (UUID : string) (v : CharacteristicValue).

Record t : Type := {
  accessories : list PlatformAccessory.t;
  trace : list Event
}.

Definition log (method : Method) (message : string) (p : t) : t :=
  {| accessories := accessories p; trace := (trace p ++ [Log method message])%list |}.

(** [array.find(callback)]: the position and the element of the first
    hit. *)
Fixpoint findFirst {A : Type} (i : nat) (f : A -> bool) (l : list A) : option (nat * A) :=
  match l with
  | [] => None
  | x :: l' => if f x then Some (i, x) else findFirst (S i) f l'
  end.

(** HAP's [accessory.getService(cls)]: the first service that is an
    instance of the class or carries the UUID of the class. *)
Definition getService (cls : Service.class) (accessory : PlatformAccessory.t)
  : option (nat * Service.t) :=
  findFirst 0
    (fun s => Service.instanceof s cls || String.eqb (Service.UUID_of cls) (Service.UUID s))
    (PlatformAccessory.services accessory).

Section Platform.

Variable validateUserInput : Characteristic.t -> CharacteristicValue -> CharacteristicValue.
Variable defaultValue : string -> CharacteristicValue.

(** The characteristics of a service after HAP's
    [service.updateCharacteristic(type, value)]: the characteristic of the
    type, added when the service has none, holds what the validation makes
    of the value. *)
Definition updateCharacteristic (uuid : string) (v : CharacteristicValue)
  (cs : list Characteristic.t) : list Characteristic.t :=
  match findFirst 0 (fun c => String.eqb (Characteristic.UUID c) uuid) cs with
  | Some (k, c) =>
      updateAt k (fun _ => {| Characteristic.UUID := uuid;
                              Characteristic.value := validateUserInput c v |}) cs
  | None =>
      let c := {| Characteristic.UUID := uuid; Characteristic.value := defaultValue uuid |} in
      (cs ++ [{| Characteristic.UUID := uuid;
                 Characteristic.value := validateUserInput c v |}])%list
  end.

Definition inService (j : nat) (f : list Characteristic.t -> list Characteristic.t)
  (a : PlatformAccessory.t) : PlatformAccessory.t :=
  {| PlatformAccessory.displayName := PlatformAccessory.displayName a;
     PlatformAccessory.services :=
       updateAt j (fun s => {| Service.classOf := Service.classOf s;
                               Service.displayName := Service.displayName s;
                               Service.characteristics := f (Service.characteristics s) |})
                (PlatformAccessory.services a) |}.

Definition controlDevice (deviceName : string) (state : bool) (p : t) : t :=
  match findFirst 0
          (fun acc => String.eqb (JsString.toLowerCase (PlatformAccessory.displayName acc))
                                 (JsString.toLowerCase deviceName))
          (accessories p) with
  | Some (i, accessory) =>
      match getService Service.Lightbulb accessory with
      | Some (j, service) =>
          log info ("Set " ++ Json.quoted deviceName ++ " to "
                    ++ (if state then "ON" else "OFF") ++ ".")
              {| accessories :=
                   updateAt i (inService j (updateCharacteristic Characteristic.On_UUID
                                              (Boolean state)))
                            (accessories p);
                 trace := (trace p ++ [UpdateCharacteristic (Service.displayName service)
                                         Characteristic.On_UUID (Boolean state)])%list |}
      | None => log warn ("Service for " ++ Json.quoted deviceName ++ " not found.") p
      end
  | None => log warn ("Accessory " ++ Json.quoted deviceName ++ " not found.") p
  end.

End Platform.

End LegacyPlatform.

(** ** An inventory and an environment to evaluate the code on *)

Module Fixture.

(** A [validateUserInput] that accepts every value as it is. *)
Definition storeAsGiven (c : Characteristic.t) (v : CharacteristicValue)
  : CharacteristicValue := v.

Definition noDefault (uuid : string) : CharacteristicValue := Null.

(** A completion service that answers every request with [text]. *)
Definition answers (text : string) (request : CompletionRequest) : Completion :=
  Resolves (Some text).

(** The text [{"action": a, "device": d}]. *)
Definition intentText (a d : string) : string :=
  "{" ++ Json.quoted "action" ++ ": " ++ Json.quoted a ++ ", "
      ++ Json.quoted "device" ++ ": " ++ Json.quoted d ++ "}".

(** The text [{"action": a}]. *)
Definition actionOnlyText (a : string) : string :=
  "{" ++ Json.quoted "action" ++ ": " ++ Json.quoted a ++ "}".

Definition power : Characteristic.t :=
  {| Characteristic.UUID := Characteristic.On_UUID;
     Characteristic.value := Boolean false |}.

Definition targetTemperature : Characteristic.t :=
  {| Characteristic.UUID := Characteristic.TargetTemperature_UUID;
     Characteristic.value := Num (JsString.Integer 20) |}.

Definition information : Service.t :=
  {| Service.classOf := Service.Other "0000003E-0000-1000-8000-0026BB765291";
     Service.displayName := "";
     Service.characteristics := [] |}.

Definition light : Service.t :=
  {| Service.classOf := Service.Lightbulb;
     Service.displayName := "Living Room Light";
     Service.characteristics := [power] |}.

Definition heating : Service.t :=
  {| Service.classOf := Service.Thermostat;
     Service.displayName := "Heating";
     Service.characteristics := [targetTemperature] |}.

Definition lamp : PlatformAccessory.t :=
  {| PlatformAccessory.displayName := "Living Room Light";
     PlatformAccessory.services := [information; light] |}.

Definition hallway : PlatformAccessory.t :=
  {| PlatformAccessory.displayName := "Hallway";
     PlatformAccessory.services := [information; heating] |}.

(** A second accessory of the name of [lamp], in another case. *)
Definition lampAgain : PlatformAccessory.t :=
  {| PlatformAccessory.displayName := "LIVING ROOM LIGHT";
     PlatformAccessory.services := [] |}.

Definition inventory : list PlatformAccessory.t := [hallway; lamp].

(** A thermostat service that has no characteristic yet, and its
    accessory. *)
Definition bare : Service.t :=
  {| Service.classOf := Service.Thermostat;
     Service.displayName := "Den";
     Service.characteristics := [] |}.

Definition den : PlatformAccessory.t :=
  {| PlatformAccessory.displayName := "Den";
     PlatformAccessory.services := [information; bare] |}.

(** A plain [Service] made with the UUID of the Lightbulb type, and its
    accessory. *)
Definition plain : Service.t :=
  {| Service.classOf := Service.Other (Service.UUID_of Service.Lightbulb);
     Service.displayName := "Desk Lamp";
     Service.characteristics := [] |}.

Definition desk : PlatformAccessory.t :=
  {| PlatformAccessory.displayName := "Desk";
     PlatformAccessory.services := [information; plain] |}.

(** A run of [n] nines. *)
Fixpoint nines (n : nat) : string :=
  match n with
  | O => EmptyString
  | S n' => String "9" (nines n')
  end.

Definition platform : Platform :=
  {| accessories := inventory; devicesInfo := "[]"; trace := [] |}.

End Fixture.

(** ** The AI service and the platform *)

Definition newline : string := String "010"%char EmptyString.

Section Platform.

(** [JSON.parse]: [None] when it throws a [SyntaxError]. *)
Variable JSON_parse : string -> option Json.value.

(** [openai.createCompletion]: the answer of the remote service to a
    request. *)
Variable createCompletion : CompletionRequest -> Completion.

(** HAP's validation of a value handed to [Characteristic.setValue]: the
    value the characteristic then holds. *)
Variable validateUserInput : Characteristic.t -> CharacteristicValue -> CharacteristicValue.

(** The value of a characteristic HAP creates, by its type. *)
Variable defaultValue : string -> CharacteristicValue.

(** *** [AIService.processCommand] *)

Definition buildPrompt (devices command : string) : string :=
  String.concat newline
    [ "";
      "You are an AI assistant for a smart home system. The user has the following devices:";
      "";
      devices;
      "";
      "Your task is to interpret user commands given in everyday language and output a JSON object with two properties: "
        ++ Json.quoted "action" ++ " and " ++ Json.quoted "device" ++ ".";
      "";
      "Instructions:";
      "";
      "- " ++ Json.quoted "action" ++ ": The intended action, such as " ++ Json.quoted "turn on"
        ++ ", " ++ Json.quoted "turn off" ++ ", " ++ Json.quoted "set temperature to" ++ ", etc.";
      "- " ++ Json.quoted "device" ++ ": The name of the device or appliance the user wants to control.";
      "- Use the device information provided to understand what the user is referring to.";
      "";
      "Please interpret the following command and output only the JSON object without any additional text:";
      "";
      Json.quoted command;
      "" ].

Definition completionRequest (devices command : string) : CompletionRequest :=
  {| model := "text-davinci-003";
     prompt := buildPrompt devices command;
     max_tokens := 150;
     temperature := 0;
     stop := [newline ++ newline] |}.

(** Lines 43-53: the text of the response is trimmed and parsed. *)
Definition readResponse (text : option string) : Result Json.value :=
  match option_map JsString.trim text with
  | None => Throw (Error "No response from AI")
  | Some result =>
      if negb (JsString.truthy result) then Throw (Error "No response from AI")
      else
        match JSON_parse result with
        | Some v => Ok v
        | None => Throw (Error ("Failed to parse AI response: " ++ result))
        end
  end.

Definition processCommand (command : string) : M Json.value :=
  fun p =>
    let request := completionRequest (devicesInfo p) command in
    (emit (CreateCompletion request) ;;;
     match createCompletion request with
     | Rejects e => throw e
     | Resolves text => lift (readResponse text)
     end) p.

(** *** [HomebridgeAIPlatform] *)

(** [configureAccessory]: the accessory is pushed at the end of the
    array. *)
Definition configureAccessory (accessory : PlatformAccessory.t) : M unit :=
  emit (Log Info [Text "Loading accessory from cache:";
                  Any (Json.str (PlatformAccessory.displayName accessory))]) ;;;
  accs <- getAccessories ;;
  setAccessories (accs ++ [accessory])%list.

(** [displayName.toLowerCase() === name.toLowerCase()], left to right. *)
Definition sameNameIgnoringCase (displayName : string) (name : Json.any) : Result bool :=
  let lhs := JsString.toLowerCase displayName in
  match toLowerCase name with
  | Ok rhs => Ok (String.eqb lhs rhs)
  | Throw e => Throw e
  end.

Definition findAccessoryByName (name : Json.any) (accessories : list PlatformAccessory.t)
  : Result (option (nat * PlatformAccessory.t)) :=
  find (fun acc => sameNameIgnoringCase (PlatformAccessory.displayName acc) name) accessories.

(** [accessory.services.find(s => s.displayName.toLowerCase() === device.toLowerCase())]. *)
Definition findService (device : Json.any) (accessory : PlatformAccessory.t)
  : Result (option (nat * Service.t)) :=
  find (fun s => sameNameIgnoringCase (Service.displayName s) device)
       (PlatformAccessory.services accessory).

Definition updateServices (f : list Service.t -> list Service.t) (a : PlatformAccessory.t)
  : PlatformAccessory.t :=
  {| PlatformAccessory.displayName := PlatformAccessory.displayName a;
     PlatformAccessory.services := f (PlatformAccessory.services a) |}.

Definition updateCharacteristics (f : list Characteristic.t -> list Characteristic.t)
  (s : Service.t) : Service.t :=
  {| Service.classOf := Service.classOf s;
     Service.displayName := Service.displayName s;
     Service.characteristics := f (Service.characteristics s) |}.

(** The characteristics of service [j] of accessory [i] are changed in
    place. *)
Definition modifyCharacteristics (i j : nat)
  (f : list Characteristic.t -> list Characteristic.t) : M unit :=
  accs <- getAccessories ;;
  setAccessories (updateAt i (updateServices (updateAt j (updateCharacteristics f))) accs).

Fixpoint lookupCharacteristic (uuid : string) (k : nat) (cs : list Characteristic.t)
  : option (nat * Characteristic.t) :=
  match cs with
  | [] => None
  | c :: cs' =>
      if String.eqb (Characteristic.UUID c) uuid then Some (k, c)
      else lookupCharacteristic uuid (S k) cs'
  end.

(** HAP's [service.getCharacteristic(type)]: the characteristic of that
    type, added to the service when it has none. *)
Definition getCharacteristic (i j : nat) (service : Service.t) (uuid : string)
  : M (nat * Characteristic.t) :=
  emit (GetCharacteristic (Service.displayName service) uuid) ;;;
  match lookupCharacteristic uuid 0 (Service.characteristics service) with
  | Some r => ret r
  | None =>
      let c := {| Characteristic.UUID := uuid; Characteristic.value := defaultValue uuid |} in
      modifyCharacteristics i j (fun cs => (cs ++ [c])%list) ;;;
      ret (List.length (Service.characteristics service), c)
  end.

(** HAP's [characteristic.setValue(value)]; the characteristic as it is
    afterwards. *)
Definition setValue (i j k : nat) (characteristic : Characteristic.t) (v : CharacteristicValue)
  : M Characteristic.t :=
  let c' := {| Characteristic.UUID := Characteristic.UUID characteristic;
               Characteristic.value := validateUserInput characteristic v |} in
  emit (SetValue (Characteristic.UUID characteristic) v) ;;;
  modifyCharacteristics i j (updateAt k (fun _ => c')) ;;;
  ret c'.

(** The UUID of the characteristic [getCharacteristicForService] asks
    the service for, by the class of the service. *)
Definition characteristicTypeFor (service : Service.t) : option string :=
  if Service.instanceof service Service.Lightbulb || Service.instanceof service Service.Switch
  then Some Characteristic.On_UUID
  else if Service.instanceof service Service.Thermostat
  then Some Characteristic.TargetTemperature_UUID
  else if Service.instanceof service Service.Fan
  then Some Characteristic.On_UUID
  else if Service.instanceof service Service.Outlet
  then Some Characteristic.On_UUID
  else None.

Definition getCharacteristicForService (i j : nat) (service : Service.t)
  : M (option (nat * Characteristic.t)) :=
  match characteristicTypeFor service with
  | Some uuid => c <- getCharacteristic i j service uuid ;; ret (Some c)
  | None => ret None
  end.

Definition determineValueForAction (action : Json.any) (characteristic : Characteristic.t)
  : Result CharacteristicValue :=
  match toLowerCase action with
  | Throw e => Throw e
  | Ok actionLower =>
      let onBlock :=
        if String.eqb (Characteristic.UUID characteristic) Characteristic.On_UUID then
          if JsString.includes actionLower "turn on" || JsString.includes actionLower "switch on"
          then Some (Boolean true)
          else if JsString.includes actionLower "turn off" || JsString.includes actionLower "switch off"
          then Some (Boolean false)
          else None
        else None in
      match onBlock with
      | Some v => Ok v
      | None =>
          let temperatureBlock :=
            if String.eqb (Characteristic.UUID characteristic) Characteristic.TargetTemperature_UUID then
              match JsString.matchSetTemperature actionLower with
              | Some group1 =>
                  if JsString.truthy group1 then Some (Num (JsString.parseInt group1)) else None
              | None => None
              end
            else None in
          match temperatureBlock with
          | Some v => Ok v
          | None => Ok Null
          end
      end
  end.

(** [const { action, device } = actionData]. *)
Definition destructure (actionData : Json.value) : Result (Json.any * Json.any) :=
  match actionData with
  | Json.JNull => Throw TypeError
  | _ => Ok (Json.getProperty actionData "action", Json.getProperty actionData "device")
  end.

Definition isNull (v : CharacteristicValue) : bool :=
  match v with Null => true | _ => false end.

(** Lines 148-160: the value is derived and, unless it is [null], set. *)
Definition applyAction (i j k : nat) (characteristic : Characteristic.t)
  (action device : Json.any) : M unit :=
  value <- lift (determineValueForAction action characteristic) ;;
  if negb (isNull value) then
    characteristic' <- setValue i j k characteristic value ;;
    let currentValue := Characteristic.value characteristic' in
    emit (Log Info [Text "The "; Any device; Text " is now set to "; Val currentValue])
  else
    emit (Log LogError [Text "Could not determine value for action:"; Any action]).

(** Lines 144-163: what is done with the service that was selected. *)
Definition controlService (i j : nat) (service : Service.t)
  (action device : Json.any) : M unit :=
  characteristic <- getCharacteristicForService i j service ;;
  match characteristic with
  | Some (k, characteristic) => applyAction i j k characteristic action device
  | None =>
      emit (Log LogError [Text "Characteristic not found for service:";
                          Any (Json.str (Service.displayName service))])
  end.

(** Lines 134-166: what is done with the accessory that was found. The
    template literal of the first log line converts the action, then the
    device, to a string. *)
Definition controlAccessory (i : nat) (accessory : PlatformAccessory.t)
  (action device : Json.any) : M unit :=
  lift (ToString action) ;;;
  lift (ToString device) ;;;
  emit (Log Info [Text "Executing '"; Any action; Text "' on '"; Any device; Text "'"]) ;;;
  service <- lift (findService device accessory) ;;
  match service with
  | Some (j, service) => controlService i j service action device
  | None => emit (Log LogError [Text "Service not found on accessory:"; Any device])
  end.

Definition executeAction (actionData : Json.value) : M unit :=
  fields <- lift (destructure actionData) ;;
  let '(action, device) := fields in
  accs <- getAccessories ;;
  accessory <- lift (findAccessoryByName device accs) ;;
  match accessory with
  | Some (i, accessory) => controlAccessory i accessory action device
  | None => emit (Log LogError [Text "Accessory not found:"; Any device])
  end.

Definition handleUserCommand (command : string) : M unit :=
  tryCatch
    (actionData <- processCommand command ;;
     executeAction actionData)
    (fun error => emit (Log LogError [Text "Error processing command:"; MessageOf error])).

(** The handler of [POST /command] in [startHttpServer], for a body
    [{command: string}]. *)
Definition postCommand (command : string) : M HttpResponse :=
  emit (Log Info [Text "Received command:"; Any (Json.str command)]) ;;;
  tryCatch
    (handleUserCommand command ;;;
     ret {| status := 200; body := "Command executed successfully." |})
    (fun error =>
       emit (Log LogError [Text "Error executing command:"; MessageOf error]) ;;;
       ret {| status := 500; body := "Error executing command." |}).

(** The object [{action: a, device: d}]. *)
Definition intent (action device : string) : Json.value :=
  Json.JObject [("action", Json.JString action); ("device", Json.JString device)].

(** Where a lookup found its entry, if it found one. *)
Definition position {A : Type} (r : Result (option (nat * A))) : option nat :=
  match r with
  | Ok (Some (i, _)) => Some i
  | _ => None
  end.

(** The names of the inventory, in the order of the array. *)
Definition namesOf (accessories : list PlatformAccessory.t) : list string :=
  map PlatformAccessory.displayName accessories.

(** ** Notions the properties are stated with *)

(** [t] occurs in [s]. *)
Definition occursIn (t s : string) : Prop := exists a b, s = a ++ t ++ b.

(** Every unit of [s] satisfies [P]. *)
Fixpoint allUnits (P : ascii -> bool) (s : string) : bool :=
  match s with
  | EmptyString => true
  | String c s' => P c && allUnits P s'
  end.

Definition notLineTerminator (c : ascii) : bool := negb (JsString.isLineTerminator c).

(** A run of units that [.*] can take. *)
Definition dotRun (s : string) : Prop := allUnits notLineTerminator s = true.

(** A non-empty run of decimal digits. *)
Definition digitString (g : string) : Prop :=
  g <> EmptyString /\ allUnits JsString.isDigit g = true.

(** [s] has a match of [set.*temperature.*to (\d+)] whose group 1 is [g]. *)
Definition matchesPattern (s g : string) : Prop :=
  exists pre a b rest,
    s = pre ++ "set" ++ a ++ "temperature" ++ b ++ "to " ++ g ++ rest
    /\ dotRun a /\ dotRun b /\ digitString g.

(** Two units that are the same letter, in whatever case: they are equal,
    or one is an upper-case letter and the other the unit 32 above it. *)
Definition sameLetter (a b : ascii) : Prop :=
  a = b
  \/ (JsString.isUpper a = true /\ N_of_ascii b = (N_of_ascii a + 32)%N)
  \/ (JsString.isUpper b = true /\ N_of_ascii a = (N_of_ascii b + 32)%N).

(** Two strings that are equal up to letter case. *)
Inductive equalIgnoringCase : string -> string -> Prop :=
| eic_empty : equalIgnoringCase EmptyString EmptyString
| eic_unit a b s t :
    sameLetter a b -> equalIgnoringCase s t ->
    equalIgnoringCase (String a s) (String b t).

(** Every unit of the alphabet. *)
Definition allAscii : list ascii := map ascii_of_nat (seq 0 256).

(** [sameLetter], decided. *)
Definition sameLetterb (a b : ascii) : bool :=
  Ascii.eqb a b
  || (JsString.isUpper a && (N_of_ascii b =? N_of_ascii a + 32)%N)
  || (JsString.isUpper b && (N_of_ascii a =? N_of_ascii b + 32)%N).

(** A computation that leaves the names of the inventory, and their
    order, as they are. *)
Definition keepsNames {A : Type} (m : M A) : Prop :=
  forall p r p', m p = (r, p') -> namesOf (accessories p') = namesOf (accessories p).

(** ** The effect of a dispatch on the inventory, as functions *)

(** The characteristic as [setValue] leaves it. *)
Definition characteristicAfterSet (c : Characteristic.t) (v : CharacteristicValue)
  : Characteristic.t :=
  {| Characteristic.UUID := Characteristic.UUID c;
     Characteristic.value := validateUserInput c v |}.

(** The characteristic [getCharacteristic] adds to a service that has none
    of the type. *)
Definition newCharacteristic (uuid : string) : Characteristic.t :=
  {| Characteristic.UUID := uuid; Characteristic.value := defaultValue uuid |}.

(** The characteristics of a service once [controlService] has run on it
    with [action]. *)
Definition characteristicsAfterDispatch (service : Service.t) (action : Json.any)
  : list Characteristic.t :=
  let cs := Service.characteristics service in
  match characteristicTypeFor service with
  | None => cs
  | Some uuid =>
      match lookupCharacteristic uuid 0 cs with
      | Some (k, c) =>
          match determineValueForAction action c with
          | Ok v =>
              if negb (isNull v) then updateAt k (fun _ => characteristicAfterSet c v) cs
              else cs
          | Throw _ => cs
          end
      | None =>
          let c := newCharacteristic uuid in
          match determineValueForAction action c with
          | Ok v =>
              if negb (isNull v)
              then updateAt (List.length cs) (fun _ => characteristicAfterSet c v) (cs ++ [c])%list
              else (cs ++ [c])%list
          | Throw _ => (cs ++ [c])%list
          end
      end
  end.

Definition serviceAfterDispatch (service : Service.t) (action : Json.any) : Service.t :=
  updateCharacteristics (fun _ => characteristicsAfterDispatch service action) service.

(** The accessories once [executeAction] has run on an intent with these
    fields. *)
Definition accessoriesAfterDispatch (accessories : list PlatformAccessory.t)
  (action device : Json.any) : list PlatformAccessory.t :=
  match findAccessoryByName device accessories with
  | Ok (Some (i, accessory)) =>
      match ToString action, ToString device, findService device accessory with
      | Ok _, Ok _, Ok (Some (j, service)) =>
          updateAt i (updateServices (updateAt j (fun _ => serviceAfterDispatch service action)))
                   accessories
      | _, _, _ => accessories
      end
  | _ => accessories
  end.

(** [l'] is [l] with elements added at its end. *)
Definition extends {A : Type} (l l' : list A) : Prop := exists t, l' = (l ++ t)%list.

(** Two services of one name and class, the second with the
    characteristics of the first, in their order, and possibly more. *)
Definition sameServiceShape (s s' : Service.t) : Prop :=
  Service.displayName s' = Service.displayName s
  /\ Service.classOf s' = Service.classOf s
  /\ extends (map Characteristic.UUID (Service.characteristics s))
             (map Characteristic.UUID (Service.characteristics s')).

Definition sameAccessoryShape (a a' : PlatformAccessory.t) : Prop :=
  PlatformAccessory.displayName a' = PlatformAccessory.displayName a
  /\ Forall2 sameServiceShape (PlatformAccessory.services a) (PlatformAccessory.services a').

(** [AIService.updateDevicesInfo]. *)
Definition updateDevicesInfo (devices : string) : M unit :=
  fun p => (Ok tt, {| accessories := accessories p; devicesInfo := devices; trace := trace p |}).

(** A computation that leaves the inventory text of the AI service as it
    is. *)
Definition keepsDevicesInfo {A : Type} (m : M A) : Prop :=
  forall p, devicesInfo (snd (m p)) = devicesInfo p.

(** [s] does not begin with a digit. *)
Definition noLeadingDigit (s : string) : Prop :=
  match s with
  | EmptyString => True
  | String c _ => JsString.isDigit c = false
  end.

(** A string of white space only. *)
Definition whiteSpace (s : string) : Prop := allUnits JsString.isWhiteSpace s = true.

(** [g] writes the integer [z] in decimal: [g] is read as a numeral of
    the Standard Library, zeros at its head included. *)
Definition writes (g : string) (z : Z) : Prop :=
  exists u, NilEmpty.uint_of_string g = Some u /\ z = Z.of_uint u.

(** No place of [rest], up to the end of its line, has "to " followed by
    a digit. *)
Definition noLaterNumber (rest : string) : Prop :=
  forall x d y, rest = x ++ "to " ++ String d y -> dotRun x -> JsString.isDigit d = false.

(** No match of the pattern in [s] begins before the position [n]. *)
Definition noEarlierMatch (n : nat) (s : string) : Prop :=
  forall pre a b g rest,
    s = pre ++ "set" ++ a ++ "temperature" ++ b ++ "to " ++ g ++ rest ->
    dotRun a -> dotRun b -> digitString g -> n <= String.length pre.

(** The match of [set.*temperature.*to (\d+)] that is read from [s]: it
    begins at the first position where one begins, its group [g] follows
    the last "to " of the line that is followed by a digit, and [g] is the
    whole run of digits there. *)
Definition readMatch (s pre a b g rest : string) : Prop :=
  s = pre ++ "set" ++ a ++ "temperature" ++ b ++ "to " ++ g ++ rest
  /\ dotRun a /\ dotRun b /\ digitString g
  /\ noEarlierMatch (String.length pre) s
  /\ noLeadingDigit rest
  /\ noLaterNumber rest.

(** ** Properties of the string operations *)

Lemma append_assoc (a b c : string) : (a ++ b) ++ c = a ++ (b ++ c).
Proof. induction a as [|x a IH]; simpl; [reflexivity| now rewrite IH]. Qed.

Lemma append_empty_r (s : string) : s ++ "" = s.
Proof. induction s as [|x s IH]; simpl; [reflexivity| now rewrite IH]. Qed.

Lemma startsWith_spec (s t : string) :
  JsString.startsWith s t = true <-> exists b, s = t ++ b.
Proof.
  revert s; induction t as [|x t IH]; intros s; simpl.
  - split; [intros _; now exists s | intros _; now destruct s].
  - destruct s as [|y s]; simpl.
    + split; [discriminate | intros [b H]; discriminate].
    + rewrite andb_true_iff, Ascii.eqb_eq, IH. split.
      * intros [-> [b ->]]. now exists b.
      * intros [b H]. injection H as -> ->. split; [reflexivity | now exists b].
Qed.

Lemma includes_spec (s t : string) :
  JsString.includes s t = true <-> occursIn t s.
Proof.
  unfold occursIn. induction s as [|c s IH]; cbn [JsString.includes].
  - rewrite orb_false_r, startsWith_spec. split.
    + intros [b H]. exists EmptyString, b. exact H.
    + intros [a [b H]]. destruct a; [now exists b | discriminate].
  - rewrite orb_true_iff, startsWith_spec, IH. split.
    + intros [[b H] | [a [b H]]].
      * exists EmptyString, b. exact H.
      * exists (String c a), b. simpl. now rewrite H.
    + intros [a [b H]]. destruct a as [|x a]; simpl in H.
      * left. now exists b.
      * right. injection H as _ H. now exists a, b.
Qed.

(** *** Letter case *)

Lemma allAscii_complete (c : ascii) : In c allAscii.
Proof.
  rewrite <- (ascii_nat_embedding c). apply in_map, in_seq.
  pose proof (nat_ascii_bounded c). lia.
Qed.

Lemma sameLetterb_spec (a b : ascii) : sameLetterb a b = true <-> sameLetter a b.
Proof.
  unfold sameLetterb, sameLetter.
  rewrite !orb_true_iff, !andb_true_iff, !N.eqb_eq, Ascii.eqb_eq. tauto.
Qed.

Lemma toLowerCaseUnit_table :
  forallb (fun a =>
    forallb (fun b =>
      Bool.eqb (Ascii.eqb (JsString.toLowerCaseUnit a) (JsString.toLowerCaseUnit b))
               (sameLetterb a b)) allAscii) allAscii = true.
Proof. vm_compute. reflexivity. Qed.

Lemma toLowerCaseUnit_sameLetter (a b : ascii) :
  JsString.toLowerCaseUnit a = JsString.toLowerCaseUnit b <-> sameLetter a b.
Proof.
  pose proof toLowerCaseUnit_table as T.
  rewrite forallb_forall in T. specialize (T a (allAscii_complete a)).
  rewrite forallb_forall in T. specialize (T b (allAscii_complete b)).
  apply Bool.eqb_prop in T.
  rewrite <- sameLetterb_spec, <- T. symmetry. apply Ascii.eqb_eq.
Qed.

Lemma toLowerCase_equalIgnoringCase (s t : string) :
  JsString.toLowerCase s = JsString.toLowerCase t <-> equalIgnoringCase s t.
Proof.
  split.
  - revert t. induction s as [|a s IH]; intros [|b t] H; simpl in H; try discriminate.
    + constructor.
    + injection H as H1 H2. constructor.
      * now apply toLowerCaseUnit_sameLetter.
      * now apply IH.
  - induction 1 as [|a b s t L _ IH]; simpl.
    + reflexivity.
    + apply toLowerCaseUnit_sameLetter in L. now rewrite L, IH.
Qed.

Lemma equalIgnoringCase_refl (s : string) : equalIgnoringCase s s.
Proof. now apply toLowerCase_equalIgnoringCase. Qed.

Lemma equalIgnoringCase_sym (s t : string) :
  equalIgnoringCase s t -> equalIgnoringCase t s.
Proof. rewrite <- !toLowerCase_equalIgnoringCase. congruence. Qed.

Lemma toLowerCase_append (a b : string) :
  JsString.toLowerCase (a ++ b) = JsString.toLowerCase a ++ JsString.toLowerCase b.
Proof. induction a as [|x a IH]; simpl; [reflexivity | now rewrite IH]. Qed.

Lemma occursIn_toLowerCase (t s : string) :
  occursIn t s -> occursIn (JsString.toLowerCase t) (JsString.toLowerCase s).
Proof.
  intros (a & b & ->). exists (JsString.toLowerCase a), (JsString.toLowerCase b).
  now rewrite !toLowerCase_append.
Qed.

(** The comparison of [findAccessoryByName] and of [findService], for a
    name that is a string. *)
Lemma sameNameIgnoringCase_string (displayName name : string) :
  sameNameIgnoringCase displayName (Json.str name)
  = Ok (String.eqb (JsString.toLowerCase displayName) (JsString.toLowerCase name)).
Proof. reflexivity. Qed.

Lemma sameNameIgnoringCase_true (displayName name : string) :
  sameNameIgnoringCase displayName (Json.str name) = Ok true
  <-> equalIgnoringCase name displayName.
Proof.
  rewrite sameNameIgnoringCase_string, <- toLowerCase_equalIgnoringCase. split.
  - intros H. injection H as H. apply String.eqb_eq in H. congruence.
  - intros H. rewrite H, String.eqb_refl. reflexivity.
Qed.

Lemma sameNameIgnoringCase_false (displayName name : string) :
  sameNameIgnoringCase displayName (Json.str name) = Ok false
  <-> ~ equalIgnoringCase name displayName.
Proof.
  rewrite <- sameNameIgnoringCase_true, sameNameIgnoringCase_string.
  destruct (String.eqb _ _); split; congruence.
Qed.

(** *** [find] *)

Lemma findFrom_first {A : Type} (f : A -> Result bool) (before : list A) (x : A)
  (after : list A) (i : nat) :
  f x = Ok true ->
  (forall y, In y before -> f y = Ok false) ->
  findFrom i f (before ++ x :: after) = Ok (Some (i + List.length before, x)).
Proof.
  revert i. induction before as [|y before IH]; intros i Hx Hb; simpl.
  - rewrite Hx. now rewrite Nat.add_0_r.
  - rewrite (Hb y (or_introl eq_refl)).
    rewrite IH; [| assumption | intros z Hz; apply Hb; now right].
    do 3 f_equal. lia.
Qed.

Lemma findFrom_none {A : Type} (f : A -> Result bool) (l : list A) (i : nat) :
  (forall y, In y l -> f y = Ok false) ->
  findFrom i f l = Ok None.
Proof.
  revert i. induction l as [|y l IH]; intros i H; simpl.
  - reflexivity.
  - rewrite (H y (or_introl eq_refl)). apply IH. intros z Hz. apply H. now right.
Qed.

Lemma findFrom_some {A : Type} (f : A -> Result bool) (l : list A) (i j : nat) (x : A) :
  findFrom i f l = Ok (Some (j, x)) ->
  exists before after,
    l = (before ++ x :: after)%list /\ j = i + List.length before
    /\ f x = Ok true /\ forall y, In y before -> f y = Ok false.
Proof.
  revert i. induction l as [|y l IH]; intros i H; simpl in H.
  - discriminate.
  - destruct (f y) as [[|]|e] eqn:E; try discriminate.
    + injection H as <- <-. exists [], l. simpl.
      split; [reflexivity | split; [lia | split; [assumption | tauto]]].
    + destruct (IH _ H) as (before & after & -> & -> & Hx & Hb).
      exists (y :: before), after. simpl.
      split; [reflexivity | split; [lia | split; [assumption |]]].
      intros z [<- | Hz]; auto.
Qed.

Lemma findFrom_none_inv {A : Type} (f : A -> Result bool) (l : list A) (i : nat) :
  findFrom i f l = Ok None -> forall y, In y l -> f y = Ok false.
Proof.
  revert i. induction l as [|y l IH]; intros i H z Hz; simpl in *.
  - contradiction.
  - destruct (f y) as [[|]|e] eqn:E; try discriminate.
    destruct Hz as [<- | Hz]; [assumption | eauto].
Qed.

Lemma equalIgnoringCase_trans (s t u : string) :
  equalIgnoringCase s t -> equalIgnoringCase t u -> equalIgnoringCase s u.
Proof. rewrite <- !toLowerCase_equalIgnoringCase. congruence. Qed.

Lemma findFrom_pure {A : Type} (f : A -> Result bool) (l : list A) (i : nat) :
  (forall y, exists b, f y = Ok b) -> exists r, findFrom i f l = Ok r.
Proof.
  intros P. revert i. induction l as [|y l IH]; intros i; simpl.
  - now exists None.
  - destruct (P y) as [[|] ->]; [now eexists | apply IH].
Qed.

Lemma nth_error_middle {A : Type} (before : list A) (x : A) (after : list A) :
  nth_error (before ++ x :: after) (List.length before) = Some x.
Proof. rewrite nth_error_app2, Nat.sub_diag by lia. reflexivity. Qed.

(** ** The device inventory *)

(** C7. [findAccessoryByName] matches names exactly, up to letter case:
    for a name that equals, up to case, the name of an entry of the
    inventory, it returns an entry of that name, which is that very
    entry when the names of the inventory are unique up to case; for a
    name that equals no name of the inventory up to case it returns
    [undefined]; and whatever it returns has the name asked for, up to
    case. *)
Theorem findAccessoryByName_case_insensitive_exact
  (accessories : list PlatformAccessory.t) (name : string) :
  (forall i d,
      nth_error accessories i = Some d ->
      equalIgnoringCase name (PlatformAccessory.displayName d) ->
      exists j e,
        findAccessoryByName (Json.str name) accessories = Ok (Some (j, e))
        /\ nth_error accessories j = Some e
        /\ equalIgnoringCase name (PlatformAccessory.displayName e)
        /\ ((forall i1 i2 a b,
                nth_error accessories i1 = Some a ->
                nth_error accessories i2 = Some b ->
                equalIgnoringCase (PlatformAccessory.displayName a)
                                  (PlatformAccessory.displayName b) ->
                i1 = i2) ->
            j = i /\ e = d))
  /\ ((forall d, In d accessories ->
                 ~ equalIgnoringCase name (PlatformAccessory.displayName d)) ->
      findAccessoryByName (Json.str name) accessories = Ok None)
  /\ (forall j e,
         findAccessoryByName (Json.str name) accessories = Ok (Some (j, e)) ->
         nth_error accessories j = Some e
         /\ equalIgnoringCase name (PlatformAccessory.displayName e)).
Proof.
  assert (Inv : forall j e,
             findAccessoryByName (Json.str name) accessories = Ok (Some (j, e)) ->
             nth_error accessories j = Some e
             /\ equalIgnoringCase name (PlatformAccessory.displayName e)).
  { intros j e H. apply findFrom_some in H.
    destruct H as (before & after & -> & -> & Hx & _). split.
    - apply nth_error_middle.
    - now apply sameNameIgnoringCase_true. }
  split; [| split; [| exact Inv]].
  - intros i d Hi Hd.
    destruct (findFrom_pure
                (fun acc => sameNameIgnoringCase (PlatformAccessory.displayName acc)
                                                 (Json.str name))
                accessories 0) as [r Hr].
    { intros y. rewrite sameNameIgnoringCase_string. now eexists. }
    destruct r as [[j e]|].
    + exists j, e. destruct (Inv j e Hr) as [Hj He].
      split; [exact Hr | split; [exact Hj | split; [exact He |]]].
      intros U. assert (j = i) as ->.
      { apply (U j i e d Hj Hi).
        eapply equalIgnoringCase_trans; [apply equalIgnoringCase_sym, He | exact Hd]. }
      split; [reflexivity | congruence].
    + exfalso. apply findFrom_none_inv with (y := d) in Hr.
      * apply sameNameIgnoringCase_false in Hr. contradiction.
      * eapply nth_error_In; eassumption.
  - intros H. apply findFrom_none. intros y Hy.
    apply sameNameIgnoringCase_false. now apply H.
Qed.

(** *** The regular expression *)

Lemma literal_spec (l s r : string) : JsString.literal l s = Some r <-> s = l ++ r.
Proof.
  revert s. induction l as [|x l IH]; intros s; simpl.
  - split; [now intros [= ->] | now intros ->].
  - destruct s as [|y s]; [split; discriminate |].
    destruct (Ascii.eqb_spec x y) as [<- | N].
    + rewrite IH. split; [now intros -> | now intros [= ->]].
    + split; [discriminate | intros [= E _]; congruence].
Qed.

Lemma dotStar_sound {A : Type} (k : string -> option A) (s : string) (r : A) :
  JsString.dotStar k s = Some r ->
  exists a s', s = a ++ s' /\ dotRun a /\ k s' = Some r.
Proof.
  induction s as [|c s IH]; simpl; intros H.
  - now exists EmptyString, EmptyString.
  - destruct (JsString.isLineTerminator c) eqn:LT.
    + now exists EmptyString, (String c s).
    + destruct (JsString.dotStar k s) as [r0|] eqn:D.
      * injection H as ->. destruct (IH eq_refl) as (a & s' & -> & Ha & Hk).
        exists (String c a), s'. repeat split; auto.
        unfold dotRun, notLineTerminator in *. simpl. now rewrite LT.
      * now exists EmptyString, (String c s).
Qed.

Lemma dotStar_here {A : Type} (k : string -> option A) (s : string) :
  k s <> None -> JsString.dotStar k s <> None.
Proof.
  destruct s as [|c s]; simpl; [easy |].
  destruct (JsString.isLineTerminator c); [easy |].
  destruct (JsString.dotStar k s); [discriminate | easy].
Qed.

Lemma dotStar_complete {A : Type} (k : string -> option A) (a s' : string) :
  dotRun a -> k s' <> None -> JsString.dotStar k (a ++ s') <> None.
Proof.
  unfold dotRun, notLineTerminator.
  induction a as [|c a IH]; simpl; intros Ha Hk.
  - now apply dotStar_here.
  - apply andb_true_iff in Ha as [Hc Ha]. apply negb_true_iff in Hc. rewrite Hc.
    specialize (IH Ha Hk). destruct (JsString.dotStar k (a ++ s')); [discriminate | easy].
Qed.

Lemma digitRun_spec (s : string) :
  allUnits JsString.isDigit (JsString.digitRun s) = true
  /\ exists rest, s = JsString.digitRun s ++ rest.
Proof.
  induction s as [|c s [IH1 [rest IH2]]]; simpl.
  - split; [reflexivity | now exists EmptyString].
  - destruct (JsString.isDigit c) eqn:D; simpl.
    + rewrite D, IH1. split; [reflexivity |]. exists rest. now rewrite <- IH2.
    + split; [reflexivity | now eexists].
Qed.

Lemma digitRun_append (g rest : string) :
  allUnits JsString.isDigit g = true ->
  JsString.digitRun (g ++ rest) = g ++ JsString.digitRun rest.
Proof.
  induction g as [|c g IH]; simpl; intros H; [reflexivity |].
  apply andb_true_iff in H as [Hc Hg]. now rewrite Hc, IH.
Qed.

Lemma digitRun_digitString (g : string) :
  allUnits JsString.isDigit g = true -> JsString.digitRun g = g.
Proof.
  intros H. rewrite <- (append_empty_r g) at 1.
  rewrite digitRun_append by assumption. apply append_empty_r.
Qed.

Lemma digitsPlus_sound (s g : string) :
  JsString.digitsPlus s = Some g -> digitString g /\ exists rest, s = g ++ rest.
Proof.
  unfold JsString.digitsPlus, digitString. intros H.
  destruct (digitRun_spec s) as [D R].
  destruct (JsString.digitRun s) as [|c r] eqn:E; [discriminate |].
  injection H as <-. split; [split; [discriminate | exact D] | exact R].
Qed.

Lemma digitsPlus_complete (g rest : string) :
  digitString g -> JsString.digitsPlus (g ++ rest) <> None.
Proof.
  intros [N D]. unfold JsString.digitsPlus. rewrite digitRun_append by assumption.
  destruct g as [|c g]; [contradiction | simpl; discriminate].
Qed.

Lemma matchHere_sound (s g : string) :
  JsString.matchHere s = Some g ->
  exists a b rest,
    s = "set" ++ a ++ "temperature" ++ b ++ "to " ++ g ++ rest
    /\ dotRun a /\ dotRun b /\ digitString g.
Proof.
  unfold JsString.matchHere. intros H.
  destruct (JsString.literal "set" s) as [s1|] eqn:L1; [| discriminate].
  apply literal_spec in L1. subst s.
  apply dotStar_sound in H. destruct H as (a & s2 & -> & Ha & H).
  destruct (JsString.literal "temperature" s2) as [s3|] eqn:L2; [| discriminate].
  apply literal_spec in L2. subst s2.
  apply dotStar_sound in H. destruct H as (b & s4 & -> & Hb & H).
  destruct (JsString.literal "to " s4) as [s5|] eqn:L3; [| discriminate].
  apply literal_spec in L3. subst s4.
  apply digitsPlus_sound in H. destruct H as (Hg & rest & ->).
  exists a, b, rest. repeat split; try assumption; apply Hg.
Qed.

Lemma matchHere_complete (a b g rest : string) :
  dotRun a -> dotRun b -> digitString g ->
  JsString.matchHere ("set" ++ a ++ "temperature" ++ b ++ "to " ++ g ++ rest) <> None.
Proof.
  intros Ha Hb Hg. unfold JsString.matchHere.
  rewrite (proj2 (literal_spec "set" _ _) eq_refl).
  apply dotStar_complete; [assumption |].
  rewrite (proj2 (literal_spec "temperature" _ _) eq_refl).
  apply dotStar_complete; [assumption |].
  rewrite (proj2 (literal_spec "to " _ _) eq_refl).
  now apply digitsPlus_complete.
Qed.

Lemma matchSetTemperature_sound (s g : string) :
  JsString.matchSetTemperature s = Some g -> matchesPattern s g.
Proof.
  unfold matchesPattern.
  induction s as [|c s IH]; cbn [JsString.matchSetTemperature]; intros H.
  - destruct (JsString.matchHere "") eqn:E; [| discriminate].
    injection H as ->. apply matchHere_sound in E.
    destruct E as (a & b & rest & E & P). now exists EmptyString, a, b, rest.
  - destruct (JsString.matchHere (String c s)) eqn:E.
    + injection H as ->. apply matchHere_sound in E.
      destruct E as (a & b & rest & E & P). now exists EmptyString, a, b, rest.
    + destruct (IH H) as (pre & a & b & rest & -> & P).
      now exists (String c pre), a, b, rest.
Qed.

Lemma matchSetTemperature_complete (s g : string) :
  matchesPattern s g -> JsString.matchSetTemperature s <> None.
Proof.
  intros (pre & a & b & rest & -> & Ha & Hb & Hg).
  induction pre as [|c pre IH].
  - pose proof (matchHere_complete a b g rest Ha Hb Hg) as M.
    change ("" ++ ?x) with x.
    destruct ("set" ++ a ++ "temperature" ++ b ++ "to " ++ g ++ rest) eqn:E;
      cbn [JsString.matchSetTemperature];
      destruct (JsString.matchHere _); try discriminate; contradiction.
  - change (String c pre ++ ?x) with (String c (pre ++ x)).
    cbn [JsString.matchSetTemperature].
    destruct (JsString.matchHere _); [discriminate | exact IH].
Qed.

Lemma digitRun_rest (s : string) :
  exists rest, s = JsString.digitRun s ++ rest /\ noLeadingDigit rest.
Proof.
  induction s as [|c s (rest & E & N)]; cbn [JsString.digitRun].
  - now exists EmptyString.
  - destruct (JsString.isDigit c) eqn:D.
    + exists rest. split; [simpl; now rewrite <- E | exact N].
    + exists (String c s). split; [reflexivity | exact D].
Qed.

Lemma string_length_append (a b : string) :
  String.length (a ++ b) = String.length a + String.length b.
Proof. induction a as [|x a IH]; simpl; [reflexivity | now rewrite IH]. Qed.

Lemma dotRun_append (a b : string) : dotRun a -> dotRun b -> dotRun (a ++ b).
Proof.
  unfold dotRun. induction a as [|x a IH]; simpl; intros A B; [assumption |].
  apply andb_true_iff in A as [Ax A]. now rewrite Ax, IH.
Qed.

Lemma digit_not_terminator_table :
  forallb (fun c => implb (JsString.isDigit c) (notLineTerminator c)) allAscii = true.
Proof. vm_compute. reflexivity. Qed.

Lemma dotRun_digits (g : string) : allUnits JsString.isDigit g = true -> dotRun g.
Proof.
  unfold dotRun. induction g as [|c g IH]; simpl; intros D; [reflexivity |].
  apply andb_true_iff in D as [Dc D]. rewrite (IH D), andb_true_r.
  pose proof digit_not_terminator_table as T. rewrite forallb_forall in T.
  specialize (T c (allAscii_complete c)). now rewrite Dc in T.
Qed.

(** [.*] is greedy: no longer run of units leads to a match. *)
Lemma dotStar_longest {A : Type} (k : string -> option A) (s : string) (r : A) :
  JsString.dotStar k s = Some r ->
  exists a s',
    s = a ++ s' /\ dotRun a /\ k s' = Some r
    /\ forall a2 s2, s = a2 ++ s2 -> dotRun a2 ->
                     String.length a < String.length a2 -> k s2 = None.
Proof.
  induction s as [|c s IH]; cbn [JsString.dotStar]; intros H.
  - exists EmptyString, EmptyString. repeat split; auto.
    intros [|x a2] s2 E _ L; [simpl in L; lia | discriminate].
  - destruct (JsString.isLineTerminator c) eqn:LT.
    + exists EmptyString, (String c s). repeat split; auto.
      intros [|x a2] s2 E D L; [simpl in L; lia |].
      injection E as <- _. unfold dotRun, notLineTerminator in D. simpl in D.
      rewrite LT in D. discriminate.
    + destruct (JsString.dotStar k s) as [r0|] eqn:D.
      * injection H as ->. destruct (IH eq_refl) as (a & s' & -> & Ha & Hk & Max).
        exists (String c a), s'. repeat split; auto.
        -- unfold dotRun, notLineTerminator in *. simpl. now rewrite LT.
        -- intros [|x a2] s2 E D2 L; [simpl in L; lia |].
           injection E as <- E. apply (Max a2 s2 E).
           ++ unfold dotRun in *. simpl in D2. now apply andb_true_iff in D2 as [_ D2].
           ++ simpl in L. lia.
      * exists EmptyString, (String c s). repeat split; auto.
        intros [|x a2] s2 E D2 L; [simpl in L; lia |].
        injection E as <- E. subst s.
        destruct (k s2) eqn:K; [| reflexivity]. exfalso.
        apply (dotStar_complete k a2 s2); [| congruence | exact D].
        unfold dotRun in *. simpl in D2. now apply andb_true_iff in D2 as [_ D2].
Qed.

Lemma matchHere_last (s g : string) :
  JsString.matchHere s = Some g ->
  exists a b rest,
    s = "set" ++ a ++ "temperature" ++ b ++ "to " ++ g ++ rest
    /\ dotRun a /\ dotRun b /\ digitString g /\ noLeadingDigit rest
    /\ forall x c y, rest = x ++ "to " ++ String c y -> dotRun x ->
                     JsString.isDigit c = false.
Proof.
  unfold JsString.matchHere. intros H.
  destruct (JsString.literal "set" s) as [s1|] eqn:L1; [| discriminate].
  apply literal_spec in L1. subst s.
  apply dotStar_sound in H. destruct H as (a & s2 & -> & Ha & H).
  destruct (JsString.literal "temperature" s2) as [s3|] eqn:L2; [| discriminate].
  apply literal_spec in L2. subst s2.
  apply dotStar_longest in H. destruct H as (b & s4 & -> & Hb & H & Max).
  destruct (JsString.literal "to " s4) as [s5|] eqn:L3; [| discriminate].
  apply literal_spec in L3. subst s4.
  unfold JsString.digitsPlus in H.
  destruct (digitRun_rest s5) as (rest & E & NL).
  destruct (digitRun_spec s5) as [D _].
  destruct (JsString.digitRun s5) as [|d ds] eqn:R; [discriminate |].
  injection H as <-. subst s5.
  exists a, b, rest. repeat split; try assumption; try discriminate.
  intros x c y -> Dx.
  specialize (Max (b ++ "to " ++ String d ds ++ x) ("to " ++ String c y)).
  rewrite (proj2 (literal_spec "to " _ _) eq_refl) in Max.
  unfold JsString.digitsPlus in Max. cbn [JsString.digitRun] in Max.
  destruct (JsString.isDigit c); [| reflexivity]. exfalso.
  assert (Some (String c (JsString.digitRun y)) = None); [| discriminate].
  apply Max.
  - now rewrite !append_assoc.
  - apply dotRun_append; [assumption |].
    apply (dotRun_append "to "); [reflexivity |].
    apply dotRun_append; [now apply dotRun_digits | assumption].
  - rewrite string_length_append. simpl. lia.
Qed.

(** *** [parseInt] on a run of digits *)

Lemma digit_table :
  forallb (fun c =>
    implb (JsString.isDigit c)
          (negb (JsString.isWhiteSpace c) && negb (Ascii.eqb c "-") && negb (Ascii.eqb c "+")))
    allAscii = true.
Proof. vm_compute. reflexivity. Qed.

Lemma digit_plain (c : ascii) :
  JsString.isDigit c = true ->
  JsString.isWhiteSpace c = false /\ Ascii.eqb c "-" = false /\ Ascii.eqb c "+" = false.
Proof.
  intros D. pose proof digit_table as T. rewrite forallb_forall in T.
  specialize (T c (allAscii_complete c)). rewrite D in T. simpl in T.
  apply andb_true_iff in T as [T T3]. apply andb_true_iff in T as [T1 T2].
  now rewrite !negb_true_iff in *.
Qed.

Lemma parseInt_digitString (g : string) :
  digitString g ->
  JsString.parseInt g = JsString.numberOfInteger false (JsString.decimal g).
Proof.
  intros [N D]. destruct g as [|c g]; [contradiction |].
  pose proof D as D'. simpl in D'. apply andb_true_iff in D' as [Dc _].
  destruct (digit_plain c Dc) as (W & M & P).
  unfold JsString.parseInt. cbn [JsString.trimStart]. rewrite W, M, P.
  rewrite (digitRun_digitString _ D). reflexivity.
Qed.

(** ** Value derivation *)

Lemma UUIDs_differ :
  String.eqb Characteristic.TargetTemperature_UUID Characteristic.On_UUID = false.
Proof. reflexivity. Qed.

Lemma includes_false (s t : string) :
  JsString.includes s t = false <-> ~ occursIn t s.
Proof.
  rewrite <- includes_spec. destruct (JsString.includes s t); split; congruence.
Qed.

Lemma occursIn_either (t u s : string) :
  JsString.includes s t || JsString.includes s u = true
  <-> occursIn t s \/ occursIn u s.
Proof. now rewrite orb_true_iff, !includes_spec. Qed.

(** The value for the power-state characteristic, as one expression. *)
Lemma determineValueForAction_power (action : string) (characteristic : Characteristic.t) :
  Characteristic.UUID characteristic = Characteristic.On_UUID ->
  let actionLower := JsString.toLowerCase action in
  determineValueForAction (Json.str action) characteristic
  = Ok (if JsString.includes actionLower "turn on" || JsString.includes actionLower "switch on"
        then Boolean true
        else if JsString.includes actionLower "turn off"
                || JsString.includes actionLower "switch off"
        then Boolean false
        else Null).
Proof.
  intros U actionLower. unfold determineValueForAction.
  cbn [toLowerCase Json.str]. fold actionLower.
  rewrite U, String.eqb_refl. cbn [String.eqb].
  destruct (_ || _); [reflexivity |]. destruct (_ || _); reflexivity.
Qed.

(** C1. For the power-state characteristic the value is decided by the
    phrases that occur in the lower-cased action, tested in this order:
    "turn on" or "switch on" gives [true] (so does either phrase written
    in any letter case in the action itself); otherwise "turn off" or
    "switch off" gives [false]; otherwise there is no value ([null]), and
    the dispatcher then logs the failure and sets nothing. *)
Theorem power_state_value_from_phrases
  (action : string) (characteristic : Characteristic.t) :
  Characteristic.UUID characteristic = Characteristic.On_UUID ->
  let actionLower := JsString.toLowerCase action in
  let on := occursIn "turn on" actionLower \/ occursIn "switch on" actionLower in
  let off := occursIn "turn off" actionLower \/ occursIn "switch off" actionLower in
  (on -> determineValueForAction (Json.str action) characteristic = Ok (Boolean true))
  /\ (forall phrase,
        equalIgnoringCase phrase "turn on" \/ equalIgnoringCase phrase "switch on" ->
        occursIn phrase action ->
        determineValueForAction (Json.str action) characteristic = Ok (Boolean true))
  /\ (~ on -> off ->
      determineValueForAction (Json.str action) characteristic = Ok (Boolean false))
  /\ (~ on -> ~ off ->
      determineValueForAction (Json.str action) characteristic = Ok Null
      /\ forall i j k device p,
          applyAction i j k characteristic (Json.str action) device p
          = (Ok tt,
             {| accessories := accessories p;
                devicesInfo := devicesInfo p;
                trace := trace p ++ [Log LogError [Text "Could not determine value for action:";
                                                   Any (Json.str action)]] |})).
Proof.
  intros U actionLower on off.
  pose proof (determineValueForAction_power action characteristic U) as V.
  cbv zeta in V. fold actionLower in V.
  pose proof (occursIn_either "turn on" "switch on" actionLower) as On.
  pose proof (occursIn_either "turn off" "switch off" actionLower) as Off.
  fold on in On. fold off in Off.
  assert (T : on -> determineValueForAction (Json.str action) characteristic
                    = Ok (Boolean true)).
  { intros H. apply On in H. now rewrite V, H. }
  split; [exact T | split; [| split]].
  - intros phrase E O. apply T.
    apply occursIn_toLowerCase in O. fold actionLower in O.
    destruct E as [E | E]; apply toLowerCase_equalIgnoringCase in E;
      rewrite E in O; [left | right]; exact O.
  - intros N H. apply Off in H. rewrite V, H.
    destruct (_ || _); [exfalso; apply N, On; reflexivity | reflexivity].
  - intros N1 N2.
    assert (E : determineValueForAction (Json.str action) characteristic = Ok Null).
    { rewrite V. destruct (_ || _); [exfalso; apply N1, On; reflexivity |].
      destruct (_ || _); [exfalso; apply N2, Off; reflexivity | reflexivity]. }
    split; [exact E |]. intros i j k device p.
    unfold applyAction, bind, lift. rewrite E. reflexivity.
Qed.

(** C9. For the power-state characteristic, an action whose lower-cased
    form contains an on-phrase and an off-phrase gives [true]; [false]
    comes out only when no on-phrase occurs anywhere in it. *)
Theorem on_phrases_are_tested_first
  (action : string) (characteristic : Characteristic.t) :
  Characteristic.UUID characteristic = Characteristic.On_UUID ->
  let actionLower := JsString.toLowerCase action in
  ((occursIn "turn on" actionLower \/ occursIn "switch on" actionLower) ->
   (occursIn "turn off" actionLower \/ occursIn "switch off" actionLower) ->
   determineValueForAction (Json.str action) characteristic = Ok (Boolean true))
  /\ (determineValueForAction (Json.str action) characteristic = Ok (Boolean false) ->
      ~ occursIn "turn on" actionLower /\ ~ occursIn "switch on" actionLower
      /\ (occursIn "turn off" actionLower \/ occursIn "switch off" actionLower)).
Proof.
  intros U actionLower.
  pose proof (determineValueForAction_power action characteristic U) as V.
  cbv zeta in V. fold actionLower in V. rewrite V. clear V.
  rewrite <- (occursIn_either "turn on" "switch on"),
          <- (occursIn_either "turn off" "switch off"), <- !includes_false.
  destruct (JsString.includes actionLower "turn on");
    destruct (JsString.includes actionLower "switch on");
    cbn [orb]; split;
    try (intros; reflexivity);
    try (intros H; discriminate H);
    try (intros H _; discriminate H).
  destruct (_ || _); intros H; [auto | discriminate H].
Qed.

(** *** The match that is read, and the integer it writes *)

Lemma append_same_length (a b x y : string) :
  a ++ x = b ++ y -> String.length a = String.length b -> a = b /\ x = y.
Proof.
  revert b. induction a as [|c a IH]; intros [|d b]; simpl; intros E L;
    try discriminate; [now split |].
  injection E as <- E. injection L as L. destruct (IH b E L) as [-> ->]. now split.
Qed.

Lemma append_split (a x b y : string) :
  a ++ x = b ++ y ->
  (exists w, b = a ++ w /\ x = w ++ y) \/ (exists w, a = b ++ w /\ y = w ++ x).
Proof.
  revert b. induction a as [|c a IH]; intros b E.
  - left. exists b. now split.
  - destruct b as [|d b].
    + right. exists (String c a). now split.
    + simpl in E. injection E as <- E. destruct (IH b E) as [(w & -> & ->) | (w & -> & ->)].
      * left. exists w. now split.
      * right. exists w. now split.
Qed.

Lemma dotRun_split (a b : string) : dotRun (a ++ b) -> dotRun a /\ dotRun b.
Proof.
  unfold dotRun. induction a as [|c a IH]; simpl; intros H; [now split |].
  apply andb_true_iff in H as [Hc H]. destruct (IH H) as [Ha Hb]. now rewrite Hc, Ha.
Qed.

Lemma digitRun_none (rest : string) : noLeadingDigit rest -> JsString.digitRun rest = "".
Proof. destruct rest as [|c rest]; simpl; [reflexivity | now intros ->]. Qed.

(** The run of digits at the head of a string is read whole in one way
    only. *)
Lemma whole_run_unique (g rest g1 rest1 : string) :
  g ++ rest = g1 ++ rest1 ->
  allUnits JsString.isDigit g = true -> noLeadingDigit rest ->
  allUnits JsString.isDigit g1 = true -> noLeadingDigit rest1 ->
  g = g1.
Proof.
  intros E D N D1 N1.
  assert (R : JsString.digitRun (g ++ rest) = g)
    by (rewrite digitRun_append, digitRun_none, append_empty_r; auto).
  assert (R1 : JsString.digitRun (g1 ++ rest1) = g1)
    by (rewrite digitRun_append, digitRun_none, append_empty_r; auto).
  congruence.
Qed.

Lemma digits_then_to (g rest w t : string) :
  g ++ rest = w ++ "to " ++ t ->
  allUnits JsString.isDigit g = true -> dotRun w ->
  exists x, rest = x ++ "to " ++ t /\ dotRun x.
Proof.
  revert w. induction g as [|d g IH]; intros w E D W.
  - exists w. now split.
  - simpl in D. apply andb_true_iff in D as [Dd D].
    destruct w as [|c w].
    + simpl in E. injection E as -> _. discriminate Dd.
    + simpl in E. injection E as _ E. apply (IH w E D).
      now apply (dotRun_split (String c "") w).
Qed.

(** A later "to " in what follows "to " and a run of digits lies after
    the digits. *)
Lemma later_to (g rest w t : string) :
  "to " ++ g ++ rest = w ++ "to " ++ t ->
  w <> "" -> allUnits JsString.isDigit g = true -> dotRun w ->
  exists x, rest = x ++ "to " ++ t /\ dotRun x.
Proof.
  intros E N D W.
  destruct w as [|c1 [|c2 [|c3 w]]]; [contradiction | discriminate E | discriminate E |].
  simpl in E. injection E as _ _ _ E.
  apply (digits_then_to g rest w t E D).
  now apply (dotRun_split (String c1 (String c2 (String c3 ""))) w).
Qed.

Lemma readMatch_unique (s pre a b g rest pre1 a1 b1 g1 rest1 : string) :
  readMatch s pre a b g rest -> readMatch s pre1 a1 b1 g1 rest1 -> g = g1.
Proof.
  intros (E & A & B & G & First & Whole & Last) (E1 & A1 & B1 & G1 & First1 & Whole1 & Last1).
  pose proof (First pre1 a1 b1 g1 rest1 E1 A1 B1 G1) as L.
  pose proof (First1 pre a b g rest E A B G) as L1.
  rewrite E in E1. apply append_same_length in E1; [| lia].
  destruct E1 as [_ E1].
  apply (append_same_length "set" "set") in E1; [| reflexivity]. destruct E1 as [_ E1].
  assert (R : forall x y z, x ++ "temperature" ++ y ++ z = (x ++ "temperature" ++ y) ++ z)
    by (intros; now rewrite !append_assoc).
  rewrite !R in E1.
  assert (U : dotRun (a ++ "temperature" ++ b))
    by (apply dotRun_append; [| apply (dotRun_append "temperature")]; auto; reflexivity).
  assert (U1 : dotRun (a1 ++ "temperature" ++ b1))
    by (apply dotRun_append; [| apply (dotRun_append "temperature")]; auto; reflexivity).
  destruct G as [Ng Dg], G1 as [Ng1 Dg1].
  destruct (append_split _ _ _ _ E1) as [(w & Ew & Ex) | (w & Ew & Ex)].
  - destruct w as [|c w].
    + simpl in Ex. injection Ex as Ex. now apply (whole_run_unique g rest g1 rest1).
    + exfalso. rewrite Ew in U1. apply dotRun_split in U1 as [_ W].
      destruct (later_to g rest (String c w) (g1 ++ rest1) Ex) as (x & -> & X); auto;
        [discriminate |].
      destruct g1 as [|d g1]; [contradiction |].
      simpl in Dg1. apply andb_true_iff in Dg1 as [Dd _].
      rewrite (Last x d (g1 ++ rest1) eq_refl X) in Dd. discriminate.
  - destruct w as [|c w].
    + simpl in Ex. injection Ex as Ex. symmetry in Ex.
      now apply (whole_run_unique g rest g1 rest1).
    + exfalso. rewrite Ew in U. apply dotRun_split in U as [_ W].
      destruct (later_to g1 rest1 (String c w) (g ++ rest) Ex) as (x & -> & X); auto;
        [discriminate |].
      destruct g as [|d g]; [contradiction |].
      simpl in Dg. apply andb_true_iff in Dg as [Dd _].
      rewrite (Last1 x d (g ++ rest) eq_refl X) in Dd. discriminate.
Qed.

(** What the matcher returns is the group of the match that is read. *)
Lemma matchSetTemperature_read (s g : string) :
  JsString.matchSetTemperature s = Some g ->
  exists pre a b rest, readMatch s pre a b g rest.
Proof.
  assert (Here : forall s g, JsString.matchHere s = Some g ->
                             exists pre a b rest, readMatch s pre a b g rest).
  { clear. intros s g E. apply matchHere_last in E.
    destruct E as (a & b & rest & E & Pa & Pb & Pg & Pr & Pl).
    exists EmptyString, a, b, rest. unfold readMatch, noEarlierMatch.
    repeat split; try assumption; try apply Pg. intros. simpl. lia. }
  induction s as [|x s IH]; cbn [JsString.matchSetTemperature]; intros M.
  - destruct (JsString.matchHere "") eqn:E; [| discriminate].
    injection M as ->. now apply Here.
  - destruct (JsString.matchHere (String x s)) eqn:E.
    + injection M as ->. now apply Here.
    + destruct (IH M) as (pre & a & b & rest & -> & Pa & Pb & Pg & First & Pr & Pl).
      exists (String x pre), a, b, rest. unfold readMatch.
      repeat split; try assumption; try apply Pg.
      intros [|y pre'] a' b' g' rest' E' A' B' G'.
      * exfalso. rewrite E' in E.
        now apply (matchHere_complete a' b' g' rest' A' B' G').
      * simpl in E'. injection E' as _ E'.
        pose proof (First pre' a' b' g' rest' E' A' B' G'). simpl. lia.
Qed.

Lemma digitValue_nonneg (c : ascii) : JsString.isDigit c = true -> (0 <= JsString.digitValue c)%Z.
Proof.
  unfold JsString.isDigit, JsString.digitValue. cbv zeta. intros H.
  apply andb_true_iff in H as [H _]. apply N.leb_le in H.
  generalize dependent (JsString.unit_of c). intros n H. lia.
Qed.

Lemma decimalFrom_nonneg (ds : string) (acc : Z) :
  (0 <= acc)%Z -> allUnits JsString.isDigit ds = true ->
  (0 <= JsString.decimalFrom acc ds)%Z.
Proof.
  revert acc. induction ds as [|c ds IH]; intros acc A D;
    cbn [JsString.decimalFrom allUnits] in *; [assumption |].
  apply andb_true_iff in D as [Dc D]. apply IH; [| assumption].
  pose proof (digitValue_nonneg c Dc). lia.
Qed.

(** The integer [decimal] reads is the integer the digits write. *)
Lemma decimalFrom_writes (g : string) (u : Decimal.uint) :
  NilEmpty.uint_of_string g = Some u ->
  (forall acc : positive, JsString.decimalFrom (Zpos acc) g = Zpos (Pos.of_uint_acc u acc))
  /\ JsString.decimalFrom 0 g = Z.of_uint u.
Proof.
  revert u. induction g as [|c g IH]; intros u H.
  - injection H as <-. split; reflexivity.
  - cbn [NilEmpty.uint_of_string] in H.
    destruct (NilEmpty.uint_of_string g) as [u'|]; [| discriminate H].
    destruct (IH u' eq_refl) as [IHacc IH0]. clear IH. unfold Z.of_uint in *.
    destruct c as [[] [] [] [] [] [] [] []]; try discriminate H;
      injection H as <-; cbn [JsString.decimalFrom]; (split; [intros acc |]);
      match goal with
      | |- context [JsString.digitValue ?c] =>
          let v := eval vm_compute in (JsString.digitValue c) in
          change (JsString.digitValue c) with v
      end;
      cbn [Pos.of_uint_acc Pos.of_uint Z.of_N];
      rewrite <- ?IHacc, <- ?IH0; f_equal; lia.
Qed.

Lemma decimal_writes (g : string) (z : Z) : writes g z -> JsString.decimal g = z.
Proof. intros (u & U & ->). now apply decimalFrom_writes. Qed.

Lemma digitString_writes (g : string) :
  allUnits JsString.isDigit g = true -> exists z, writes g z.
Proof.
  unfold writes. induction g as [|c g IH]; simpl; intros D.
  - now exists 0%Z, Decimal.Nil.
  - apply andb_true_iff in D as [Dc D]. destruct (IH D) as (z & u & -> & _).
    destruct c as [[] [] [] [] [] [] [] []]; try discriminate Dc; eexists; eexists;
      (split; [reflexivity | reflexivity]).
Qed.

(** *** Numbers below 2^53 *)

Lemma roundToNearest_exact (m : Z) :
  (0 < m < 2 ^ 53)%Z -> JsString.roundToNearest m = m.
Proof.
  intros [P B]. unfold JsString.roundToNearest.
  assert (L : (Z.log2 m < 53)%Z) by (now apply Z.log2_lt_pow2).
  replace (Z.max 0 (Z.log2 m - 52)) with 0%Z by lia.
  rewrite Z.shiftr_0_r, !Z.shiftl_0_r, Z.sub_diag. reflexivity.
Qed.

Lemma numberOfInteger_exact (z : Z) :
  (0 <= z < 2 ^ 53)%Z -> JsString.numberOfInteger false z = JsString.Integer z.
Proof.
  intros [P B]. unfold JsString.numberOfInteger.
  destruct (Z.eqb_spec z 0) as [-> | N]; [reflexivity |].
  cbv zeta. rewrite roundToNearest_exact by lia.
  assert (2 ^ 53 < 2 ^ 1024)%Z by (apply Z.pow_lt_mono_r; lia).
  destruct (Z.ltb_spec z (2 ^ 1024)); [reflexivity | lia].
Qed.

(** *** Numbers from 2^53 on *)

(** The rounding is to a nearest Number: it moves the integer by half a
    unit of its last significant bit at most. *)
Lemma roundToNearest_near (m : Z) :
  (0 < m)%Z ->
  (2 * Z.abs (JsString.roundToNearest m - m) <= 2 ^ Z.max 0 (Z.log2 m - 52))%Z.
Proof.
  intros P. unfold JsString.roundToNearest. cbv zeta.
  set (e := Z.max 0 (Z.log2 m - 52)).
  assert (E : (0 <= e)%Z) by (subst e; lia).
  assert (T : (0 < 2 ^ e)%Z) by (now apply Z.pow_pos_nonneg).
  rewrite Z.shiftr_div_pow2, !Z.shiftl_mul_pow2 by assumption.
  pose proof (Z.div_mod m (2 ^ e) ltac:(lia)) as D.
  pose proof (Z.mod_pos_bound m (2 ^ e) T) as B.
  set (q := (m / 2 ^ e)%Z) in *. set (r := (m mod 2 ^ e)%Z) in *.
  replace (m - q * 2 ^ e)%Z with r by lia.
  destruct (Z.ltb_spec (2 ^ e) (2 * r)) as [L | L]; cbn [orb].
  - replace ((q + 1) * 2 ^ e - m)%Z with (2 ^ e - r)%Z by lia. lia.
  - destruct (Z.eqb_spec (2 * r) (2 ^ e)) as [H | H]; cbn [andb].
    + destruct (Z.odd q).
      * replace ((q + 1) * 2 ^ e - m)%Z with (2 ^ e - r)%Z by lia. lia.
      * replace (q * 2 ^ e - m)%Z with (- r)%Z by lia. lia.
    + replace (q * 2 ^ e - m)%Z with (- r)%Z by lia. lia.
Qed.

Lemma numberOfInteger_near (z : Z) :
  (0 < z)%Z ->
  JsString.numberOfInteger false z = JsString.Infinity false
  \/ exists r, JsString.numberOfInteger false z = JsString.Integer r
               /\ (2 * Z.abs (r - z) <= 2 ^ Z.max 0 (Z.log2 z - 52))%Z.
Proof.
  intros P. unfold JsString.numberOfInteger.
  destruct (Z.eqb_spec z 0) as [-> | _]; [lia |]. cbv zeta.
  destruct (_ <? _)%Z; [right | now left].
  eexists. split; [reflexivity | now apply roundToNearest_near].
Qed.

(** C2. For the target-temperature characteristic the value is read with
    the pattern [set.*temperature.*to (\d+)] on the lower-cased action.
    When the pattern matches, one match is read: the first that begins in
    the action, with the last "to " of its line that a digit follows, and
    the whole run of digits there. The value is the integer those digits
    write, as a Number: the integer itself below 2^53; from there on a
    Number within half a unit of the last of its 53 significant bits, or
    [Infinity]. When the pattern does not match there is no value; and
    "please set the thermostat temperature to 72 degrees" gives 72. *)
Theorem target_temperature_value_from_pattern
  (action : string) (characteristic : Characteristic.t) :
  Characteristic.UUID characteristic = Characteristic.TargetTemperature_UUID ->
  let actionLower := JsString.toLowerCase action in
  let value := determineValueForAction (Json.str action) characteristic in
  ((exists g, matchesPattern actionLower g) ->
   exists pre a b g rest z, readMatch actionLower pre a b g rest /\ writes g z)
  /\ (forall pre a b g rest z,
         readMatch actionLower pre a b g rest -> writes g z ->
         value = Ok (Num (JsString.numberOfInteger false z))
         /\ ((z < 2 ^ 53)%Z -> value = Ok (Num (JsString.Integer z)))
         /\ ((2 ^ 53 <= z)%Z ->
             value = Ok (Num (JsString.Infinity false))
             \/ exists r, value = Ok (Num (JsString.Integer r))
                          /\ (2 * Z.abs (r - z) <= 2 ^ (Z.log2 z - 52))%Z))
  /\ ((forall g, ~ matchesPattern actionLower g) -> value = Ok Null)
  /\ determineValueForAction
       (Json.str "please set the thermostat temperature to 72 degrees") characteristic
     = Ok (Num (JsString.Integer 72)).
Proof.
  intros U actionLower value. subst value.
  unfold determineValueForAction. cbn [toLowerCase Json.str]. fold actionLower.
  rewrite U, UUIDs_differ, String.eqb_refl.
  split; [| split; [| split]].
  - intros [g0 M0]. apply matchSetTemperature_complete in M0.
    destruct (JsString.matchSetTemperature actionLower) as [g|] eqn:E; [| contradiction].
    destruct (matchSetTemperature_read _ _ E) as (pre & a & b & rest & R).
    destruct (digitString_writes g) as [z W]; [apply R |].
    now exists pre, a, b, g, rest, z.
  - intros pre a b g rest z R W.
    assert (M : matchesPattern actionLower g).
    { destruct R as (E & A & B & G & _). now exists pre, a, b, rest. }
    apply matchSetTemperature_complete in M.
    destruct (JsString.matchSetTemperature actionLower) as [g1|] eqn:E; [| contradiction].
    destruct (matchSetTemperature_read _ _ E) as (pre1 & a1 & b1 & rest1 & R1).
    rewrite <- (readMatch_unique _ _ _ _ _ _ _ _ _ _ _ R R1).
    assert (G : digitString g) by apply R.
    assert (V : Ok (if JsString.truthy g then Some (Num (JsString.parseInt g)) else None)
                = Ok (Some (Num (JsString.numberOfInteger false z)))).
    { rewrite (parseInt_digitString g G), (decimal_writes g z W).
      destruct g; [now destruct G | reflexivity]. }
    injection V as V. rewrite V. split; [reflexivity | split].
    + intros B. rewrite numberOfInteger_exact; [reflexivity |].
      split; [| exact B]. rewrite <- (decimal_writes g z W).
      apply decimalFrom_nonneg; [lia | apply G].
    + intros B. assert (P : (0 < z)%Z) by (pose proof (Z.pow_pos_nonneg 2 53); lia).
      assert (L : (53 <= Z.log2 z)%Z) by (apply Z.log2_le_pow2; lia).
      destruct (numberOfInteger_near z P) as [-> | (r & -> & N)]; [now left | right].
      exists r. split; [reflexivity |].
      now replace (Z.max 0 (Z.log2 z - 52)) with (Z.log2 z - 52)%Z in N by lia.
  - intros N.
    destruct (JsString.matchSetTemperature actionLower) as [g|] eqn:E; [| reflexivity].
    exfalso. apply (N g). now apply matchSetTemperature_sound.
  - reflexivity.
Qed.

(** ** The dispatcher *)

Lemma keepsNames_ret {A : Type} (a : A) : keepsNames (ret a).
Proof. intros p r p' [= _ <-]. reflexivity. Qed.

Lemma keepsNames_lift {A : Type} (r : Result A) : keepsNames (lift r).
Proof. intros p r' p' [= _ <-]. reflexivity. Qed.

Lemma keepsNames_emit (e : Event) : keepsNames (emit e).
Proof. intros p r p' [= _ <-]. reflexivity. Qed.

Lemma keepsNames_getAccessories : keepsNames getAccessories.
Proof. intros p r p' [= _ <-]. reflexivity. Qed.

Lemma keepsNames_bind {A B : Type} (m : M A) (k : A -> M B) :
  keepsNames m -> (forall a, keepsNames (k a)) -> keepsNames (bind m k).
Proof.
  intros Hm Hk p r p'. unfold bind.
  destruct (m p) as [[a|e] p1] eqn:E; intros H.
  - rewrite (Hk a _ _ _ H). eapply Hm, E.
  - injection H as _ <-. eapply Hm, E.
Qed.

Lemma namesOf_updateAt (i : nat) (f : list Service.t -> list Service.t)
  (l : list PlatformAccessory.t) :
  namesOf (updateAt i (updateServices f) l) = namesOf l.
Proof.
  revert i. induction l as [|x l IH]; intros [|i]; simpl; try reflexivity.
  now rewrite IH.
Qed.

Lemma keepsNames_modifyCharacteristics (i j : nat)
  (f : list Characteristic.t -> list Characteristic.t) :
  keepsNames (modifyCharacteristics i j f).
Proof. intros p r p' [= _ <-]. simpl. apply namesOf_updateAt. Qed.

Create HintDb names.
#[local] Hint Resolve keepsNames_ret keepsNames_lift keepsNames_emit
  keepsNames_getAccessories keepsNames_modifyCharacteristics : names.

Ltac names_step :=
  match goal with
  | |- keepsNames (bind _ _) => apply keepsNames_bind; [| intros ?]
  | |- keepsNames (match ?x with _ => _ end) => destruct x
  | |- keepsNames (if ?b then _ else _) => destruct b
  | |- keepsNames _ => solve [auto with names]
  end.

Lemma keepsNames_executeAction (actionData : Json.value) :
  keepsNames (executeAction actionData).
Proof.
  unfold executeAction, controlAccessory, controlService, applyAction,
    getCharacteristicForService, getCharacteristic, setValue.
  repeat names_step.
Qed.

Lemma position_by_names (name : Json.any) (l l' : list PlatformAccessory.t) :
  namesOf l = namesOf l' ->
  position (findAccessoryByName name l) = position (findAccessoryByName name l').
Proof.
  unfold findAccessoryByName, find. generalize 0.
  revert l'. induction l as [|x l IH]; intros [|x' l'] i H; simpl in H; try discriminate.
  - reflexivity.
  - injection H as Hx Hl. simpl. rewrite Hx.
    destruct (sameNameIgnoringCase _ name) as [[|]|e]; try reflexivity.
    now apply IH.
Qed.

(** C10. The lookup of the dispatcher returns the first entry of the
    array whose name is the name asked for up to letter case, whatever
    comes after it; [configureAccessory] puts an accessory at the end of
    the array, so that this is the order of registration; and a dispatch
    leaves the lookup of any name where it was, so that a second
    dispatch of an intent reaches the device the first one reached. *)
Theorem findAccessoryByName_first_in_registration_order :
  (forall (before : list PlatformAccessory.t) (acc : PlatformAccessory.t)
          (after : list PlatformAccessory.t) (name : string),
      equalIgnoringCase name (PlatformAccessory.displayName acc) ->
      (forall x, In x before ->
                 ~ equalIgnoringCase name (PlatformAccessory.displayName x)) ->
      findAccessoryByName (Json.str name) (before ++ acc :: after)
      = Ok (Some (List.length before, acc)))
  /\ (forall (acc : PlatformAccessory.t) (p : Platform),
         exists p', configureAccessory acc p = (Ok tt, p')
                    /\ accessories p' = (accessories p ++ [acc])%list)
  /\ (forall (actionData : Json.value) (name : Json.any) (p p' : Platform) (r : Result unit),
         executeAction actionData p = (r, p') ->
         position (findAccessoryByName name (accessories p'))
         = position (findAccessoryByName name (accessories p))).
Proof.
  split; [| split].
  - intros before acc after name Hacc Hbefore.
    unfold findAccessoryByName, find.
    rewrite findFrom_first; [reflexivity | |].
    + now apply sameNameIgnoringCase_true.
    + intros y Hy. apply sameNameIgnoringCase_false. now apply Hbefore.
  - intros acc p. eexists. split; reflexivity.
  - intros actionData name p p' r H.
    apply position_by_names. eapply keepsNames_executeAction, H.
Qed.

Lemma executeAction_found (p : Platform) (action device : string) (i : nat)
  (accessory : PlatformAccessory.t) :
  findAccessoryByName (Json.str device) (accessories p) = Ok (Some (i, accessory)) ->
  executeAction (intent action device) p
  = controlAccessory i accessory (Json.str action) (Json.str device) p.
Proof.
  intros H. unfold executeAction, bind, lift, getAccessories.
  cbn [destructure intent]. change (Json.getProperty _ "action") with (Json.str action).
  change (Json.getProperty _ "device") with (Json.str device).
  cbv beta iota. now rewrite H.
Qed.

(** C5. Once the accessory is found, the service the dispatcher works on
    is the first service of the accessory whose display name is the
    device name up to letter case; when no service has that name, the
    dispatcher logs that the service was not found and stops: nothing is
    asked of a service and no value is set. *)
Theorem executeAction_selects_service_by_device_name
  (p : Platform) (action device : string) (i : nat) (accessory : PlatformAccessory.t) :
  findAccessoryByName (Json.str device) (accessories p) = Ok (Some (i, accessory)) ->
  let executing :=
    Log Info [Text "Executing '"; Any (Json.str action); Text "' on '";
              Any (Json.str device); Text "'"] in
  (forall before service after,
      PlatformAccessory.services accessory = (before ++ service :: after)%list ->
      equalIgnoringCase device (Service.displayName service) ->
      (forall x, In x before -> ~ equalIgnoringCase device (Service.displayName x)) ->
      findService (Json.str device) accessory = Ok (Some (List.length before, service))
      /\ executeAction (intent action device) p
         = (emit executing ;;;
            controlService i (List.length before) service (Json.str action) (Json.str device)) p)
  /\ ((forall x, In x (PlatformAccessory.services accessory) ->
                 ~ equalIgnoringCase device (Service.displayName x)) ->
      findService (Json.str device) accessory = Ok None
      /\ executeAction (intent action device) p
         = (Ok tt,
            {| accessories := accessories p;
               devicesInfo := devicesInfo p;
               trace := trace p ++ [executing;
                                    Log LogError [Text "Service not found on accessory:";
                                                  Any (Json.str device)]] |})).
Proof.
  intros H executing. rewrite (executeAction_found _ _ _ _ _ H).
  unfold controlAccessory. fold executing. split.
  - intros before service after E Hs Hb.
    assert (F : findService (Json.str device) accessory
                = Ok (Some (List.length before, service))).
    { unfold findService, find. rewrite E, findFrom_first; [reflexivity | |].
      - now apply sameNameIgnoringCase_true.
      - intros y Hy. apply sameNameIgnoringCase_false. now apply Hb. }
    split; [exact F |]. unfold bind, lift. cbn [emit]. now rewrite F.
  - intros N.
    assert (F : findService (Json.str device) accessory = Ok None).
    { unfold findService, find. apply findFrom_none. intros y Hy.
      apply sameNameIgnoringCase_false. now apply N. }
    split; [exact F |]. unfold bind, lift. cbn [emit]. rewrite F.
    unfold emit. cbn [accessories devicesInfo trace]. now rewrite <- app_assoc.
Qed.

Lemma lookupCharacteristic_UUID (uuid : string) (cs : list Characteristic.t)
  (k k' : nat) (c : Characteristic.t) :
  lookupCharacteristic uuid k cs = Some (k', c) -> Characteristic.UUID c = uuid.
Proof.
  revert k. induction cs as [|x cs IH]; intros k; simpl; [discriminate |].
  destruct (String.eqb_spec (Characteristic.UUID x) uuid) as [E | _].
  - now intros [= _ <-].
  - apply IH.
Qed.

Lemma getCharacteristic_returns (i j : nat) (service : Service.t) (uuid : string)
  (p : Platform) :
  exists k c p',
    getCharacteristic i j service uuid p = (Ok (k, c), p')
    /\ Characteristic.UUID c = uuid.
Proof.
  unfold getCharacteristic, bind. cbn [emit].
  destruct (lookupCharacteristic uuid 0 (Service.characteristics service))
    as [[k c]|] eqn:E.
  - exists k, c. eexists. split; [reflexivity |]. eapply lookupCharacteristic_UUID, E.
  - do 3 eexists. split; reflexivity.
Qed.

Lemma getCharacteristicForService_returns (i j : nat) (service : Service.t)
  (uuid : string) (p : Platform) :
  characteristicTypeFor service = Some uuid ->
  exists k c p',
    getCharacteristicForService i j service p = (Ok (Some (k, c)), p')
    /\ Characteristic.UUID c = uuid.
Proof.
  intros T. unfold getCharacteristicForService, bind. rewrite T.
  destruct (getCharacteristic_returns i j service uuid p) as (k & c & p' & E & U).
  exists k, c, p'. now rewrite E.
Qed.

Lemma lookupCharacteristic_first (uuid : string) (n : nat)
  (before : list Characteristic.t) (c : Characteristic.t) (after : list Characteristic.t) :
  Characteristic.UUID c = uuid ->
  (forall x, In x before -> Characteristic.UUID x <> uuid) ->
  lookupCharacteristic uuid n (before ++ c :: after) = Some (n + List.length before, c).
Proof.
  intros U. revert n. induction before as [|x before IH]; intros n B; simpl.
  - rewrite U, String.eqb_refl, Nat.add_0_r. reflexivity.
  - destruct (String.eqb_spec (Characteristic.UUID x) uuid) as [E | _].
    + now apply B in E; [| left].
    + rewrite IH by (intros y Hy; apply B; now right). do 2 f_equal. lia.
Qed.

Lemma lookupCharacteristic_none (uuid : string) (n : nat) (cs : list Characteristic.t) :
  (forall x, In x cs -> Characteristic.UUID x <> uuid) ->
  lookupCharacteristic uuid n cs = None.
Proof.
  revert n. induction cs as [|x cs IH]; intros n B; simpl; [reflexivity |].
  destruct (String.eqb_spec (Characteristic.UUID x) uuid) as [E | _].
  - now apply B in E; [| left].
  - apply IH. intros y Hy. apply B. now right.
Qed.

(** What [getCharacteristicForService] does for a service whose class
    stands for the type [uuid], and how the dispatcher goes on. *)
Lemma getCharacteristicForService_selects (i j : nat) (service : Service.t)
  (action device : Json.any) (p : Platform) (uuid : string) :
  characteristicTypeFor service = Some uuid ->
  let asked := GetCharacteristic (Service.displayName service) uuid in
  (forall before c after,
      Service.characteristics service = (before ++ c :: after)%list ->
      Characteristic.UUID c = uuid ->
      (forall x, In x before -> Characteristic.UUID x <> uuid) ->
      let p' := {| accessories := accessories p;
                   devicesInfo := devicesInfo p;
                   trace := trace p ++ [asked] |} in
      getCharacteristicForService i j service p = (Ok (Some (List.length before, c)), p')
      /\ controlService i j service action device p
         = applyAction i j (List.length before) c action device p')
  /\ ((forall x, In x (Service.characteristics service) -> Characteristic.UUID x <> uuid) ->
      let c := newCharacteristic uuid in
      let p' := {| accessories :=
                     updateAt i
                       (updateServices
                          (updateAt j (updateCharacteristics (fun cs => (cs ++ [c])%list))))
                       (accessories p);
                   devicesInfo := devicesInfo p;
                   trace := trace p ++ [asked] |} in
      getCharacteristicForService i j service p
      = (Ok (Some (List.length (Service.characteristics service), c)), p')
      /\ controlService i j service action device p
         = applyAction i j (List.length (Service.characteristics service)) c action device p').
Proof.
  intros T asked. unfold controlService, getCharacteristicForService, getCharacteristic, bind.
  rewrite T. cbn [emit]. fold asked. split.
  - intros before c after E U B.
    rewrite E, (lookupCharacteristic_first uuid 0 before c after U B). cbn [ret Nat.add].
    split; reflexivity.
  - intros N. rewrite (lookupCharacteristic_none uuid 0 _ N).
    unfold modifyCharacteristics, bind, getAccessories, setAccessories, ret.
    cbn [accessories devicesInfo trace]. split; reflexivity.
Qed.

(** C6. The characteristic is chosen by the class of the selected
    service alone: Lightbulb, Switch, Fan and Outlet give the power-state
    characteristic, Thermostat gives the target temperature. The service
    is asked for the characteristic of that type, once: what is selected
    is the first characteristic of the type the service has, and nothing
    changes; when the service has none, HAP adds one at the end of the
    characteristics of that service, which is then selected, and nothing
    else changes. The dispatcher goes on with the selected characteristic.
    For a service of any other class the service is not asked, and the
    dispatcher logs that no characteristic was found and does nothing
    else. *)
Theorem characteristic_selected_by_service_class
  (i j : nat) (service : Service.t) (action device : Json.any) (p : Platform) :
  let cs := Service.characteristics service in
  let selects (uuid : string) : Prop :=
    let asked := GetCharacteristic (Service.displayName service) uuid in
    characteristicTypeFor service = Some uuid
    /\ (forall before c after,
           cs = (before ++ c :: after)%list ->
           Characteristic.UUID c = uuid ->
           (forall x, In x before -> Characteristic.UUID x <> uuid) ->
           let p' := {| accessories := accessories p;
                        devicesInfo := devicesInfo p;
                        trace := trace p ++ [asked] |} in
           getCharacteristicForService i j service p = (Ok (Some (List.length before, c)), p')
           /\ controlService i j service action device p
              = applyAction i j (List.length before) c action device p')
    /\ ((forall x, In x cs -> Characteristic.UUID x <> uuid) ->
        let c := newCharacteristic uuid in
        let p' := {| accessories :=
                       updateAt i
                         (updateServices
                            (updateAt j (updateCharacteristics
                                           (fun cs => (cs ++ [c])%list))))
                         (accessories p);
                     devicesInfo := devicesInfo p;
                     trace := trace p ++ [asked] |} in
        getCharacteristicForService i j service p = (Ok (Some (List.length cs, c)), p')
        /\ controlService i j service action device p
           = applyAction i j (List.length cs) c action device p') in
  match Service.classOf service with
  | Service.Lightbulb | Service.Switch | Service.Fan | Service.Outlet =>
      selects Characteristic.On_UUID
  | Service.Thermostat =>
      selects Characteristic.TargetTemperature_UUID
  | Service.Other _ =>
      characteristicTypeFor service = None
      /\ getCharacteristicForService i j service p = (Ok None, p)
      /\ controlService i j service action device p
         = (Ok tt,
            {| accessories := accessories p;
               devicesInfo := devicesInfo p;
               trace := trace p ++ [Log LogError [Text "Characteristic not found for service:";
                                                  Any (Json.str (Service.displayName service))]] |})
  end.
Proof.
  intros cs selects. subst selects cs. cbv beta zeta.
  destruct (Service.classOf service) eqn:C;
    try (assert (T : characteristicTypeFor service = Some Characteristic.On_UUID)
           by (unfold characteristicTypeFor, Service.instanceof; now rewrite C);
         split; [exact T | now apply getCharacteristicForService_selects]).
  - assert (T : characteristicTypeFor service = Some Characteristic.TargetTemperature_UUID)
      by (unfold characteristicTypeFor, Service.instanceof; now rewrite C).
    split; [exact T | now apply getCharacteristicForService_selects].
  - assert (T : characteristicTypeFor service = None)
      by (unfold characteristicTypeFor, Service.instanceof; now rewrite C).
    split; [exact T |].
    unfold controlService, bind, getCharacteristicForService. rewrite T.
    split; reflexivity.
Qed.

(** ** The resolver *)

Lemma occursIn_after (x t s : string) : occursIn t s -> occursIn t (x ++ s).
Proof.
  intros (a & b & ->). exists (x ++ a), b. now rewrite append_assoc.
Qed.

Lemma occursIn_head (t b : string) : occursIn t (t ++ b).
Proof. now exists EmptyString, b. Qed.

Lemma truthy_false (s : string) : JsString.truthy s = false <-> s = EmptyString.
Proof. destruct s; simpl; split; congruence. Qed.

(** C3, as the code has it. When the completion service answers with a
    text, the resolver trims it; an empty text fails with "No response
    from AI"; a text that [JSON.parse] rejects fails with "Failed to
    parse AI response: " followed by the text; and a text that
    [JSON.parse] accepts is returned as parsed, whatever the value is:
    its fields are not looked at. *)
Theorem processCommand_returns_what_parses
  (command : string) (p : Platform) (text : string) :
  createCompletion (completionRequest (devicesInfo p) command) = Resolves (Some text) ->
  let result := JsString.trim text in
  (result = EmptyString ->
   fst (processCommand command p) = Throw (Error "No response from AI"))
  /\ (result <> EmptyString -> JSON_parse result = None ->
      fst (processCommand command p)
      = Throw (Error ("Failed to parse AI response: " ++ result)))
  /\ (forall v, result <> EmptyString -> JSON_parse result = Some v ->
                fst (processCommand command p) = Ok v).
Proof.
  intros C result. unfold processCommand, bind. cbn [emit devicesInfo].
  rewrite C. unfold lift, readResponse. cbn [option_map fst]. fold result.
  destruct (JsString.truthy result) eqn:T; cbn [negb].
  - assert (result <> EmptyString) by (intros E; rewrite E in T; discriminate).
    split; [contradiction |]. split.
    + intros _ ->. reflexivity.
    + intros v _ ->. reflexivity.
  - apply truthy_false in T. split; [reflexivity |]. split; intros; contradiction.
Qed.

(** C4, as the code has it. Whatever the command is, the empty one
    included, the resolver sends one request to the completion service,
    whose prompt holds the command between quotes, and the outcome is
    what the answer to that request gives. *)
Theorem processCommand_always_calls_the_service (command : string) (p : Platform) :
  let request := completionRequest (devicesInfo p) command in
  processCommand command p
  = (match createCompletion request with
     | Rejects e => Throw e
     | Resolves text => readResponse text
     end,
     {| accessories := accessories p;
        devicesInfo := devicesInfo p;
        trace := trace p ++ [CreateCompletion request] |})
  /\ occursIn (Json.quoted command) (prompt request).
Proof.
  intros request. split.
  - unfold processCommand, bind. cbn [emit]. fold request.
    destruct (createCompletion request); reflexivity.
  - subst request. unfold completionRequest, buildPrompt. cbn [prompt String.concat].
    do 30 apply occursIn_after. apply occursIn_head.
Qed.

(** ** The command boundary *)

Lemma handleUserCommand_never_throws (command : string) (p : Platform) :
  exists p', handleUserCommand command p = (Ok tt, p').
Proof.
  unfold handleUserCommand, tryCatch.
  destruct (bind _ _ p) as [[[]|e] p1]; eexists; reflexivity.
Qed.

Lemma postCommand_status (command : string) (p : Platform) :
  exists p',
    postCommand command p
    = (Ok {| status := 200; body := "Command executed successfully." |}, p').
Proof.
  unfold postCommand, tryCatch, bind. cbn [emit].
  match goal with
  | |- context [handleUserCommand command ?q] =>
      destruct (handleUserCommand_never_throws command q) as [p1 ->]
  end.
  eexists. reflexivity.
Qed.

(** ** Updates in place *)

Lemma nth_error_updateAt {A : Type} (i : nat) (f : A -> A) (l : list A) :
  nth_error (updateAt i f l) i = option_map f (nth_error l i).
Proof.
  revert i. induction l as [|x l IH]; intros [|i]; simpl; try reflexivity. apply IH.
Qed.

Lemma nth_error_updateAt_other {A : Type} (i i' : nat) (f : A -> A) (l : list A) :
  i' <> i -> nth_error (updateAt i f l) i' = nth_error l i'.
Proof.
  revert i i'. induction l as [|x l IH]; intros [|i] [|i'] N; simpl;
    try reflexivity; try contradiction. apply IH. congruence.
Qed.

Lemma length_updateAt {A : Type} (i : nat) (f : A -> A) (l : list A) :
  List.length (updateAt i f l) = List.length l.
Proof.
  revert i. induction l as [|x l IH]; intros [|i]; simpl; try reflexivity. now rewrite IH.
Qed.

Lemma updateAt_ext {A : Type} (i : nat) (f g : A -> A) (l : list A) :
  (forall x, nth_error l i = Some x -> f x = g x) ->
  updateAt i f l = updateAt i g l.
Proof.
  revert i. induction l as [|x l IH]; intros [|i] H; simpl; try reflexivity.
  - now rewrite (H x eq_refl).
  - f_equal. apply IH. intros y Hy. now apply H.
Qed.

Lemma updateAt_same {A : Type} (i : nat) (f : A -> A) (l : list A) :
  (forall x, nth_error l i = Some x -> f x = x) ->
  updateAt i f l = l.
Proof.
  revert i. induction l as [|x l IH]; intros [|i] H; simpl; try reflexivity.
  - now rewrite (H x eq_refl).
  - f_equal. apply IH. intros y Hy. now apply H.
Qed.

Lemma updateAt_twice {A : Type} (i : nat) (f g : A -> A) (l : list A) :
  updateAt i g (updateAt i f l) = updateAt i (fun x => g (f x)) l.
Proof.
  revert i. induction l as [|x l IH]; intros [|i]; simpl; try reflexivity. now rewrite IH.
Qed.

Lemma updateAt_last {A : Type} (l : list A) (x y : A) :
  updateAt (List.length l) (fun _ => y) (l ++ [x]) = (l ++ [y])%list.
Proof. induction l as [|z l IH]; simpl; [reflexivity | now rewrite IH]. Qed.

Lemma updateCharacteristics_same (s : Service.t) :
  updateCharacteristics (fun _ => Service.characteristics s) s = s.
Proof. now destruct s. Qed.

(** The changes [modifyCharacteristics] makes, written as the replacement
    of one service. *)
Lemma modify_as_replacement (i j : nat) (f : list Characteristic.t -> list Characteristic.t)
  (accs : list PlatformAccessory.t) (acc : PlatformAccessory.t) (svc : Service.t) :
  nth_error accs i = Some acc ->
  nth_error (PlatformAccessory.services acc) j = Some svc ->
  updateAt i (updateServices (updateAt j (updateCharacteristics f))) accs
  = updateAt i (updateServices
                  (updateAt j (fun _ => updateCharacteristics
                                          (fun _ => f (Service.characteristics svc)) svc)))
             accs.
Proof.
  intros Hi Hj. apply updateAt_ext. intros x Hx.
  assert (x = acc) as -> by congruence.
  unfold updateServices. f_equal. apply updateAt_ext. intros y Hy.
  assert (y = svc) as -> by congruence. reflexivity.
Qed.

Lemma modify_nothing (i j : nat) (accs : list PlatformAccessory.t)
  (acc : PlatformAccessory.t) (svc : Service.t) :
  nth_error accs i = Some acc ->
  nth_error (PlatformAccessory.services acc) j = Some svc ->
  updateAt i (updateServices (updateAt j (fun _ => svc))) accs = accs.
Proof.
  intros Hi Hj. apply updateAt_same. intros x Hx.
  assert (x = acc) as -> by congruence.
  destruct acc as [name services]. unfold updateServices. simpl in *. f_equal.
  apply updateAt_same. intros y Hy. congruence.
Qed.

Lemma modify_twice (i j : nat) (f g : list Characteristic.t -> list Characteristic.t)
  (accs : list PlatformAccessory.t) :
  updateAt i (updateServices (updateAt j (updateCharacteristics g)))
           (updateAt i (updateServices (updateAt j (updateCharacteristics f))) accs)
  = updateAt i (updateServices (updateAt j (updateCharacteristics (fun cs => g (f cs))))) accs.
Proof.
  rewrite updateAt_twice. apply updateAt_ext. intros x _.
  unfold updateServices. simpl. f_equal. rewrite updateAt_twice. reflexivity.
Qed.

(** What [controlService] leaves of the accessories: the selected service
    is replaced by [serviceAfterDispatch]. *)
Lemma controlService_accessories (i j : nat) (svc : Service.t) (action device : Json.any)
  (p : Platform) (acc : PlatformAccessory.t) :
  nth_error (accessories p) i = Some acc ->
  nth_error (PlatformAccessory.services acc) j = Some svc ->
  accessories (snd (controlService i j svc action device p))
  = updateAt i (updateServices (updateAt j (fun _ => serviceAfterDispatch svc action)))
             (accessories p).
Proof.
  intros Hi Hj.
  unfold serviceAfterDispatch, characteristicsAfterDispatch.
  unfold controlService, getCharacteristicForService, getCharacteristic, applyAction,
    setValue, modifyCharacteristics, bind, lift, ret, emit, getAccessories, setAccessories.
  destruct (characteristicTypeFor svc) as [uuid|]; cbn -[updateAt determineValueForAction].
  - destruct (lookupCharacteristic uuid 0 (Service.characteristics svc)) as [[k c]|];
      cbn -[updateAt determineValueForAction].
    + fold (characteristicAfterSet c).
      destruct (determineValueForAction action c) as [v|e];
        cbn -[updateAt determineValueForAction].
      * destruct (isNull v); cbn -[updateAt].
        -- rewrite updateCharacteristics_same. symmetry. eapply modify_nothing; eassumption.
        -- eapply modify_as_replacement; eassumption.
      * rewrite updateCharacteristics_same. symmetry. eapply modify_nothing; eassumption.
    + fold (newCharacteristic uuid).
      destruct (determineValueForAction action (newCharacteristic uuid)) as [v|e];
        cbn -[updateAt determineValueForAction].
      * destruct (isNull v); cbn -[updateAt].
        -- eapply (modify_as_replacement i j (fun cs => (cs ++ [newCharacteristic uuid])%list));
             eassumption.
        -- fold (characteristicAfterSet (newCharacteristic uuid) v).
           rewrite modify_twice.
           eapply (modify_as_replacement i j
                     (fun cs => updateAt (List.length (Service.characteristics svc))
                                  (fun _ => characteristicAfterSet (newCharacteristic uuid) v)
                                  (cs ++ [newCharacteristic uuid])%list));
             eassumption.
      * eapply (modify_as_replacement i j (fun cs => (cs ++ [newCharacteristic uuid])%list));
          eassumption.
  - rewrite updateCharacteristics_same. symmetry. eapply modify_nothing; eassumption.
Qed.

(** ** Lookups after an update *)

Lemma find_nth_error {A : Type} (f : A -> Result bool) (l : list A) (i : nat) (x : A) :
  find f l = Ok (Some (i, x)) -> nth_error l i = Some x.
Proof.
  intros H. apply findFrom_some in H. destruct H as (before & after & -> & -> & _).
  apply nth_error_middle.
Qed.

Lemma findFrom_updateAt {A : Type} (f : A -> Result bool) (g : A -> A) (l : list A)
  (n i : nat) (x : A) :
  findFrom n f l = Ok (Some (n + i, x)) ->
  f (g x) = Ok true ->
  findFrom n f (updateAt i g l) = Ok (Some (n + i, g x)).
Proof.
  revert n i. induction l as [|y l IH]; intros n i H G; simpl in H; [discriminate |].
  destruct (f y) as [[|]|e] eqn:E; try discriminate.
  - injection H as Hn <-. assert (i = 0) as -> by lia. simpl.
    rewrite G, Nat.add_0_r. reflexivity.
  - destruct i as [|i].
    + apply findFrom_some in H. destruct H as (before & after & _ & Hn & _). lia.
    + simpl. rewrite E. replace (n + S i) with (S n + i) in * by lia. now apply IH.
Qed.

Lemma find_updateAt {A : Type} (f : A -> Result bool) (g : A -> A) (l : list A)
  (i : nat) (x : A) :
  find f l = Ok (Some (i, x)) ->
  f (g x) = Ok true ->
  find f (updateAt i g l) = Ok (Some (i, g x)).
Proof. intros H G. now apply (findFrom_updateAt f g l 0 i x). Qed.

Lemma find_hit {A : Type} (f : A -> Result bool) (l : list A) (i : nat) (x : A) :
  find f l = Ok (Some (i, x)) -> f x = Ok true.
Proof.
  intros H. apply findFrom_some in H. now destruct H as (_ & _ & _ & _ & H & _).
Qed.

Lemma lookup_as_find (uuid : string) (n : nat) (cs : list Characteristic.t) :
  findFrom n (fun c => Ok (String.eqb (Characteristic.UUID c) uuid)) cs
  = Ok (lookupCharacteristic uuid n cs).
Proof.
  revert n. induction cs as [|c cs IH]; intros n; simpl; [reflexivity |].
  destruct (String.eqb _ _); [reflexivity | apply IH].
Qed.

Lemma lookup_nth_error (uuid : string) (cs : list Characteristic.t) (k : nat)
  (c : Characteristic.t) :
  lookupCharacteristic uuid 0 cs = Some (k, c) -> nth_error cs k = Some c.
Proof.
  intros H. eapply find_nth_error. unfold find. rewrite lookup_as_find, H. reflexivity.
Qed.

Lemma lookup_updateAt (uuid : string) (cs : list Characteristic.t) (k : nat)
  (c c' : Characteristic.t) :
  lookupCharacteristic uuid 0 cs = Some (k, c) ->
  Characteristic.UUID c' = uuid ->
  lookupCharacteristic uuid 0 (updateAt k (fun _ => c') cs) = Some (k, c').
Proof.
  intros H U.
  pose proof (findFrom_updateAt (fun c => Ok (String.eqb (Characteristic.UUID c) uuid))
                (fun _ => c') cs 0 k c) as F.
  rewrite !lookup_as_find in F. simpl in F. rewrite H, U, String.eqb_refl in F.
  specialize (F eq_refl eq_refl). congruence.
Qed.

Lemma lookup_append (uuid : string) (cs : list Characteristic.t) (c : Characteristic.t) :
  lookupCharacteristic uuid 0 cs = None ->
  Characteristic.UUID c = uuid ->
  lookupCharacteristic uuid 0 (cs ++ [c]) = Some (List.length cs, c).
Proof.
  intros H U.
  pose proof (lookup_as_find uuid 0 cs) as F. rewrite H in F.
  pose proof (findFrom_first (fun c => Ok (String.eqb (Characteristic.UUID c) uuid))
                cs c [] 0) as G.
  rewrite lookup_as_find, U, String.eqb_refl in G.
  specialize (G eq_refl (findFrom_none_inv _ _ _ F)). simpl in G. congruence.
Qed.

Lemma determineValueForAction_by_UUID (action : Json.any) (c c' : Characteristic.t) :
  Characteristic.UUID c = Characteristic.UUID c' ->
  determineValueForAction action c = determineValueForAction action c'.
Proof. intros U. unfold determineValueForAction. now rewrite U. Qed.

Lemma characteristicTypeFor_by_class (s s' : Service.t) :
  Service.classOf s = Service.classOf s' ->
  characteristicTypeFor s = characteristicTypeFor s'.
Proof. intros C. unfold characteristicTypeFor, Service.instanceof. now rewrite C. Qed.

Lemma characteristicsAfterDispatch_again (svc : Service.t) (action : Json.any) :
  (forall c c' v, Characteristic.UUID c = Characteristic.UUID c' ->
                  validateUserInput c v = validateUserInput c' v) ->
  characteristicsAfterDispatch (serviceAfterDispatch svc action) action
  = characteristicsAfterDispatch svc action.
Proof.
  intros V.
  assert (Set_again : forall c v,
             characteristicAfterSet (characteristicAfterSet c v) v = characteristicAfterSet c v).
  { intros c v. unfold characteristicAfterSet. simpl. f_equal. now apply V. }
  unfold characteristicsAfterDispatch at 1.
  rewrite (characteristicTypeFor_by_class (serviceAfterDispatch svc action) svc eq_refl).
  change (Service.characteristics (serviceAfterDispatch svc action))
    with (characteristicsAfterDispatch svc action).
  unfold characteristicsAfterDispatch.
  destruct (characteristicTypeFor svc) as [uuid|]; [| reflexivity].
  destruct (lookupCharacteristic uuid 0 (Service.characteristics svc)) as [[k c]|] eqn:L.
  - pose proof (lookupCharacteristic_UUID _ _ _ _ _ L) as U.
    destruct (determineValueForAction action c) as [v|e] eqn:D.
    + destruct (isNull v) eqn:N; cbn [negb].
      * now rewrite L, D, N.
      * rewrite (lookup_updateAt uuid _ k c (characteristicAfterSet c v) L U).
        rewrite (determineValueForAction_by_UUID action (characteristicAfterSet c v) c eq_refl).
        rewrite D, N. cbn [negb]. rewrite updateAt_twice, Set_again. reflexivity.
    + now rewrite L, D.
  - set (c := newCharacteristic uuid).
    destruct (determineValueForAction action c) as [v|e] eqn:D.
    + destruct (isNull v) eqn:N; cbn [negb].
      * rewrite (lookup_append uuid _ c L eq_refl), D, N. reflexivity.
      * rewrite updateAt_last.
        rewrite (lookup_append uuid _ (characteristicAfterSet c v) L eq_refl).
        rewrite (determineValueForAction_by_UUID action (characteristicAfterSet c v) c eq_refl).
        rewrite D, N. cbn [negb]. rewrite Set_again. apply updateAt_last.
    + rewrite (lookup_append uuid _ c L eq_refl), D. reflexivity.
Qed.

Lemma serviceAfterDispatch_again (svc : Service.t) (action : Json.any) :
  (forall c c' v, Characteristic.UUID c = Characteristic.UUID c' ->
                  validateUserInput c v = validateUserInput c' v) ->
  serviceAfterDispatch (serviceAfterDispatch svc action) action
  = serviceAfterDispatch svc action.
Proof.
  intros V. unfold serviceAfterDispatch at 1.
  rewrite characteristicsAfterDispatch_again by assumption. reflexivity.
Qed.

Lemma accessoriesAfterDispatch_again (accs : list PlatformAccessory.t)
  (action device : Json.any) :
  (forall c c' v, Characteristic.UUID c = Characteristic.UUID c' ->
                  validateUserInput c v = validateUserInput c' v) ->
  accessoriesAfterDispatch (accessoriesAfterDispatch accs action device) action device
  = accessoriesAfterDispatch accs action device.
Proof.
  intros V. unfold accessoriesAfterDispatch at 2 3.
  destruct (findAccessoryByName device accs) as [[[i acc]|]|e] eqn:FA;
    try (unfold accessoriesAfterDispatch; now rewrite FA).
  destruct (ToString action) as [[]|ea] eqn:TA;
    try (unfold accessoriesAfterDispatch; now rewrite FA, TA).
  destruct (ToString device) as [[]|ed] eqn:TD;
    try (unfold accessoriesAfterDispatch; now rewrite FA, TA, TD).
  destruct (findService device acc) as [[[j svc]|]|e] eqn:FS;
    try (unfold accessoriesAfterDispatch; now rewrite FA, TA, TD, FS).
  set (svc' := serviceAfterDispatch svc action).
  set (acc' := updateServices (updateAt j (fun _ => svc')) acc).
  assert (FA' : findAccessoryByName device
                  (updateAt i (updateServices (updateAt j (fun _ => svc'))) accs)
                = Ok (Some (i, acc'))).
  { apply find_updateAt; [exact FA |]. apply (find_hit _ _ _ _ FA). }
  assert (FS' : findService device acc' = Ok (Some (j, svc'))).
  { unfold findService. change (PlatformAccessory.services acc')
      with (updateAt j (fun _ => svc') (PlatformAccessory.services acc)).
    apply (find_updateAt _ (fun _ => svc') _ j svc); [exact FS |].
    apply (find_hit _ _ _ _ FS). }
  unfold accessoriesAfterDispatch. rewrite FA', TA, TD, FS'.
  unfold svc'. rewrite serviceAfterDispatch_again by assumption. fold svc'.
  apply updateAt_same. intros x Hx. rewrite nth_error_updateAt in Hx.
  rewrite (find_nth_error _ _ _ _ FA) in Hx. injection Hx as <-.
  unfold updateServices. simpl. f_equal. now rewrite updateAt_twice.
Qed.

(** What [executeAction] leaves of the accessories. *)
Lemma executeAction_accessories (actionData : Json.value) (p : Platform) :
  accessories (snd (executeAction actionData p))
  = match destructure actionData with
    | Ok (action, device) => accessoriesAfterDispatch (accessories p) action device
    | Throw _ => accessories p
    end.
Proof.
  unfold executeAction, bind, lift, getAccessories.
  destruct (destructure actionData) as [[action device]|e]; [| reflexivity].
  unfold accessoriesAfterDispatch.
  destruct (findAccessoryByName device (accessories p)) as [[[i acc]|]|e] eqn:FA;
    try reflexivity.
  unfold controlAccessory, bind, lift.
  destruct (ToString action) as [[]|ea]; [| reflexivity].
  destruct (ToString device) as [[]|ed]; [| reflexivity]. cbn [emit].
  destruct (findService device acc) as [[[j svc]|]|e] eqn:FS; try reflexivity.
  erewrite controlService_accessories; [reflexivity | |].
  - apply (find_nth_error _ _ _ _ FA).
  - apply (find_nth_error _ _ _ _ FS).
Qed.

(** ** More on the dispatcher *)

(** X1. Dispatching an intent twice leaves the accessories as the first
    dispatch left them, whatever the intent is, as long as HAP's validation
    of a value does not depend on the value the characteristic holds. *)
Theorem executeAction_twice_is_once (actionData : Json.value) (p : Platform) :
  (forall c c' v, Characteristic.UUID c = Characteristic.UUID c' ->
                  validateUserInput c v = validateUserInput c' v) ->
  accessories (snd (executeAction actionData (snd (executeAction actionData p))))
  = accessories (snd (executeAction actionData p)).
Proof.
  intros V. rewrite !executeAction_accessories.
  destruct (destructure actionData) as [[action device]|e]; [| reflexivity].
  now apply accessoriesAfterDispatch_again.
Qed.

Lemma map_updateAt_same {A B : Type} (h : A -> B) (i : nat) (f : A -> A) (l : list A) :
  (forall x, nth_error l i = Some x -> h (f x) = h x) ->
  map h (updateAt i f l) = map h l.
Proof.
  revert i. induction l as [|x l IH]; intros [|i] H; simpl; try reflexivity.
  - now rewrite (H x eq_refl).
  - f_equal. apply IH. intros y Hy. now apply H.
Qed.

Lemma Forall2_same {A : Type} (R : A -> A -> Prop) (l : list A) :
  (forall x, R x x) -> Forall2 R l l.
Proof. intros H. induction l; constructor; auto. Qed.

Lemma Forall2_updateAt {A : Type} (R : A -> A -> Prop) (i : nat) (f : A -> A) (l : list A) :
  (forall x, R x x) ->
  (forall x, nth_error l i = Some x -> R x (f x)) ->
  Forall2 R l (updateAt i f l).
Proof.
  intros Rr. revert i. induction l as [|x l IH]; intros [|i] H; simpl.
  - constructor.
  - constructor.
  - constructor; [now apply H | now apply Forall2_same].
  - constructor; [apply Rr |]. apply IH. intros y Hy. now apply H.
Qed.

Lemma extends_same {A : Type} (l : list A) : extends l l.
Proof. exists []. now rewrite app_nil_r. Qed.

Lemma sameServiceShape_same (s : Service.t) : sameServiceShape s s.
Proof. repeat split. apply extends_same. Qed.

Lemma sameAccessoryShape_same (a : PlatformAccessory.t) : sameAccessoryShape a a.
Proof. split; [reflexivity |]. apply Forall2_same, sameServiceShape_same. Qed.

Lemma characteristicsAfterDispatch_extends (svc : Service.t) (action : Json.any) :
  extends (map Characteristic.UUID (Service.characteristics svc))
          (map Characteristic.UUID (characteristicsAfterDispatch svc action)).
Proof.
  unfold characteristicsAfterDispatch.
  destruct (characteristicTypeFor svc) as [uuid|]; [| apply extends_same].
  destruct (lookupCharacteristic uuid 0 (Service.characteristics svc)) as [[k c]|] eqn:L.
  - destruct (determineValueForAction action c) as [v|e]; [| apply extends_same].
    destruct (isNull v); cbn [negb]; [apply extends_same |].
    rewrite map_updateAt_same; [apply extends_same |].
    intros x Hx. rewrite (lookup_nth_error _ _ _ _ L) in Hx. now injection Hx as <-.
  - exists [uuid].
    destruct (determineValueForAction action (newCharacteristic uuid)) as [v|e];
      [destruct (isNull v); cbn [negb] |]; try rewrite updateAt_last;
      now rewrite map_app.
Qed.

Lemma sameServiceShape_after (svc : Service.t) (action : Json.any) :
  sameServiceShape svc (serviceAfterDispatch svc action).
Proof.
  repeat split. apply characteristicsAfterDispatch_extends.
Qed.

(** X2. Whatever the intent is, a dispatch keeps the accessories, their
    names, their services, the names and the classes of the services and
    the characteristics each service has, in their order: all it can do to
    the inventory is add characteristics at the end of a service and set
    values. *)
Theorem executeAction_keeps_the_shape_of_the_inventory
  (actionData : Json.value) (p : Platform) :
  Forall2 sameAccessoryShape (accessories p) (accessories (snd (executeAction actionData p))).
Proof.
  rewrite executeAction_accessories.
  destruct (destructure actionData) as [[action device]|e];
    [| apply Forall2_same, sameAccessoryShape_same].
  unfold accessoriesAfterDispatch.
  destruct (findAccessoryByName device (accessories p)) as [[[i acc]|]|e] eqn:FA;
    try apply Forall2_same, sameAccessoryShape_same.
  destruct (ToString action) as [[]|ea]; [| apply Forall2_same, sameAccessoryShape_same].
  destruct (ToString device) as [[]|ed]; [| apply Forall2_same, sameAccessoryShape_same].
  destruct (findService device acc) as [[[j svc]|]|e] eqn:FS;
    try apply Forall2_same, sameAccessoryShape_same.
  apply Forall2_updateAt; [apply sameAccessoryShape_same |].
  intros x Hx. rewrite (find_nth_error _ _ _ _ FA) in Hx. injection Hx as <-.
  split; [reflexivity |]. cbn [updateServices PlatformAccessory.services].
  apply Forall2_updateAt; [apply sameServiceShape_same |].
  intros y Hy. rewrite (find_nth_error _ _ _ _ FS) in Hy. injection Hy as <-.
  apply sameServiceShape_after.
Qed.

Lemma findAccessoryByName_string_total (name : string) (accs : list PlatformAccessory.t) :
  exists r, findAccessoryByName (Json.str name) accs = Ok r.
Proof.
  apply findFrom_pure. intros y. rewrite sameNameIgnoringCase_string. now eexists.
Qed.

Lemma findService_string_total (name : string) (acc : PlatformAccessory.t) :
  exists r, findService (Json.str name) acc = Ok r.
Proof.
  apply findFrom_pure. intros y. rewrite sameNameIgnoringCase_string. now eexists.
Qed.

Lemma determineValueForAction_string_total (action : string) (c : Characteristic.t) :
  exists v, determineValueForAction (Json.str action) c = Ok v.
Proof.
  unfold determineValueForAction. cbn [toLowerCase Json.str].
  destruct (if String.eqb _ _ then _ else _); [now eexists |].
  destruct (if String.eqb _ _ then _ else _); now eexists.
Qed.

(** X3. On an intent whose two fields are strings the dispatcher never
    throws: every failure to find the accessory, the service, the
    characteristic or the value ends the dispatch normally, with a line in
    the log. *)
Theorem executeAction_never_throws_on_strings (action device : string) (p : Platform) :
  fst (executeAction (intent action device) p) = Ok tt.
Proof.
  unfold executeAction, bind, lift, getAccessories.
  cbn [destructure intent]. change (Json.getProperty _ "action") with (Json.str action).
  change (Json.getProperty _ "device") with (Json.str device). cbv beta iota.
  destruct (findAccessoryByName_string_total device (accessories p)) as [[[i acc]|] ->];
    [| reflexivity].
  unfold controlAccessory, bind, lift. cbn [emit].
  destruct (findService_string_total device acc) as [[[j svc]|] ->]; [| reflexivity].
  unfold controlService, getCharacteristicForService, bind.
  destruct (characteristicTypeFor svc) as [uuid|]; [| reflexivity].
  match goal with
  | |- context [getCharacteristic i j svc uuid ?q] =>
      destruct (getCharacteristic_returns i j svc uuid q) as (k & c & p' & -> & _)
  end.
  cbn [ret]. unfold applyAction, bind, lift.
  destruct (determineValueForAction_string_total action c) as [v ->].
  destruct (isNull v); reflexivity.
Qed.

(** X4. When no accessory has the name of the device up to letter case,
    the dispatcher logs "Accessory not found:" with the name and does
    nothing else. *)
Theorem executeAction_unknown_device (action device : string) (p : Platform) :
  (forall x, In x (accessories p) ->
             ~ equalIgnoringCase device (PlatformAccessory.displayName x)) ->
  executeAction (intent action device) p
  = (Ok tt,
     {| accessories := accessories p;
        devicesInfo := devicesInfo p;
        trace := trace p ++ [Log LogError [Text "Accessory not found:";
                                           Any (Json.str device)]] |}).
Proof.
  intros N.
  assert (Missing : findAccessoryByName (Json.str device) (accessories p) = Ok None).
  { apply findFrom_none. intros y Hy. apply sameNameIgnoringCase_false. now apply N. }
  unfold executeAction, bind, lift, getAccessories.
  cbn [destructure intent]. change (Json.getProperty _ "device") with (Json.str device).
  cbv beta iota. rewrite Missing. reflexivity.
Qed.

(** X5. When the accessory, the service of its name, the characteristic
    of the class of the service and a value are all found, the dispatcher
    asks HAP for the characteristic, sets the value and logs what the
    characteristic then holds; the characteristic at that place then holds
    what HAP's validation made of the value, and no other accessory is
    touched. *)
Theorem executeAction_sets_the_value
  (p : Platform) (action device : string) (i : nat) (accessory : PlatformAccessory.t)
  (j : nat) (service : Service.t) (uuid : string) (k : nat) (c : Characteristic.t)
  (v : CharacteristicValue) :
  findAccessoryByName (Json.str device) (accessories p) = Ok (Some (i, accessory)) ->
  findService (Json.str device) accessory = Ok (Some (j, service)) ->
  characteristicTypeFor service = Some uuid ->
  lookupCharacteristic uuid 0 (Service.characteristics service) = Some (k, c) ->
  determineValueForAction (Json.str action) c = Ok v ->
  v <> Null ->
  let after :=
    updateAt i (updateServices
                  (updateAt j (updateCharacteristics
                                 (updateAt k (fun _ => characteristicAfterSet c v)))))
             (accessories p) in
  executeAction (intent action device) p
  = (Ok tt,
     {| accessories := after;
        devicesInfo := devicesInfo p;
        trace := trace p ++
                 [Log Info [Text "Executing '"; Any (Json.str action); Text "' on '";
                            Any (Json.str device); Text "'"];
                  GetCharacteristic (Service.displayName service) uuid;
                  SetValue uuid v;
                  Log Info [Text "The "; Any (Json.str device); Text " is now set to ";
                            Val (validateUserInput c v)]] |})
  /\ (exists accessory' service',
         nth_error after i = Some accessory'
         /\ nth_error (PlatformAccessory.services accessory') j = Some service'
         /\ nth_error (Service.characteristics service') k = Some (characteristicAfterSet c v))
  /\ (forall i', i' <> i -> nth_error after i' = nth_error (accessories p) i').
Proof.
  intros FA FS T L D N after. split; [| split].
  - rewrite (executeAction_found _ _ _ _ _ FA).
    unfold controlAccessory, bind, lift. cbn [emit]. rewrite FS.
    unfold controlService, getCharacteristicForService, getCharacteristic, bind.
    rewrite T. cbn [emit]. rewrite L. cbn [ret].
    unfold applyAction, bind, lift. rewrite D.
    assert (isNull v = false) as -> by (destruct v; [contradiction | reflexivity | reflexivity]).
    cbn [negb]. unfold setValue, modifyCharacteristics, bind, getAccessories, setAccessories.
    unfold emit, ret. cbn [accessories devicesInfo trace Characteristic.value].
    subst after. unfold characteristicAfterSet.
    rewrite (lookupCharacteristic_UUID _ _ _ _ _ L).
    rewrite <- !app_assoc. reflexivity.
  - subst after. eexists. eexists. split; [| split].
    + rewrite nth_error_updateAt, (find_nth_error _ _ _ _ FA). reflexivity.
    + cbn [updateServices PlatformAccessory.services].
      rewrite nth_error_updateAt, (find_nth_error _ _ _ _ FS). reflexivity.
    + cbn [updateCharacteristics Service.characteristics].
      rewrite nth_error_updateAt, (lookup_nth_error _ _ _ _ L). reflexivity.
  - intros i' Hi. now apply nth_error_updateAt_other.
Qed.

Lemma toLowerCase_not_a_string (v : Json.any) :
  (forall s, v <> Json.str s) -> toLowerCase v = Throw TypeError.
Proof.
  intros H. destruct v as [|[]]; try reflexivity. exfalso. now apply (H s).
Qed.

(** X6. An intent that is [null] makes the dispatcher throw a [TypeError]
    at once. An intent whose [device] is missing or is not a string makes
    it throw a [TypeError] on the first accessory it compares, before
    anything is logged; with no accessory at all it logs "Accessory not
    found:" and ends normally. *)
Theorem executeAction_without_a_device_name (actionData : Json.value) (p : Platform) :
  (forall s, Json.getProperty actionData "device" <> Json.str s) ->
  (actionData = Json.JNull -> executeAction actionData p = (Throw TypeError, p))
  /\ (actionData <> Json.JNull -> accessories p <> [] ->
      executeAction actionData p = (Throw TypeError, p))
  /\ (actionData <> Json.JNull -> accessories p = [] ->
      executeAction actionData p
      = (Ok tt,
         {| accessories := [];
            devicesInfo := devicesInfo p;
            trace := trace p ++ [Log LogError [Text "Accessory not found:";
                                               Any (Json.getProperty actionData "device")]] |})).
Proof.
  intros H. apply toLowerCase_not_a_string in H. split; [| split].
  - intros ->. reflexivity.
  - intros NN NE. unfold executeAction, bind, lift, getAccessories.
    assert (destructure actionData
            = Ok (Json.getProperty actionData "action", Json.getProperty actionData "device"))
      as -> by (destruct actionData; [contradiction | reflexivity ..]).
    cbv beta iota. destruct (accessories p) as [|x l]; [contradiction |].
    unfold findAccessoryByName, find, sameNameIgnoringCase. cbn [findFrom].
    rewrite H. reflexivity.
  - intros NN E. unfold executeAction, bind, lift, getAccessories.
    assert (destructure actionData
            = Ok (Json.getProperty actionData "action", Json.getProperty actionData "device"))
      as -> by (destruct actionData; [contradiction | reflexivity ..]).
    cbv beta iota. unfold findAccessoryByName, find. rewrite E. cbn [findFrom].
    unfold emit. rewrite E. reflexivity.
Qed.

(** ** More on value derivation *)

Lemma roundToNearest_nonneg (m : Z) : (0 <= m)%Z -> (0 <= JsString.roundToNearest m)%Z.
Proof.
  intros P. unfold JsString.roundToNearest. cbv zeta.
  apply Z.shiftl_nonneg.
  assert (0 <= Z.shiftr m (Z.max 0 (Z.log2 m - 52)))%Z by (now apply Z.shiftr_nonneg).
  destruct (_ || _); lia.
Qed.

(** X7. What a value derived from an action that is a string can be: a
    boolean only for the power-state characteristic, a Number only for the
    target temperature, and then never [NaN] and never negative: it is an
    integer that is not negative, or [Infinity] (which a run of digits too
    long for a Number gives); for a characteristic of any other type it is
    [null]. The value depends on the type of the characteristic only, not
    on what it holds. *)
Theorem determineValueForAction_kinds (action : string) (c : Characteristic.t) :
  (exists v,
      determineValueForAction (Json.str action) c = Ok v
      /\ match v with
         | Null => True
         | Boolean _ => Characteristic.UUID c = Characteristic.On_UUID
         | Num n =>
             Characteristic.UUID c = Characteristic.TargetTemperature_UUID
             /\ ((exists z, (0 <= z)%Z /\ n = JsString.Integer z)
                 \/ n = JsString.Infinity false)
         end)
  /\ (Characteristic.UUID c <> Characteristic.On_UUID ->
      Characteristic.UUID c <> Characteristic.TargetTemperature_UUID ->
      determineValueForAction (Json.str action) c = Ok Null)
  /\ (forall c', Characteristic.UUID c' = Characteristic.UUID c ->
                 determineValueForAction (Json.str action) c'
                 = determineValueForAction (Json.str action) c).
Proof.
  split; [| split].
  - unfold determineValueForAction. cbn [toLowerCase Json.str].
    set (actionLower := JsString.toLowerCase action).
    destruct (String.eqb_spec (Characteristic.UUID c) Characteristic.On_UUID) as [On | _].
    + destruct (_ || _); [now eexists |]. destruct (_ || _); [now eexists |].
      rewrite On, String.eqb_sym, UUIDs_differ. now eexists.
    + destruct (String.eqb_spec (Characteristic.UUID c) Characteristic.TargetTemperature_UUID)
        as [TT | _]; [| now eexists].
      destruct (JsString.matchSetTemperature actionLower) as [g|] eqn:E; [| now eexists].
      apply matchSetTemperature_sound in E.
      destruct E as (_ & _ & _ & _ & _ & _ & _ & G).
      pose proof (parseInt_digitString g G) as P.
      assert (N : (0 <= JsString.decimal g)%Z)
        by (apply decimalFrom_nonneg; [lia | apply G]).
      destruct g as [|d g]; [now destruct G |]. cbn [JsString.truthy].
      eexists. split; [reflexivity |]. split; [exact TT |].
      rewrite P. unfold JsString.numberOfInteger.
      destruct (_ =? 0)%Z; [left; exists 0%Z; split; [lia | reflexivity] |].
      cbv zeta. destruct (_ <? _)%Z; [left | right; reflexivity].
      eexists. split; [| reflexivity]. now apply roundToNearest_nonneg.
  - intros NOn NTT. unfold determineValueForAction. cbn [toLowerCase Json.str].
    apply String.eqb_neq in NOn, NTT. now rewrite NOn, NTT.
  - intros c' U. now apply determineValueForAction_by_UUID.
Qed.

(** X8. A Number derived for the target temperature comes from a match of
    the pattern in the lower-cased action, it is read from the whole run
    of digits that follows "to " (the run is not followed by a digit), and
    that is the last place of its line where "to " is followed by a
    digit. *)
Theorem target_temperature_takes_the_last_whole_number
  (action : string) (c : Characteristic.t) (n : JsString.Number) :
  determineValueForAction (Json.str action) c = Ok (Num n) ->
  exists pre a b g rest,
    JsString.toLowerCase action
    = pre ++ "set" ++ a ++ "temperature" ++ b ++ "to " ++ g ++ rest
    /\ dotRun a /\ dotRun b /\ digitString g
    /\ n = JsString.parseInt g
    /\ noLeadingDigit rest
    /\ forall x d y, rest = x ++ "to " ++ String d y -> dotRun x ->
                     JsString.isDigit d = false.
Proof using.
  unfold determineValueForAction. cbn [toLowerCase Json.str].
  generalize (JsString.toLowerCase action) as s. intros s H.
  assert (M : exists g, JsString.matchSetTemperature s = Some g /\ n = JsString.parseInt g).
  { destruct (String.eqb _ Characteristic.On_UUID).
    - destruct (_ || _); [discriminate |]. destruct (_ || _); [discriminate |].
      destruct (String.eqb _ _); [| discriminate].
      destruct (JsString.matchSetTemperature s) as [g|]; [| discriminate].
      destruct (JsString.truthy g); [| discriminate]. injection H as <-. now exists g.
    - destruct (String.eqb _ _); [| discriminate].
      destruct (JsString.matchSetTemperature s) as [g|]; [| discriminate].
      destruct (JsString.truthy g); [| discriminate]. injection H as <-. now exists g. }
  destruct M as (g & M & ->). clear H.
  induction s as [|x s IH]; cbn [JsString.matchSetTemperature] in M.
  - destruct (JsString.matchHere "") eqn:E; [| discriminate].
    injection M as ->. apply matchHere_last in E.
    destruct E as (a & b & rest & E & Pa & Pb & Pg & Pr & Pl).
    exists EmptyString, a, b, g, rest.
    split; [exact E | split; [exact Pa | split; [exact Pb | split; [exact Pg |
      split; [reflexivity | split; [exact Pr | exact Pl]]]]]].
  - destruct (JsString.matchHere (String x s)) eqn:E.
    + injection M as ->. apply matchHere_last in E.
      destruct E as (a & b & rest & E & Pa & Pb & Pg & Pr & Pl).
      exists EmptyString, a, b, g, rest.
      split; [exact E | split; [exact Pa | split; [exact Pb | split; [exact Pg |
        split; [reflexivity | split; [exact Pr | exact Pl]]]]]].
    + destruct (IH M) as (pre & a & b & g' & rest & -> & P).
      exists (String x pre), a, b, g', rest. split; [reflexivity | exact P].
Qed.

(** ** More on the pipeline *)

(** X9. When the resolver fails, whatever the failure is (the service
    rejects the request, the response has no text, the text is empty or
    is not JSON), [handleUserCommand] logs the message of the error and
    returns normally: the dispatcher is not run, no accessory changes and
    nothing is asked of HAP. *)
Theorem handleUserCommand_skips_the_dispatch_when_the_resolver_fails
  (command : string) (p : Platform) (e : Exn) :
  fst (processCommand command p) = Throw e ->
  handleUserCommand command p
  = (Ok tt,
     {| accessories := accessories p;
        devicesInfo := devicesInfo p;
        trace := trace p ++
                 [CreateCompletion (completionRequest (devicesInfo p) command);
                  Log LogError [Text "Error processing command:"; MessageOf e]] |}).
Proof.
  unfold handleUserCommand, tryCatch, bind at 1.
  unfold processCommand, bind. cbn [emit devicesInfo].
  destruct (createCompletion _) as [e0|text]; cbn [throw lift fst].
  - intros [= ->]. unfold emit. cbn [accessories devicesInfo trace].
    now rewrite <- app_assoc.
  - destruct (readResponse text) as [v|e0]; [discriminate |].
    intros [= ->]. unfold emit. cbn [accessories devicesInfo trace].
    now rewrite <- app_assoc.
Qed.

(** X10. When the resolver returns a value, [handleUserCommand] runs the
    dispatcher on that value, after the request in the trace; if the
    dispatcher throws, the message of the error is logged after what the
    dispatcher had done, and [handleUserCommand] returns normally. *)
Theorem handleUserCommand_dispatches_what_the_resolver_returns
  (command : string) (p : Platform) (v : Json.value) :
  fst (processCommand command p) = Ok v ->
  let requested :=
    {| accessories := accessories p;
       devicesInfo := devicesInfo p;
       trace := trace p ++ [CreateCompletion (completionRequest (devicesInfo p) command)] |} in
  handleUserCommand command p
  = match executeAction v requested with
    | (Ok _, p') => (Ok tt, p')
    | (Throw e, p') =>
        (Ok tt,
         {| accessories := accessories p';
            devicesInfo := devicesInfo p';
            trace := trace p' ++ [Log LogError [Text "Error processing command:";
                                                MessageOf e]] |})
    end.
Proof.
  intros H requested.
  unfold handleUserCommand, tryCatch, bind at 1.
  revert H. unfold processCommand, bind. cbn [emit devicesInfo]. fold requested.
  destruct (createCompletion _) as [e0|text]; cbn [throw lift fst]; [discriminate |].
  destruct (readResponse text) as [v0|e0]; [| discriminate].
  intros [= ->].
  destruct (executeAction v requested) as [[[]|e] p']; reflexivity.
Qed.

Lemma keepsDevicesInfo_ret {A : Type} (a : A) : keepsDevicesInfo (ret a).
Proof. intros p. reflexivity. Qed.

Lemma keepsDevicesInfo_throw {A : Type} (e : Exn) : keepsDevicesInfo (@throw A e).
Proof. intros p. reflexivity. Qed.

Lemma keepsDevicesInfo_lift {A : Type} (r : Result A) : keepsDevicesInfo (lift r).
Proof. intros p. reflexivity. Qed.

Lemma keepsDevicesInfo_emit (e : Event) : keepsDevicesInfo (emit e).
Proof. intros p. reflexivity. Qed.

Lemma keepsDevicesInfo_getAccessories : keepsDevicesInfo getAccessories.
Proof. intros p. reflexivity. Qed.

Lemma keepsDevicesInfo_setAccessories (l : list PlatformAccessory.t) :
  keepsDevicesInfo (setAccessories l).
Proof. intros p. reflexivity. Qed.

Lemma keepsDevicesInfo_bind {A B : Type} (m : M A) (k : A -> M B) :
  keepsDevicesInfo m -> (forall a, keepsDevicesInfo (k a)) -> keepsDevicesInfo (bind m k).
Proof.
  intros Hm Hk p. unfold bind. specialize (Hm p).
  destruct (m p) as [[a|e] p1]; simpl in *; [| assumption].
  now rewrite Hk.
Qed.

Lemma keepsDevicesInfo_tryCatch {A : Type} (m : M A) (h : Exn -> M A) :
  keepsDevicesInfo m -> (forall e, keepsDevicesInfo (h e)) -> keepsDevicesInfo (tryCatch m h).
Proof.
  intros Hm Hh p. unfold tryCatch. specialize (Hm p).
  destruct (m p) as [[a|e] p1]; simpl in *; [assumption |].
  now rewrite Hh.
Qed.

Lemma keepsDevicesInfo_processCommand (command : string) :
  keepsDevicesInfo (processCommand command).
Proof.
  intros p. unfold processCommand, bind. cbn [emit].
  destruct (createCompletion _); reflexivity.
Qed.

#[local] Hint Resolve keepsDevicesInfo_ret keepsDevicesInfo_throw keepsDevicesInfo_lift
  keepsDevicesInfo_emit keepsDevicesInfo_getAccessories keepsDevicesInfo_setAccessories
  keepsDevicesInfo_processCommand : names.

Ltac devices_step :=
  match goal with
  | |- keepsDevicesInfo (bind _ _) => apply keepsDevicesInfo_bind; [| intros ?]
  | |- keepsDevicesInfo (tryCatch _ _) => apply keepsDevicesInfo_tryCatch; [| intros ?]
  | |- keepsDevicesInfo (match ?x with _ => _ end) => destruct x
  | |- keepsDevicesInfo (if ?b then _ else _) => destruct b
  | |- keepsDevicesInfo _ => solve [auto with names]
  end.

Lemma keepsDevicesInfo_postCommand (command : string) :
  keepsDevicesInfo (postCommand command).
Proof.
  unfold postCommand, handleUserCommand, executeAction, controlAccessory, controlService,
    applyAction, getCharacteristicForService, getCharacteristic, setValue,
    modifyCharacteristics.
  repeat devices_step.
Qed.

(** X11. The inventory text the AI service puts in its prompt is not
    changed by handling a command, whatever the dispatcher does to the
    accessories, nor by an accessory being configured: the request built
    for a command stays the same. Only [updateDevicesInfo] changes it,
    and the next request then holds the new text. *)
Theorem the_prompt_inventory_changes_only_by_updateDevicesInfo :
  (forall command p, devicesInfo (snd (postCommand command p)) = devicesInfo p)
  /\ (forall accessory p, devicesInfo (snd (configureAccessory accessory p)) = devicesInfo p)
  /\ (forall devices command p,
         snd (processCommand command (snd (updateDevicesInfo devices p)))
         = {| accessories := accessories p;
              devicesInfo := devices;
              trace := trace p ++ [CreateCompletion (completionRequest devices command)] |}
         /\ occursIn devices (prompt (completionRequest devices command))).
Proof.
  split; [| split].
  - intros command p. apply keepsDevicesInfo_postCommand.
  - intros accessory p. reflexivity.
  - intros devices command p. split.
    + unfold processCommand, updateDevicesInfo, bind. cbn [emit snd devicesInfo].
      destruct (createCompletion _); reflexivity.
    + unfold completionRequest, buildPrompt. cbn [prompt String.concat].
      do 6 apply occursIn_after. apply occursIn_head.
Qed.

(** X16. An intent whose [device] names an accessory that has a service
    of the name, of a class the dispatcher knows, but whose [action] is
    missing or is not a string. When the action has no string (an object
    with a property [toString] of its own, or an array that holds one),
    the dispatcher throws a [TypeError] at the template literal of its
    first log line: nothing is logged, nothing is asked of HAP. Otherwise
    it throws a [TypeError] when it comes to derive the value, after it
    has logged the "Executing" line and asked HAP for the characteristic,
    which HAP adds when the service has none; no value is set. *)
Theorem executeAction_without_an_action
  (actionData : Json.value) (device : string) (p : Platform)
  (i : nat) (accessory : PlatformAccessory.t) (j : nat) (service : Service.t) (uuid : string) :
  actionData <> Json.JNull ->
  Json.getProperty actionData "device" = Json.str device ->
  (forall s, Json.getProperty actionData "action" <> Json.str s) ->
  findAccessoryByName (Json.str device) (accessories p) = Ok (Some (i, accessory)) ->
  findService (Json.str device) accessory = Ok (Some (j, service)) ->
  characteristicTypeFor service = Some uuid ->
  (ToString (Json.getProperty actionData "action") = Throw TypeError ->
   executeAction actionData p = (Throw TypeError, p))
  /\ (ToString (Json.getProperty actionData "action") = Ok tt ->
      executeAction actionData p
      = (Throw TypeError,
         {| accessories :=
              match lookupCharacteristic uuid 0 (Service.characteristics service) with
              | Some _ => accessories p
              | None =>
                  updateAt i (updateServices
                                (updateAt j (updateCharacteristics
                                               (fun cs => (cs ++ [newCharacteristic uuid])%list))))
                           (accessories p)
              end;
            devicesInfo := devicesInfo p;
            trace := trace p ++
                     [Log Info [Text "Executing '"; Any (Json.getProperty actionData "action");
                                Text "' on '"; Any (Json.str device); Text "'"];
                      GetCharacteristic (Service.displayName service) uuid] |})).
Proof.
  intros NN D A FA FS T. apply toLowerCase_not_a_string in A.
  unfold executeAction, bind, lift, getAccessories.
  assert (destructure actionData
          = Ok (Json.getProperty actionData "action", Json.getProperty actionData "device"))
    as -> by (destruct actionData; [contradiction | reflexivity ..]).
  cbv beta iota. rewrite D, FA.
  unfold controlAccessory, bind, lift. split; intros ->; [reflexivity |].
  cbn [ToString Json.str Json.toStringThrows emit]. rewrite FS.
  unfold controlService, getCharacteristicForService, getCharacteristic, bind.
  rewrite T. cbn [emit].
  destruct (lookupCharacteristic uuid 0 (Service.characteristics service)) as [[k c]|].
  - cbn [ret]. unfold applyAction, bind, lift, determineValueForAction. rewrite A.
    unfold emit. cbn [accessories devicesInfo trace]. now rewrite <- app_assoc.
  - unfold modifyCharacteristics, bind, getAccessories, setAccessories, ret.
    cbn [accessories devicesInfo trace].
    unfold applyAction, bind, lift, determineValueForAction. rewrite A.
    unfold emit. cbn [accessories devicesInfo trace]. now rewrite <- app_assoc.
Qed.

Lemma findFrom_app {A : Type} (f : A -> Result bool) (l l' : list A) (i : nat) :
  findFrom i f (l ++ l')
  = match findFrom i f l with
    | Ok None => findFrom (i + List.length l) f l'
    | r => r
    end.
Proof.
  revert i. induction l as [|x l IH]; intros i; simpl.
  - now rewrite Nat.add_0_r.
  - destruct (f x) as [[|]|e]; try reflexivity.
    rewrite IH. now replace (S i + List.length l) with (i + S (List.length l)) by lia.
Qed.

(** X17. An accessory that is configured is found by its name, up to
    letter case, at the end of the array, when no accessory before it has
    the name; when one has, the lookup of the name still returns that
    earlier accessory, and the dispatcher cannot reach the new one. A
    lookup of any other name is not changed. *)
Theorem configureAccessory_then_findAccessoryByName
  (accessory : PlatformAccessory.t) (name : string) (p : Platform) :
  let p' := snd (configureAccessory accessory p) in
  (forall r, findAccessoryByName (Json.str name) (accessories p) = Ok (Some r) ->
             findAccessoryByName (Json.str name) (accessories p') = Ok (Some r))
  /\ (findAccessoryByName (Json.str name) (accessories p) = Ok None ->
      equalIgnoringCase name (PlatformAccessory.displayName accessory) ->
      findAccessoryByName (Json.str name) (accessories p')
      = Ok (Some (List.length (accessories p), accessory)))
  /\ (findAccessoryByName (Json.str name) (accessories p) = Ok None ->
      ~ equalIgnoringCase name (PlatformAccessory.displayName accessory) ->
      findAccessoryByName (Json.str name) (accessories p') = Ok None).
Proof.
  intros p'. subst p'. cbn [configureAccessory bind emit getAccessories setAccessories snd
                             accessories].
  unfold configureAccessory, bind, emit, getAccessories, setAccessories.
  cbn [snd accessories].
  unfold findAccessoryByName, find. rewrite findFrom_app. split; [| split].
  - intros r ->. reflexivity.
  - intros -> E. cbn [findFrom]. apply sameNameIgnoringCase_true in E. now rewrite E.
  - intros -> E. cbn [findFrom]. apply sameNameIgnoringCase_false in E. now rewrite E.
Qed.

Lemma trimStart_white (ws s : string) :
  whiteSpace ws -> JsString.trimStart (ws ++ s) = JsString.trimStart s.
Proof.
  unfold whiteSpace. induction ws as [|c ws IH]; simpl; intros W; [reflexivity |].
  apply andb_true_iff in W as [Wc W]. rewrite Wc. now apply IH.
Qed.

Lemma trimEnd_white_only (ws : string) : whiteSpace ws -> JsString.trimEnd ws = EmptyString.
Proof.
  unfold whiteSpace. induction ws as [|c ws IH]; simpl; intros W; [reflexivity |].
  apply andb_true_iff in W as [Wc W]. now rewrite (IH W), Wc.
Qed.

Lemma trimEnd_white (s ws : string) :
  whiteSpace ws -> JsString.trimEnd (s ++ ws) = JsString.trimEnd s.
Proof.
  intros W. induction s as [|c s IH]; simpl.
  - now apply trimEnd_white_only.
  - now rewrite IH.
Qed.

Lemma trimStart_append_white (s ws : string) :
  whiteSpace ws ->
  JsString.trimEnd (JsString.trimStart (s ++ ws)) = JsString.trimEnd (JsString.trimStart s).
Proof.
  intros W. induction s as [|c s IH]; cbn [append JsString.trimStart].
  - rewrite <- (append_empty_r ws), trimStart_white by assumption. reflexivity.
  - destruct (JsString.isWhiteSpace c); [exact IH |].
    apply (trimEnd_white (String c s) ws W).
Qed.

Lemma trim_white (before text after : string) :
  whiteSpace before -> whiteSpace after ->
  JsString.trim (before ++ text ++ after) = JsString.trim text.
Proof.
  intros B A. unfold JsString.trim. rewrite trimStart_white by assumption.
  now apply trimStart_append_white.
Qed.

(** X18. White space around the text of the response does not matter to
    the resolver: the text is read as if it were not there. A text of
    white space only fails with "No response from AI", as a missing text
    does. *)
Theorem readResponse_ignores_surrounding_white_space (before text after : string) :
  whiteSpace before -> whiteSpace after ->
  readResponse (Some (before ++ text ++ after)) = readResponse (Some text)
  /\ readResponse (Some before) = Throw (Error "No response from AI")
  /\ readResponse (Some before) = readResponse None.
Proof.
  intros B A. unfold readResponse. cbn [option_map].
  rewrite trim_white by assumption. split; [reflexivity |].
  assert (JsString.trim before = EmptyString) as ->.
  { rewrite <- (append_empty_r before).
    change (before ++ "") with (before ++ "" ++ "").
    rewrite trim_white; [reflexivity | assumption | reflexivity]. }
  split; reflexivity.
Qed.

End Platform.

(** ** The code on concrete inputs *)

Lemma equalIgnoringCase_by_toLowerCase (s t : string) :
  JsString.toLowerCase s = JsString.toLowerCase t -> equalIgnoringCase s t.
Proof. apply toLowerCase_equalIgnoringCase. Qed.

Lemma not_equalIgnoringCase_by_toLowerCase (s t : string) :
  JsString.toLowerCase s <> JsString.toLowerCase t -> ~ equalIgnoringCase s t.
Proof. intros N H. apply N. now apply toLowerCase_equalIgnoringCase. Qed.

Lemma occursIn_by_includes (t s : string) :
  JsString.includes s t = true -> occursIn t s.
Proof. apply includes_spec. Qed.

Lemma not_occursIn_by_includes (t s : string) :
  JsString.includes s t = false -> ~ occursIn t s.
Proof. apply includes_false. Qed.

(** The lookup on an inventory of two accessories. *)
Lemma findAccessoryByName_case_insensitive_exact_witness :
  findAccessoryByName (Json.str "living room LIGHT") Fixture.inventory
  = Ok (Some (1, Fixture.lamp))
  /\ findAccessoryByName (Json.str "Living Room") Fixture.inventory = Ok None
  /\ equalIgnoringCase "living room LIGHT" (PlatformAccessory.displayName Fixture.lamp).
Proof.
  destruct (findAccessoryByName_case_insensitive_exact Fixture.inventory "living room LIGHT")
    as [Found [_ Exact]].
  destruct (findAccessoryByName_case_insensitive_exact Fixture.inventory "Living Room")
    as [_ [Missing _]].
  destruct (Found 1 Fixture.lamp eq_refl) as (j & e & F & _ & _ & U).
  { apply equalIgnoringCase_by_toLowerCase. reflexivity. }
  destruct U as [-> ->].
  { intros [|[|[|i1]]] [|[|[|i2]]] a b Ha Hb; try discriminate; try reflexivity;
      injection Ha as <-; injection Hb as <-; intros E; exfalso; revert E;
      apply not_equalIgnoringCase_by_toLowerCase; discriminate. }
  split; [exact F | split].
  - apply Missing. intros d [<- | [<- | []]];
      apply not_equalIgnoringCase_by_toLowerCase; discriminate.
  - apply (Exact 1 Fixture.lamp F).
Defined.

(** Four actions on the power-state characteristic. *)
Lemma power_state_value_from_phrases_witness :
  determineValueForAction (Json.str "Please TURN ON the lamp") Fixture.power
  = Ok (Boolean true)
  /\ determineValueForAction (Json.str "Please switch on the lamp") Fixture.power
     = Ok (Boolean true)
  /\ determineValueForAction (Json.str "Switch Off the lamp") Fixture.power
     = Ok (Boolean false)
  /\ determineValueForAction (Json.str "dim the lamp") Fixture.power = Ok Null
  /\ applyAction Fixture.storeAsGiven 1 1 0 Fixture.power (Json.str "dim the lamp")
       (Json.str "Living Room Light") Fixture.platform
     = (Ok tt,
        {| accessories := Fixture.inventory;
           devicesInfo := "[]";
           trace := [Log LogError [Text "Could not determine value for action:";
                                   Any (Json.str "dim the lamp")]] |}).
Proof.
  pose proof (power_state_value_from_phrases Fixture.storeAsGiven
                "Please TURN ON the lamp" Fixture.power eq_refl) as [_ [AnyCase _]].
  pose proof (power_state_value_from_phrases Fixture.storeAsGiven
                "Please switch on the lamp" Fixture.power eq_refl) as [On _].
  pose proof (power_state_value_from_phrases Fixture.storeAsGiven
                "Switch Off the lamp" Fixture.power eq_refl) as [_ [_ [Off _]]].
  pose proof (power_state_value_from_phrases Fixture.storeAsGiven
                "dim the lamp" Fixture.power eq_refl) as [_ [_ [_ Neither]]].
  split; [| split; [| split]].
  - apply (AnyCase "TURN ON").
    + left. apply equalIgnoringCase_by_toLowerCase. reflexivity.
    + apply occursIn_by_includes. reflexivity.
  - apply On. right. apply occursIn_by_includes. reflexivity.
  - apply Off.
    + intros [H | H]; revert H; apply not_occursIn_by_includes; reflexivity.
    + right. apply occursIn_by_includes. reflexivity.
  - destruct Neither as [V A].
    + intros [H | H]; revert H; apply not_occursIn_by_includes; reflexivity.
    + intros [H | H]; revert H; apply not_occursIn_by_includes; reflexivity.
    + split; [exact V | exact (A 1 1 0 (Json.str "Living Room Light") Fixture.platform)].
Defined.

(** An action that holds an on-phrase and an off-phrase. *)
Lemma on_phrases_are_tested_first_witness :
  determineValueForAction (Json.str "Turn off the fan and turn on the lamp") Fixture.power
  = Ok (Boolean true).
Proof.
  pose proof (on_phrases_are_tested_first
                "Turn off the fan and turn on the lamp" Fixture.power eq_refl) as [Both _].
  apply Both.
  - left. apply occursIn_by_includes. reflexivity.
  - left. apply occursIn_by_includes. reflexivity.
Defined.

(** An action with two numbers on its line, and one without a match. *)
Lemma target_temperature_value_from_pattern_witness :
  determineValueForAction (Json.str "Please SET the temperature to 19, or to 215 degrees")
    Fixture.targetTemperature
  = Ok (Num (JsString.Integer 215))
  /\ determineValueForAction (Json.str "make it warmer") Fixture.targetTemperature = Ok Null.
Proof.
  destruct (target_temperature_value_from_pattern
              "Please SET the temperature to 19, or to 215 degrees"
              Fixture.targetTemperature eq_refl) as [_ [Read _]].
  destruct (target_temperature_value_from_pattern
              "make it warmer" Fixture.targetTemperature eq_refl) as [_ [_ [NoMatch _]]].
  split.
  - apply (Read "please " " the " " to 19, or " "215" " degrees" 215%Z).
    + split; [reflexivity |]. split; [reflexivity |]. split; [reflexivity |].
      split; [split; [discriminate | reflexivity] |].
      split; [| split; [reflexivity |]].
      * intros pre a b g rest E _ _ _.
        destruct pre as [|c1 [|c2 [|c3 [|c4 [|c5 [|c6 [|c7 pre]]]]]]];
          try discriminate E; simpl; lia.
      * intros x d y E _.
        destruct x as [|c1 [|c2 [|c3 [|c4 [|c5 [|c6 [|c7 [|c8 [|c9 x]]]]]]]]];
          discriminate E.
    + exists (Decimal.D2 (Decimal.D1 (Decimal.D5 Decimal.Nil))). split; reflexivity.
    + reflexivity.
  - apply NoMatch. intros g M. apply matchSetTemperature_complete in M.
    apply M. reflexivity.
Defined.

(** C2, counterexample. The digits of "set temperature to
    9007199254740993" write 2^53 + 1, and the value is 2^53: the integer
    is rounded to the Number nearest to it. *)
Lemma target_temperature_above_2_53_is_rounded :
  writes "9007199254740993" (2 ^ 53 + 1)
  /\ determineValueForAction (Json.str "set temperature to 9007199254740993")
       Fixture.targetTemperature
     = Ok (Num (JsString.Integer (2 ^ 53))).
Proof.
  split; [| reflexivity].
  exists (Decimal.D9 (Decimal.D0 (Decimal.D0 (Decimal.D7 (Decimal.D1 (Decimal.D9 (Decimal.D9
            (Decimal.D2 (Decimal.D5 (Decimal.D4 (Decimal.D7 (Decimal.D4 (Decimal.D0 (Decimal.D9
               (Decimal.D9 (Decimal.D3 Decimal.Nil)))))))))))))))).
  split; reflexivity.
Qed.

(** Two accessories of one name up to case, after another accessory. *)
Lemma findAccessoryByName_first_in_registration_order_witness :
  findAccessoryByName (Json.str "living room light")
    ([Fixture.hallway] ++ Fixture.lamp :: [Fixture.lampAgain])
  = Ok (Some (1, Fixture.lamp)).
Proof.
  destruct (findAccessoryByName_first_in_registration_order
              Fixture.storeAsGiven Fixture.noDefault) as [First _].
  apply (First [Fixture.hallway] Fixture.lamp [Fixture.lampAgain] "living room light").
  - apply equalIgnoringCase_by_toLowerCase. reflexivity.
  - intros x [<- | []]. apply not_equalIgnoringCase_by_toLowerCase. discriminate.
Defined.

(** The lamp has a service of its name after the information service; the
    hallway has none. *)
Lemma executeAction_selects_service_by_device_name_witness :
  findService (Json.str "living room light") Fixture.lamp = Ok (Some (1, Fixture.light))
  /\ findService (Json.str "hallway") Fixture.hallway = Ok None
  /\ executeAction Fixture.storeAsGiven Fixture.noDefault
       (intent "set temperature to 21" "hallway") Fixture.platform
     = (Ok tt,
        {| accessories := Fixture.inventory;
           devicesInfo := "[]";
           trace := [Log Info [Text "Executing '"; Any (Json.str "set temperature to 21");
                               Text "' on '"; Any (Json.str "hallway"); Text "'"];
                     Log LogError [Text "Service not found on accessory:";
                                   Any (Json.str "hallway")]] |}).
Proof.
  pose proof (executeAction_selects_service_by_device_name
                Fixture.storeAsGiven Fixture.noDefault Fixture.platform
                "turn on" "living room light" 1 Fixture.lamp eq_refl) as [Selected _].
  pose proof (executeAction_selects_service_by_device_name
                Fixture.storeAsGiven Fixture.noDefault Fixture.platform
                "set temperature to 21" "hallway" 0 Fixture.hallway eq_refl) as [_ Missing].
  split; [| split].
  - apply (Selected [Fixture.information] Fixture.light [] eq_refl).
    + apply equalIgnoringCase_by_toLowerCase. reflexivity.
    + intros x [<- | []]. apply not_equalIgnoringCase_by_toLowerCase. discriminate.
  - apply Missing. intros x [<- | [<- | []]];
      apply not_equalIgnoringCase_by_toLowerCase; discriminate.
  - apply Missing. intros x [<- | [<- | []]];
      apply not_equalIgnoringCase_by_toLowerCase; discriminate.
Defined.

(** The light has its power-state characteristic; the thermostat of the
    den has no characteristic yet, and HAP adds the target temperature. *)
Lemma characteristic_selected_by_service_class_witness :
  getCharacteristicForService Fixture.noDefault 1 1 Fixture.light Fixture.platform
  = (Ok (Some (0, Fixture.power)),
     {| accessories := Fixture.inventory;
        devicesInfo := "[]";
        trace := [GetCharacteristic "Living Room Light" Characteristic.On_UUID] |})
  /\ getCharacteristicForService Fixture.noDefault 0 1 Fixture.bare
       {| accessories := [Fixture.den]; devicesInfo := "[]"; trace := [] |}
     = (Ok (Some (0, {| Characteristic.UUID := Characteristic.TargetTemperature_UUID;
                        Characteristic.value := Null |})),
        {| accessories :=
             [{| PlatformAccessory.displayName := "Den";
                 PlatformAccessory.services :=
                   [Fixture.information;
                    {| Service.classOf := Service.Thermostat;
                       Service.displayName := "Den";
                       Service.characteristics :=
                         [{| Characteristic.UUID := Characteristic.TargetTemperature_UUID;
                             Characteristic.value := Null |}] |}] |}];
           devicesInfo := "[]";
           trace := [GetCharacteristic "Den" Characteristic.TargetTemperature_UUID] |}).
Proof.
  split.
  - destruct (characteristic_selected_by_service_class Fixture.storeAsGiven Fixture.noDefault
                1 1 Fixture.light (Json.str "turn on") (Json.str "living room light")
                Fixture.platform) as [_ [Found _]].
    apply (Found [] Fixture.power [] eq_refl eq_refl). intros x [].
  - destruct (characteristic_selected_by_service_class Fixture.storeAsGiven Fixture.noDefault
                0 1 Fixture.bare (Json.str "set temperature to 21") (Json.str "den")
                {| accessories := [Fixture.den]; devicesInfo := "[]"; trace := [] |})
      as [_ [_ Added]].
    apply Added. intros x [].
Defined.

(** A response with white space around a well-formed intent, and one that
    is not JSON. *)
Lemma processCommand_returns_what_parses_witness :
  fst (processCommand Json.parse
         (Fixture.answers (" " ++ Fixture.intentText "turn on" "Living Room Light" ++ newline))
         "turn on the living room lights" Fixture.platform)
  = Ok (intent "turn on" "Living Room Light")
  /\ fst (processCommand Json.parse (Fixture.answers "Sure, turning it on.")
            "turn on the living room lights" Fixture.platform)
     = Throw (Error "Failed to parse AI response: Sure, turning it on.")
  /\ fst (processCommand Json.parse (Fixture.answers newline)
            "turn on the living room lights" Fixture.platform)
     = Throw (Error "No response from AI").
Proof.
  split; [| split].
  - apply (processCommand_returns_what_parses Json.parse
             (Fixture.answers (" " ++ Fixture.intentText "turn on" "Living Room Light" ++ newline))
             "turn on the living room lights" Fixture.platform _ eq_refl);
      [discriminate | reflexivity].
  - apply (processCommand_returns_what_parses Json.parse
             (Fixture.answers "Sure, turning it on.")
             "turn on the living room lights" Fixture.platform _ eq_refl);
      [discriminate | reflexivity].
  - apply (processCommand_returns_what_parses Json.parse
             (Fixture.answers newline)
             "turn on the living room lights" Fixture.platform _ eq_refl).
    reflexivity.
Defined.

(** C3, counterexample. The response [{"action": "turn on"}] is valid JSON
    without a [device] field; the resolver does not fail on it and
    returns the value, which has no [device]. *)
Lemma processCommand_returns_intent_without_device :
  Json.parse (JsString.trim (Fixture.actionOnlyText "turn on"))
  = Some (Json.JObject [("action", Json.JString "turn on")])
  /\ fst (processCommand Json.parse (Fixture.answers (Fixture.actionOnlyText "turn on"))
            "turn on the living room lights" Fixture.platform)
     = Ok (Json.JObject [("action", Json.JString "turn on")])
  /\ Json.getProperty (Json.JObject [("action", Json.JString "turn on")]) "device"
     = Json.Undefined.
Proof. repeat split. Qed.

(** C4, counterexample. On the empty command the resolver does not fail:
    it sends its request to the completion service, once, and returns the
    intent the answer holds. *)
Lemma processCommand_empty_command_calls_the_service :
  processCommand Json.parse (Fixture.answers (Fixture.intentText "turn on" "Living Room Light"))
    "" Fixture.platform
  = (Ok (intent "turn on" "Living Room Light"),
     {| accessories := Fixture.inventory;
        devicesInfo := "[]";
        trace := [CreateCompletion (completionRequest "[]" "")] |}).
Proof. reflexivity. Qed.

(** C8. The handler of [POST /command] answers 200 with the success
    message whatever happens in the pipeline: [handleUserCommand] catches
    every error and logs it, so the branch that answers 500 is never
    taken. On a response of the completion service that is not JSON, and
    on a request the service rejects with status 429, the answer is 200
    and the error is in the log. *)
Theorem postCommand_answers_200_when_the_pipeline_fails :
  (forall JSON_parse createCompletion validateUserInput defaultValue command p,
      exists p',
        postCommand JSON_parse createCompletion validateUserInput defaultValue command p
        = (Ok {| status := 200; body := "Command executed successfully." |}, p'))
  /\ postCommand Json.parse (Fixture.answers "Sure, turning it on.")
       Fixture.storeAsGiven Fixture.noDefault "turn on the living room lights" Fixture.platform
     = (Ok {| status := 200; body := "Command executed successfully." |},
        {| accessories := Fixture.inventory;
           devicesInfo := "[]";
           trace := [Log Info [Text "Received command:";
                               Any (Json.str "turn on the living room lights")];
                     CreateCompletion (completionRequest "[]" "turn on the living room lights");
                     Log LogError [Text "Error processing command:";
                                   MessageOf (Error "Failed to parse AI response: Sure, turning it on.")]] |})
  /\ postCommand Json.parse
       (fun _ => Rejects (Rejected (Some 429%N) "Request failed with status code 429"))
       Fixture.storeAsGiven Fixture.noDefault "turn on the living room lights" Fixture.platform
     = (Ok {| status := 200; body := "Command executed successfully." |},
        {| accessories := Fixture.inventory;
           devicesInfo := "[]";
           trace := [Log Info [Text "Received command:";
                               Any (Json.str "turn on the living room lights")];
                     CreateCompletion (completionRequest "[]" "turn on the living room lights");
                     Log LogError [Text "Error processing command:";
                                   MessageOf (Rejected (Some 429%N)
                                                "Request failed with status code 429")]] |}).
Proof.
  split; [| split].
  - intros. apply postCommand_status.
  - reflexivity.
  - reflexivity.
Qed.

(** ** The scenarios of the specification, evaluated *)

Example toLowerCase_sentence :
  JsString.toLowerCase "Please TURN On the Lamp" = "please turn on the lamp".
Proof. reflexivity. Qed.

Example match_takes_the_last_number :
  JsString.matchSetTemperature "set temperature to 19, no, set temperature to 21 now"
  = Some "21".
Proof. reflexivity. Qed.

(** A run of 308 nines is rounded to a Number; a run of 309 is too long
    for one. *)
Example long_runs_of_digits :
  (exists z, determineValueForAction (Json.str ("set temperature to " ++ Fixture.nines 308))
               Fixture.targetTemperature
             = Ok (Num (JsString.Integer z)))
  /\ determineValueForAction (Json.str ("set temperature to " ++ Fixture.nines 309))
       Fixture.targetTemperature
     = Ok (Num (JsString.Infinity false)).
Proof. split; [eexists |]; vm_compute; reflexivity. Qed.

Example match_stops_at_a_line_break :
  JsString.matchSetTemperature ("set the" ++ newline ++ "temperature to 21") = None.
Proof. reflexivity. Qed.

Example parse_nested :
  Json.parse ("[1, -2.5e3, true, null, {" ++ Json.quoted "a" ++ ":[]}] ")
  = Some (Json.JArray [Json.JNumber "1"; Json.JNumber "-2.5e3"; Json.JBool true; Json.JNull;
                       Json.JObject [("a", Json.JArray [])]]).
Proof. reflexivity. Qed.

(** Scenario 1: the lamp is turned on. *)
Example scenario_turn_on_the_lamp :
  handleUserCommand Json.parse
    (Fixture.answers (Fixture.intentText "turn on" "Living Room Light"))
    Fixture.storeAsGiven Fixture.noDefault "turn on the living room lights" Fixture.platform
  = (Ok tt,
     {| accessories :=
          [Fixture.hallway;
           {| PlatformAccessory.displayName := "Living Room Light";
              PlatformAccessory.services :=
                [Fixture.information;
                 {| Service.classOf := Service.Lightbulb;
                    Service.displayName := "Living Room Light";
                    Service.characteristics :=
                      [{| Characteristic.UUID := Characteristic.On_UUID;
                          Characteristic.value := Boolean true |}] |}] |}];
        devicesInfo := "[]";
        trace :=
          [CreateCompletion (completionRequest "[]" "turn on the living room lights");
           Log Info [Text "Executing '"; Any (Json.str "turn on"); Text "' on '";
                     Any (Json.str "Living Room Light"); Text "'"];
           GetCharacteristic "Living Room Light" Characteristic.On_UUID;
           SetValue Characteristic.On_UUID (Boolean true);
           Log Info [Text "The "; Any (Json.str "Living Room Light");
                     Text " is now set to "; Val (Boolean true)]] |}).
Proof. reflexivity. Qed.

(** Scenario 2: no accessory of the name. *)
Example scenario_unknown_device :
  handleUserCommand Json.parse
    (Fixture.answers (Fixture.intentText "turn on" "Garage Door"))
    Fixture.storeAsGiven Fixture.noDefault "open the garage" Fixture.platform
  = (Ok tt,
     {| accessories := Fixture.inventory;
        devicesInfo := "[]";
        trace :=
          [CreateCompletion (completionRequest "[]" "open the garage");
           Log LogError [Text "Accessory not found:"; Any (Json.str "Garage Door")]] |}).
Proof. reflexivity. Qed.

(** An intent without a device, on a platform that has accessories: the
    comparison of names throws, and the error is logged. *)
Example scenario_intent_without_device :
  handleUserCommand Json.parse
    (Fixture.answers (Fixture.actionOnlyText "turn on"))
    Fixture.storeAsGiven Fixture.noDefault "turn it on" Fixture.platform
  = (Ok tt,
     {| accessories := Fixture.inventory;
        devicesInfo := "[]";
        trace :=
          [CreateCompletion (completionRequest "[]" "turn it on");
           Log LogError [Text "Error processing command:"; MessageOf TypeError]] |}).
Proof. reflexivity. Qed.

(** ** The AI service of [aiService.ts] *)

Module AxiosAIServiceProperties.

Import AxiosAIService.

(** The data [isValidOpenAIResponse] accepts: an object whose [choices] is
    an array that begins with an object whose [text] is a string. *)
Lemma isValidOpenAIResponse_true (typeErrorMessage : string) (data : Json.any) :
  isValidOpenAIResponse typeErrorMessage data = Returns true
  <-> exists members fields others text,
        data = Json.Value (Json.JObject members)
        /\ Json.lookup "choices" members = Some (Json.JArray (Json.JObject fields :: others))
        /\ Json.lookup "text" fields = Some (Json.JString text).
Proof.
  unfold isValidOpenAIResponse. split.
  - destruct data as [|[| | | |elements|members]]; try discriminate.
    cbn [typeofObject isNull negb hasChoices property Json.getProperty].
    destruct (Json.lookup "choices" members) as [[| | | |[|choice others]|]|] eqn:C;
      try discriminate.
    cbn [isArray nonEmpty first].
    destruct choice as [| | | | |fields]; try discriminate.
    cbn [property Json.getProperty].
    destruct (Json.lookup "text" fields) as [[| | |text| |]|] eqn:T; try discriminate.
    intros _. now exists members, fields, others, text.
  - intros (members & fields & others & text & -> & C & T).
    cbn [typeofObject isNull negb hasChoices property Json.getProperty]. rewrite C.
    cbn [isArray nonEmpty first property Json.getProperty]. now rewrite T.
Qed.

Lemma firstText_valid (members : list (string * Json.value))
  (fields : list (string * Json.value)) (others : list Json.value) (text : string) :
  Json.lookup "choices" members = Some (Json.JArray (Json.JObject fields :: others)) ->
  Json.lookup "text" fields = Some (Json.JString text) ->
  firstText (Json.Value (Json.JObject members)) = JsString.trim text.
Proof.
  intros C T. unfold firstText. cbn [property Json.getProperty]. rewrite C.
  cbn [first property Json.getProperty]. now rewrite T.
Qed.

(** X12. [processCommand] returns a text exactly when the request was
    answered with an object whose [choices] begins with an object whose
    [text] is a string, and what it returns is that string, trimmed. *)
Theorem processCommand_returns_the_trimmed_first_text
  (typeErrorMessage : string) (post : Request -> Post) (apiKey command result : string) :
  processCommand typeErrorMessage post apiKey command = Returns result
  <-> exists members fields others text,
        post (request apiKey command) = Responds (Json.Value (Json.JObject members))
        /\ Json.lookup "choices" members = Some (Json.JArray (Json.JObject fields :: others))
        /\ Json.lookup "text" fields = Some (Json.JString text)
        /\ result = JsString.trim text.
Proof.
  unfold processCommand, attempt. split.
  - destruct (post (request apiKey command)) as [data|e]; [| discriminate].
    destruct (isValidOpenAIResponse typeErrorMessage data) as [[|]|e] eqn:V;
      try discriminate.
    apply isValidOpenAIResponse_true in V.
    destruct V as (members & fields & others & text & -> & C & T).
    intros [= <-]. exists members, fields, others, text.
    repeat split; try assumption. now apply (firstText_valid members fields others).
  - intros (members & fields & others & text & -> & C & T & ->).
    rewrite (proj2 (isValidOpenAIResponse_true typeErrorMessage _)).
    + now rewrite (firstText_valid _ _ _ _ C T).
    + now exists members, fields, others, text.
Qed.

(** X13. Whatever goes wrong, [processCommand] throws an [Error] whose
    message begins with "OpenAI API request failed: " (an axios error),
    with "An unexpected error occurred: " (any other [Error]) or is "An
    unknown error occurred.". The error the [try] itself throws on a
    response of the wrong structure is caught by the same [catch]: its
    message comes out behind "An unexpected error occurred: ". An axios
    error without a response gives "Unknown Status" and an empty status
    text. *)
Theorem processCommand_wraps_every_error
  (typeErrorMessage : string) (post : Request -> Post) (apiKey command : string) :
  (forall e, processCommand typeErrorMessage post apiKey command = Throws e ->
             exists message,
               e = ErrorObject message
               /\ (JsString.startsWith message "OpenAI API request failed: " = true
                   \/ JsString.startsWith message "An unexpected error occurred: " = true
                   \/ message = "An unknown error occurred."))
  /\ (forall data,
         post (request apiKey command) = Responds data ->
         isValidOpenAIResponse typeErrorMessage data = Returns false ->
         processCommand typeErrorMessage post apiKey command
         = Throws (ErrorObject
                     "An unexpected error occurred: Invalid response structure from OpenAI API."))
  /\ (forall status statusText,
         post (request apiKey command) = Fails (AxiosError (Some (status, statusText))) ->
         processCommand typeErrorMessage post apiKey command
         = Throws (ErrorObject ("OpenAI API request failed: " ++ numberToString status
                                 ++ " " ++ statusText)))
  /\ (post (request apiKey command) = Fails (AxiosError None) ->
      processCommand typeErrorMessage post apiKey command
      = Throws (ErrorObject "OpenAI API request failed: Unknown Status ")).
Proof.
  split; [| split; [| split]].
  - intros e. unfold processCommand.
    destruct (attempt typeErrorMessage post apiKey command) as [t|error]; [discriminate |].
    intros [= <-]. destruct error as [response|message|]; cbn [rethrow].
    + eexists. split; [reflexivity |]. left. apply startsWith_spec. now eexists.
    + eexists. split; [reflexivity |]. right. left. apply startsWith_spec. now eexists.
    + eexists. split; [reflexivity |]. right. right. reflexivity.
  - intros data P V. unfold processCommand, attempt. now rewrite P, V.
  - intros status statusText P. unfold processCommand, attempt. now rewrite P.
  - intros P. unfold processCommand, attempt. now rewrite P.
Qed.

(** X14. [handleResponse] accepts the responses [processCommand] accepts
    and returns the same text; on a response of the wrong structure it
    throws "Invalid response structure received.", with no prefix, where
    [processCommand] throws its own message behind "An unexpected error
    occurred: ". [handleCommand] returns and throws what [processCommand]
    does. *)
Theorem handleResponse_agrees_with_processCommand
  (typeErrorMessage : string) (post : Request -> Post) (apiKey command : string)
  (data : Json.any) :
  post (request apiKey command) = Responds data ->
  (forall text,
      handleResponse typeErrorMessage data = Returns text
      <-> processCommand typeErrorMessage post apiKey command = Returns text)
  /\ (isValidOpenAIResponse typeErrorMessage data = Returns false ->
      handleResponse typeErrorMessage data
      = Throws (ErrorObject "Invalid response structure received.")
      /\ processCommand typeErrorMessage post apiKey command
         = Throws (ErrorObject
                     "An unexpected error occurred: Invalid response structure from OpenAI API."))
  /\ handleCommand typeErrorMessage post apiKey command
     = processCommand typeErrorMessage post apiKey command.
Proof.
  intros P. unfold handleCommand, handleResponse, processCommand, attempt. rewrite P.
  split; [| split].
  - intros text.
    destruct (isValidOpenAIResponse typeErrorMessage data) as [[|]|e];
      cbn [rethrow]; split; congruence.
  - intros ->. split; reflexivity.
  - destruct (isValidOpenAIResponse typeErrorMessage data) as [[|]|e]; reflexivity.
Qed.

End AxiosAIServiceProperties.

(** ** [controlDevice] *)

Module LegacyPlatformProperties.

Import LegacyPlatform.

Lemma findFirst_first {A : Type} (f : A -> bool) (before : list A) (x : A) (after : list A)
  (i : nat) :
  f x = true ->
  (forall y, In y before -> f y = false) ->
  findFirst i f (before ++ x :: after) = Some (i + List.length before, x).
Proof.
  revert i. induction before as [|y before IH]; intros i Hx Hb; simpl.
  - rewrite Hx, Nat.add_0_r. reflexivity.
  - rewrite (Hb y (or_introl eq_refl)).
    rewrite IH; [| assumption | intros z Hz; apply Hb; now right].
    do 2 f_equal. lia.
Qed.

Lemma findFirst_none {A : Type} (f : A -> bool) (l : list A) (i : nat) :
  (forall y, In y l -> f y = false) -> findFirst i f l = None.
Proof.
  revert i. induction l as [|y l IH]; intros i H; simpl; [reflexivity |].
  rewrite (H y (or_introl eq_refl)). apply IH. intros z Hz. apply H. now right.
Qed.

Lemma same_name_true (displayName name : string) :
  equalIgnoringCase name displayName ->
  String.eqb (JsString.toLowerCase displayName) (JsString.toLowerCase name) = true.
Proof.
  intros H. apply toLowerCase_equalIgnoringCase in H. rewrite H. apply String.eqb_refl.
Qed.

Lemma same_name_false (displayName name : string) :
  ~ equalIgnoringCase name displayName ->
  String.eqb (JsString.toLowerCase displayName) (JsString.toLowerCase name) = false.
Proof.
  intros H. apply String.eqb_neq. intros E. apply H.
  apply toLowerCase_equalIgnoringCase. congruence.
Qed.

(** A service [getService] takes for [Service.Lightbulb]: an instance of
    the class, or a service of another class that carries its UUID. In
    either case the UUID of the service is that of the class. *)
Lemma getService_Lightbulb (s : Service.t) :
  Service.instanceof s Service.Lightbulb
  || String.eqb (Service.UUID_of Service.Lightbulb) (Service.UUID s) = true
  <-> Service.UUID s = Service.UUID_of Service.Lightbulb.
Proof.
  unfold Service.instanceof, Service.UUID.
  destruct (Service.classOf s) as [| | | | |u]; cbn [Service.class_eqb orb];
    try (split; [reflexivity | reflexivity]);
    try (split; intros H; discriminate H).
  rewrite String.eqb_eq. cbn [Service.UUID_of]. split; congruence.
Qed.

Lemma findFirst_as_lookup (uuid : string) (n : nat) (cs : list Characteristic.t) :
  findFirst n (fun c => String.eqb (Characteristic.UUID c) uuid) cs
  = lookupCharacteristic uuid n cs.
Proof.
  revert n. induction cs as [|c cs IH]; intros n; simpl; [reflexivity |].
  destruct (String.eqb _ _); [reflexivity | apply IH].
Qed.

(** X15. [controlDevice] looks the accessory up by its name up to letter
    case, first hit first, and then takes the first service of the
    accessory that has the UUID of the Lightbulb type (an instance of the
    class, or a service of another class made with that UUID), whatever
    the service is called: it sets the power state of that service to the
    state asked for and logs it. With no accessory of the name, or no such
    service on it, it logs a warning and changes nothing. The power-state
    characteristic of the service, added when there was none, then holds
    what HAP's validation makes of the state. *)
Theorem controlDevice_takes_the_first_lightbulb_service
  (validateUserInput : Characteristic.t -> CharacteristicValue -> CharacteristicValue)
  (defaultValue : string -> CharacteristicValue)
  (deviceName : string) (state : bool) (p : t) :
  ((forall x, In x (accessories p) ->
              ~ equalIgnoringCase deviceName (PlatformAccessory.displayName x)) ->
   controlDevice validateUserInput defaultValue deviceName state p
   = {| accessories := accessories p;
        trace := trace p ++ [Log warn ("Accessory " ++ Json.quoted deviceName
                                        ++ " not found.")] |})
  /\ (forall before accessory after,
         accessories p = (before ++ accessory :: after)%list ->
         equalIgnoringCase deviceName (PlatformAccessory.displayName accessory) ->
         (forall x, In x before ->
                    ~ equalIgnoringCase deviceName (PlatformAccessory.displayName x)) ->
         ((forall s, In s (PlatformAccessory.services accessory) ->
                     Service.UUID s <> Service.UUID_of Service.Lightbulb) ->
          controlDevice validateUserInput defaultValue deviceName state p
          = {| accessories := accessories p;
               trace := trace p ++ [Log warn ("Service for " ++ Json.quoted deviceName
                                               ++ " not found.")] |})
         /\ (forall earlier service later,
                PlatformAccessory.services accessory = (earlier ++ service :: later)%list ->
                Service.UUID service = Service.UUID_of Service.Lightbulb ->
                (forall s, In s earlier ->
                           Service.UUID s <> Service.UUID_of Service.Lightbulb) ->
                controlDevice validateUserInput defaultValue deviceName state p
                = {| accessories :=
                       updateAt (List.length before)
                         (inService (List.length earlier)
                            (updateCharacteristic validateUserInput defaultValue
                               Characteristic.On_UUID (Boolean state)))
                         (accessories p);
                     trace := trace p ++
                              [UpdateCharacteristic (Service.displayName service)
                                 Characteristic.On_UUID (Boolean state);
                               Log info ("Set " ++ Json.quoted deviceName ++ " to "
                                         ++ (if state then "ON" else "OFF") ++ ".")] |}))
  /\ (forall cs,
         exists k c,
           lookupCharacteristic Characteristic.On_UUID 0
             (updateCharacteristic validateUserInput defaultValue
                Characteristic.On_UUID (Boolean state) cs)
           = Some (k, {| Characteristic.UUID := Characteristic.On_UUID;
                         Characteristic.value := validateUserInput c (Boolean state) |})
           /\ (lookupCharacteristic Characteristic.On_UUID 0 cs = Some (k, c)
               \/ (lookupCharacteristic Characteristic.On_UUID 0 cs = None
                   /\ k = List.length cs
                   /\ c = {| Characteristic.UUID := Characteristic.On_UUID;
                             Characteristic.value := defaultValue Characteristic.On_UUID |}))).
Proof.
  assert (No : forall s, Service.UUID s <> Service.UUID_of Service.Lightbulb ->
                         Service.instanceof s Service.Lightbulb
                         || String.eqb (Service.UUID_of Service.Lightbulb) (Service.UUID s)
                         = false).
  { intros s H. destruct (_ || _) eqn:I; [| reflexivity].
    now apply getService_Lightbulb in I. }
  split; [| split].
  - intros N. unfold controlDevice. rewrite findFirst_none; [reflexivity |].
    intros y Hy. apply same_name_false. now apply N.
  - intros before accessory after E Hacc Hbefore.
    assert (F : findFirst 0
                  (fun acc => String.eqb
                                (JsString.toLowerCase (PlatformAccessory.displayName acc))
                                (JsString.toLowerCase deviceName))
                  (accessories p) = Some (List.length before, accessory)).
    { rewrite E, findFirst_first; [reflexivity | now apply same_name_true |].
      intros y Hy. apply same_name_false. now apply Hbefore. }
    split.
    + intros N. unfold controlDevice. rewrite F. unfold getService.
      rewrite findFirst_none; [reflexivity |].
      intros s Hs. now apply No, N.
    + intros earlier service later Es Hs Hearlier.
      unfold controlDevice. rewrite F. unfold getService.
      rewrite Es, findFirst_first.
      * unfold log. cbn [accessories trace]. now rewrite <- app_assoc.
      * now apply getService_Lightbulb.
      * intros s Hin. now apply No, Hearlier.
  - intros cs. unfold updateCharacteristic. rewrite findFirst_as_lookup.
    destruct (lookupCharacteristic Characteristic.On_UUID 0 cs) as [[k c]|] eqn:L.
    + exists k, c. split; [| now left]. now apply (lookup_updateAt _ _ _ c).
    + eexists. eexists. split; [now apply lookup_append |]. right. repeat split.
Qed.

End LegacyPlatformProperties.

(** ** The further properties on concrete inputs *)

Lemma executeAction_twice_is_once_witness :
  accessories
    (snd (executeAction Fixture.storeAsGiven Fixture.noDefault
            (intent "turn on" "living room light")
            (snd (executeAction Fixture.storeAsGiven Fixture.noDefault
                    (intent "turn on" "living room light") Fixture.platform))))
  = accessories
      (snd (executeAction Fixture.storeAsGiven Fixture.noDefault
              (intent "turn on" "living room light") Fixture.platform)).
Proof.
  apply executeAction_twice_is_once. intros c c' v _. reflexivity.
Defined.

Lemma executeAction_unknown_device_witness :
  executeAction Fixture.storeAsGiven Fixture.noDefault (intent "turn on" "Garage Door")
    Fixture.platform
  = (Ok tt,
     {| accessories := Fixture.inventory;
        devicesInfo := "[]";
        trace := [Log LogError [Text "Accessory not found:"; Any (Json.str "Garage Door")]] |}).
Proof.
  apply (executeAction_unknown_device Fixture.storeAsGiven Fixture.noDefault
           "turn on" "Garage Door" Fixture.platform).
  intros x [<- | [<- | []]]; apply not_equalIgnoringCase_by_toLowerCase; discriminate.
Defined.

Lemma executeAction_sets_the_value_witness :
  executeAction Fixture.storeAsGiven Fixture.noDefault
    (intent "Turn ON" "living room light") Fixture.platform
  = (Ok tt,
     {| accessories :=
          updateAt 1
            (updateServices
               (updateAt 1
                  (updateCharacteristics
                     (updateAt 0
                        (fun _ => characteristicAfterSet Fixture.storeAsGiven Fixture.power
                                    (Boolean true))))))
            Fixture.inventory;
        devicesInfo := "[]";
        trace :=
          [Log Info [Text "Executing '"; Any (Json.str "Turn ON"); Text "' on '";
                     Any (Json.str "living room light"); Text "'"];
           GetCharacteristic "Living Room Light" Characteristic.On_UUID;
           SetValue Characteristic.On_UUID (Boolean true);
           Log Info [Text "The "; Any (Json.str "living room light");
                     Text " is now set to "; Val (Boolean true)]] |}).
Proof.
  apply (executeAction_sets_the_value Fixture.storeAsGiven Fixture.noDefault
           Fixture.platform "Turn ON" "living room light" 1 Fixture.lamp 1 Fixture.light
           Characteristic.On_UUID 0 Fixture.power (Boolean true));
    try reflexivity.
  discriminate.
Defined.

Lemma executeAction_without_a_device_name_witness :
  executeAction Fixture.storeAsGiven Fixture.noDefault
    (Json.JObject [("action", Json.JString "turn on")]) Fixture.platform
  = (Throw TypeError, Fixture.platform).
Proof.
  apply (executeAction_without_a_device_name Fixture.storeAsGiven Fixture.noDefault
           (Json.JObject [("action", Json.JString "turn on")]) Fixture.platform).
  - intros s. discriminate.
  - discriminate.
  - discriminate.
Defined.

Lemma determineValueForAction_kinds_witness :
  determineValueForAction (Json.str "turn on")
    {| Characteristic.UUID := "00000008-0000-1000-8000-0026BB765291";
       Characteristic.value := Num (JsString.Integer 40) |}
  = Ok Null
  /\ determineValueForAction (Json.str "turn on")
       {| Characteristic.UUID := Characteristic.On_UUID;
          Characteristic.value := Boolean true |}
     = determineValueForAction (Json.str "turn on") Fixture.power.
Proof.
  split.
  - apply determineValueForAction_kinds; discriminate.
  - apply determineValueForAction_kinds. reflexivity.
Defined.

Lemma target_temperature_takes_the_last_whole_number_witness :
  exists pre a b g rest,
    JsString.toLowerCase "Set temperature to 19, no, to 215 degrees"
    = pre ++ "set" ++ a ++ "temperature" ++ b ++ "to " ++ g ++ rest
    /\ dotRun a /\ dotRun b /\ digitString g
    /\ JsString.Integer 215 = JsString.parseInt g
    /\ noLeadingDigit rest
    /\ forall x d y, rest = x ++ "to " ++ String d y -> dotRun x ->
                     JsString.isDigit d = false.
Proof.
  apply (target_temperature_takes_the_last_whole_number
           "Set temperature to 19, no, to 215 degrees" Fixture.targetTemperature).
  reflexivity.
Defined.

Lemma handleUserCommand_skips_the_dispatch_when_the_resolver_fails_witness :
  handleUserCommand Json.parse (Fixture.answers "Sure, turning it on.")
    Fixture.storeAsGiven Fixture.noDefault "turn on the lamp" Fixture.platform
  = (Ok tt,
     {| accessories := Fixture.inventory;
        devicesInfo := "[]";
        trace :=
          [CreateCompletion (completionRequest "[]" "turn on the lamp");
           Log LogError [Text "Error processing command:";
                         MessageOf (Error "Failed to parse AI response: Sure, turning it on.")]] |}).
Proof.
  apply (handleUserCommand_skips_the_dispatch_when_the_resolver_fails Json.parse
           (Fixture.answers "Sure, turning it on.") Fixture.storeAsGiven Fixture.noDefault
           "turn on the lamp" Fixture.platform).
  reflexivity.
Defined.

Lemma handleUserCommand_dispatches_what_the_resolver_returns_witness :
  handleUserCommand Json.parse (Fixture.answers (Fixture.actionOnlyText "turn on"))
    Fixture.storeAsGiven Fixture.noDefault "turn it on" Fixture.platform
  = (Ok tt,
     {| accessories := Fixture.inventory;
        devicesInfo := "[]";
        trace :=
          [CreateCompletion (completionRequest "[]" "turn it on");
           Log LogError [Text "Error processing command:"; MessageOf TypeError]] |}).
Proof.
  rewrite (handleUserCommand_dispatches_what_the_resolver_returns Json.parse
             (Fixture.answers (Fixture.actionOnlyText "turn on"))
             Fixture.storeAsGiven Fixture.noDefault "turn it on" Fixture.platform
             (Json.JObject [("action", Json.JString "turn on")]) eq_refl).
  reflexivity.
Defined.

Module AxiosFixture.

Import AxiosAIService.

(** A response whose first choice holds [text]. *)
Definition completion (text : string) : Json.any :=
  Json.Value (Json.JObject
                [("id", Json.JString "cmpl-1");
                 ("choices", Json.JArray [Json.JObject [("text", Json.JString text);
                                                        ("index", Json.JNumber "0")]])]).

(** A response with no choice. *)
Definition noChoice : Json.any :=
  Json.Value (Json.JObject [("choices", Json.JArray [])]).

Definition engineMessage : string := "Cannot read properties of null (reading 'text')".

Lemma processCommand_returns_the_trimmed_first_text_witness :
  processCommand engineMessage (fun _ => Responds (completion (newline ++ " turn on the lamp ")))
    "sk-key" "lamp on please"
  = Returns "turn on the lamp".
Proof.
  apply (proj2 (AxiosAIServiceProperties.processCommand_returns_the_trimmed_first_text
                  engineMessage
                  (fun _ => Responds (completion (newline ++ " turn on the lamp ")))
                  "sk-key" "lamp on please" "turn on the lamp")).
  do 4 eexists. split; [reflexivity |]. split; [reflexivity |]. split; reflexivity.
Defined.

Lemma processCommand_wraps_every_error_witness :
  processCommand engineMessage (fun _ => Responds noChoice) "sk-key" "lamp on please"
  = Throws (ErrorObject
              "An unexpected error occurred: Invalid response structure from OpenAI API.")
  /\ processCommand engineMessage (fun _ => Fails (AxiosError (Some (429%N, "Too Many Requests"))))
       "sk-key" "lamp on please"
     = Throws (ErrorObject "OpenAI API request failed: 429 Too Many Requests")
  /\ processCommand engineMessage (fun _ => Fails (AxiosError None)) "sk-key" "lamp on please"
     = Throws (ErrorObject "OpenAI API request failed: Unknown Status ").
Proof.
  split; [| split].
  - destruct (AxiosAIServiceProperties.processCommand_wraps_every_error engineMessage
                (fun _ => Responds noChoice) "sk-key" "lamp on please")
      as [_ [Invalid _]].
    apply (Invalid noChoice); reflexivity.
  - destruct (AxiosAIServiceProperties.processCommand_wraps_every_error engineMessage
                (fun _ => Fails (AxiosError (Some (429%N, "Too Many Requests"))))
                "sk-key" "lamp on please")
      as [_ [_ [Status _]]].
    apply (Status 429%N "Too Many Requests"). reflexivity.
  - destruct (AxiosAIServiceProperties.processCommand_wraps_every_error engineMessage
                (fun _ => Fails (AxiosError None)) "sk-key" "lamp on please")
      as [_ [_ [_ Unknown]]].
    apply Unknown. reflexivity.
Defined.

Lemma handleResponse_agrees_with_processCommand_witness :
  handleResponse engineMessage noChoice
  = Throws (ErrorObject "Invalid response structure received.")
  /\ handleCommand engineMessage (fun _ => Responds noChoice) "sk-key" "lamp on please"
     = processCommand engineMessage (fun _ => Responds noChoice) "sk-key" "lamp on please".
Proof.
  destruct (AxiosAIServiceProperties.handleResponse_agrees_with_processCommand engineMessage
              (fun _ => Responds noChoice) "sk-key" "lamp on please" noChoice eq_refl)
    as [_ [Invalid Same]].
  split; [apply (Invalid eq_refl) | exact Same].
Defined.

End AxiosFixture.

Lemma controlDevice_takes_the_first_lightbulb_service_witness :
  LegacyPlatform.controlDevice Fixture.storeAsGiven Fixture.noDefault "LIVING ROOM light" true
    {| LegacyPlatform.accessories := Fixture.inventory; LegacyPlatform.trace := [] |}
  = {| LegacyPlatform.accessories :=
         updateAt 1
           (LegacyPlatform.inService 1
              (LegacyPlatform.updateCharacteristic Fixture.storeAsGiven Fixture.noDefault
                 Characteristic.On_UUID (Boolean true)))
           Fixture.inventory;
       LegacyPlatform.trace :=
         [LegacyPlatform.UpdateCharacteristic "Living Room Light" Characteristic.On_UUID
            (Boolean true);
          LegacyPlatform.Log LegacyPlatform.info
            ("Set " ++ Json.quoted "LIVING ROOM light" ++ " to ON.")] |}
  /\ LegacyPlatform.controlDevice Fixture.storeAsGiven Fixture.noDefault "hallway" false
       {| LegacyPlatform.accessories := Fixture.inventory; LegacyPlatform.trace := [] |}
     = {| LegacyPlatform.accessories := Fixture.inventory;
          LegacyPlatform.trace :=
            [LegacyPlatform.Log LegacyPlatform.warn
               ("Service for " ++ Json.quoted "hallway" ++ " not found.")] |}
  /\ LegacyPlatform.controlDevice Fixture.storeAsGiven Fixture.noDefault "desk" true
       {| LegacyPlatform.accessories := [Fixture.desk]; LegacyPlatform.trace := [] |}
     = {| LegacyPlatform.accessories :=
            updateAt 0
              (LegacyPlatform.inService 1
                 (LegacyPlatform.updateCharacteristic Fixture.storeAsGiven Fixture.noDefault
                    Characteristic.On_UUID (Boolean true)))
              [Fixture.desk];
          LegacyPlatform.trace :=
            [LegacyPlatform.UpdateCharacteristic "Desk Lamp" Characteristic.On_UUID
               (Boolean true);
             LegacyPlatform.Log LegacyPlatform.info
               ("Set " ++ Json.quoted "desk" ++ " to ON.")] |}.
Proof.
  split; [| split].
  - destruct (LegacyPlatformProperties.controlDevice_takes_the_first_lightbulb_service
                Fixture.storeAsGiven Fixture.noDefault "LIVING ROOM light" true
                {| LegacyPlatform.accessories := Fixture.inventory;
                   LegacyPlatform.trace := [] |}) as [_ [Found _]].
    destruct (Found [Fixture.hallway] Fixture.lamp [] eq_refl) as [_ Lightbulb].
    + apply equalIgnoringCase_by_toLowerCase. reflexivity.
    + intros x [<- | []]. apply not_equalIgnoringCase_by_toLowerCase. discriminate.
    + apply (Lightbulb [Fixture.information] Fixture.light [] eq_refl eq_refl).
      intros s [<- | []]. discriminate.
  - destruct (LegacyPlatformProperties.controlDevice_takes_the_first_lightbulb_service
                Fixture.storeAsGiven Fixture.noDefault "hallway" false
                {| LegacyPlatform.accessories := Fixture.inventory;
                   LegacyPlatform.trace := [] |}) as [_ [Found _]].
    destruct (Found [] Fixture.hallway [Fixture.lamp] eq_refl) as [None _].
    + apply equalIgnoringCase_by_toLowerCase. reflexivity.
    + intros x [].
    + apply None. intros s [<- | [<- | []]]; discriminate.
  - destruct (LegacyPlatformProperties.controlDevice_takes_the_first_lightbulb_service
                Fixture.storeAsGiven Fixture.noDefault "desk" true
                {| LegacyPlatform.accessories := [Fixture.desk];
                   LegacyPlatform.trace := [] |}) as [_ [Found _]].
    destruct (Found [] Fixture.desk [] eq_refl) as [_ Lightbulb].
    + apply equalIgnoringCase_by_toLowerCase. reflexivity.
    + intros x [].
    + apply (Lightbulb [Fixture.information] Fixture.plain [] eq_refl eq_refl).
      intros s [<- | []]. discriminate.
Defined.

Lemma executeAction_without_an_action_witness :
  executeAction Fixture.storeAsGiven Fixture.noDefault
    (Json.JObject [("device", Json.JString "living room light")]) Fixture.platform
  = (Throw TypeError,
     {| accessories := Fixture.inventory;
        devicesInfo := "[]";
        trace := [Log Info [Text "Executing '"; Any Json.Undefined; Text "' on '";
                            Any (Json.str "living room light"); Text "'"];
                  GetCharacteristic "Living Room Light" Characteristic.On_UUID] |})
  /\ executeAction Fixture.storeAsGiven Fixture.noDefault
       (Json.JObject [("action", Json.JObject [("toString", Json.JNumber "1")]);
                      ("device", Json.JString "living room light")]) Fixture.platform
     = (Throw TypeError, Fixture.platform).
Proof.
  split.
  - apply (proj2 (executeAction_without_an_action Fixture.storeAsGiven Fixture.noDefault
                    (Json.JObject [("device", Json.JString "living room light")])
                    "living room light" Fixture.platform 1 Fixture.lamp 1 Fixture.light
                    Characteristic.On_UUID
                    ltac:(discriminate) eq_refl ltac:(intros s; discriminate)
                    eq_refl eq_refl eq_refl)).
    reflexivity.
  - apply (proj1 (executeAction_without_an_action Fixture.storeAsGiven Fixture.noDefault
                    (Json.JObject [("action", Json.JObject [("toString", Json.JNumber "1")]);
                                   ("device", Json.JString "living room light")])
                    "living room light" Fixture.platform 1 Fixture.lamp 1 Fixture.light
                    Characteristic.On_UUID
                    ltac:(discriminate) eq_refl ltac:(intros s; discriminate)
                    eq_refl eq_refl eq_refl)).
    reflexivity.
Defined.

Lemma configureAccessory_then_findAccessoryByName_witness :
  findAccessoryByName (Json.str "living room light")
    (accessories (snd (configureAccessory Fixture.lampAgain Fixture.platform)))
  = Ok (Some (1, Fixture.lamp))
  /\ findAccessoryByName (Json.str "LIVING room light")
       (accessories (snd (configureAccessory Fixture.lampAgain
                            {| accessories := [Fixture.hallway];
                               devicesInfo := "[]";
                               trace := [] |})))
     = Ok (Some (1, Fixture.lampAgain)).
Proof.
  split.
  - apply (configureAccessory_then_findAccessoryByName Fixture.lampAgain
             "living room light" Fixture.platform). reflexivity.
  - apply (configureAccessory_then_findAccessoryByName Fixture.lampAgain
             "LIVING room light"
             {| accessories := [Fixture.hallway]; devicesInfo := "[]"; trace := [] |}).
    + reflexivity.
    + apply equalIgnoringCase_by_toLowerCase. reflexivity.
Defined.

Lemma readResponse_ignores_surrounding_white_space_witness :
  readResponse Json.parse
    (Some (newline ++ Fixture.intentText "turn on" "Lamp" ++ (" " ++ newline)))
  = readResponse Json.parse (Some (Fixture.intentText "turn on" "Lamp"))
  /\ readResponse Json.parse (Some newline) = Throw (Error "No response from AI").
Proof.
  destruct (readResponse_ignores_surrounding_white_space Json.parse
              newline (Fixture.intentText "turn on" "Lamp") (" " ++ newline)
              eq_refl eq_refl) as [Same [Empty _]].
  split; [exact Same | exact Empty].
Defined.
